(** * Bastion Browser: privacy policy engine and release updater

    A shallow embedding of the main-process code (the privacy network
    layer, the permission gate, the GitHub release-zip updater) and the
    properties its specification states about it.

    Modelling conventions.
    - A JavaScript string is a [string]: a sequence of code units, here
      restricted to the 8-bit range.  Every character class the code uses
      ([0-9], [A-Za-z0-9._-], white space) is decided inside that range.
    - A JavaScript number holding an integer is a [Z].  [Number] applied to
      a digit string rounds to the nearest double, written out on [Z].
      Counters stay far below 2^53, where [+ 1] is exact.
    - Module-level [let] variables of the source are fields of an explicit
      state record that every operation receives and returns.
    - Platform facilities the source calls but does not define (the URL
      parser, [Date.parse], [JSON.stringify], the clock, the network,
      file-system faults, the session's clearing tasks) are inputs of the
      operations.
    - [files] is the file system as far as the main process writes it
      itself: the download area and the JSON stores.  What
      [Expand-Archive] leaves in the staging directory is not in [files];
      the listing of that directory is an input ([extracted_files]). *)

From Stdlib Require Import ZArith List Bool Ascii String Arith Lia Permutation Sorted.
From stdpp Require Import base option list strings pretty gmap.
Import ListNotations.

Local Open Scope string_scope.
Local Open Scope list_scope.
Local Open Scope Z_scope.

(** ** JavaScript string primitives *)

Definition code (c : ascii) : nat := nat_of_ascii c.

Definition chars (s : string) : list ascii := list_ascii_of_string s.

Definition unchars (l : list ascii) : string := string_of_list_ascii l.

Definition in_range (lo hi : nat) (c : ascii) : bool :=
  (Nat.leb lo (code c)) && (Nat.leb (code c) hi).

Definition is_digit (c : ascii) : bool := in_range 48 57 c.

Definition is_upper (c : ascii) : bool := in_range 65 90 c.

Definition is_lower (c : ascii) : bool := in_range 97 122 c.

(** White space and line terminators removed by [String.prototype.trim]:
    TAB, LF, VT, FF, CR, SPACE and NBSP. *)
Definition is_space (c : ascii) : bool :=
  in_range 9 13 c || Nat.eqb (code c) 32 || Nat.eqb (code c) 160.

Fixpoint drop_while {A} (p : A -> bool) (l : list A) : list A :=
  match l with
  | [] => []
  | x :: l' => if p x then drop_while p l' else l
  end.

Definition trim_chars (l : list ascii) : list ascii :=
  rev (drop_while is_space (rev (drop_while is_space l))).

Definition trim (s : string) : string := unchars (trim_chars (chars s)).

(** [toLowerCase] on the modelled range: A-Z, and the Latin-1 capitals
    192-222 except the multiplication sign 215. *)
Definition lower_char (c : ascii) : ascii :=
  if is_upper c || (in_range 192 222 c && negb (Nat.eqb (code c) 215))
  then ascii_of_nat (code c + 32) else c.

Definition toLowerCase (s : string) : string := unchars (map lower_char (chars s)).

Definition is_empty (s : string) : bool :=
  match s with EmptyString => true | _ => false end.

(** [a || b] on strings: the empty string is falsy. *)
Definition str_or (a b : string) : string := if is_empty a then b else a.

Definition endsWith (s suffix : string) : bool :=
  let n := String.length s in
  let k := String.length suffix in
  Nat.leb k n && String.eqb (substring (n - k) k s) suffix.

(** ** Version comparison *)

(** [tag.replace(/^v/i, "")] after trimming. *)
Definition normalizeVersionFromTag (tagValue : string) : string :=
  let tag := trim tagValue in
  if is_empty tag then ""
  else match tag with
       | String c rest => if Nat.eqb (code c) 118 || Nat.eqb (code c) 86 then rest else tag
       | EmptyString => tag
       end.

(** [source.split(/[^0-9]+/)]: the pieces between maximal runs of
    non-digits, empty pieces at either end included. *)
Fixpoint split_non_digits (s cur : list ascii) (in_sep : bool) : list (list ascii) :=
  match s with
  | [] => [rev cur]
  | c :: s' =>
      if is_digit c then split_non_digits s' (c :: cur) false
      else if in_sep then split_non_digits s' cur true
      else rev cur :: split_non_digits s' [] true
  end.

Definition digit_value (c : ascii) : Z := Z.of_nat (code c) - 48.

Definition decimal_value (ds : list ascii) : Z :=
  fold_left (fun acc c => 10 * acc + digit_value c) ds 0.

(** The double nearest to a non-negative integer, ties to even; [None]
    stands for [Infinity]. *)
Definition round_to_double (n : Z) : option Z :=
  if n <? 2 ^ 53 then Some n
  else
    let e := Z.log2 n - 52 in
    let q := n / 2 ^ e in
    let r := n mod 2 ^ e in
    let half := 2 ^ (e - 1) in
    let q' := if r <? half then q
              else if half <? r then q + 1
              else if Z.even q then q else q + 1 in
    let v := q' * 2 ^ e in
    if v <? 2 ^ 1024 then Some v else None.

(** [Number(part)] for a non-empty string of digits. *)
Definition Number_of_digits (part : list ascii) : option Z :=
  round_to_double (decimal_value part).

Definition nonempty {A} (l : list A) : bool :=
  match l with [] => false | _ => true end.

Definition parseVersionParts (versionValue : string) : list Z :=
  let source := trim versionValue in
  if is_empty source then []
  else
    omap id (map Number_of_digits
               (filter (fun part => nonempty part = true)
                  (split_non_digits (chars source) [] false))).

(** The [for] loop of [compareVersions]; [left[index] || 0] reads 0 past
    the end of the array. *)
Fixpoint compare_loop (left right : list Z) (index remaining : nat) : Z :=
  match remaining with
  | O => 0
  | S k =>
      let leftValue := nth index left 0 in
      let rightValue := nth index right 0 in
      if leftValue >? rightValue then 1
      else if leftValue <? rightValue then -1
      else compare_loop left right (S index) k
  end.

Definition compareVersions (leftVersion rightVersion : string) : Z :=
  let left := parseVersionParts leftVersion in
  let right := parseVersionParts rightVersion in
  if Nat.eqb (length left) 0 || Nat.eqb (length right) 0 then 0
  else compare_loop left right 0 (Nat.max (length left) (length right)).

(** The comparison as the specification words it: component by component,
    a missing trailing component counting as 0. *)
Definition compare_component (x y rest : Z) : Z :=
  if x >? y then 1 else if x <? y then -1 else rest.

Fixpoint compare_missing_left (r : list Z) : Z :=
  match r with
  | [] => 0
  | y :: r' => compare_component 0 y (compare_missing_left r')
  end.

Fixpoint compare_padded (l r : list Z) : Z :=
  match l with
  | [] => compare_missing_left r
  | x :: l' =>
      match r with
      | [] => compare_component x 0 (compare_padded l' [])
      | y :: r' => compare_component x y (compare_padded l' r')
      end
  end.

(** ** Paths

    A path is the list of its segments below the file-system root (the
    drive, on Windows).  [path.join] concatenates its arguments and
    normalises the result: empty and [.] segments vanish, [..] removes
    the segment before it.  Both [/] and [\] separate segments, as on
    Windows, the platform the updater targets. *)

Definition path := list string.

Definition is_sep (c : ascii) : bool := Nat.eqb (code c) 47 || Nat.eqb (code c) 92.

Fixpoint split_sep (s cur : list ascii) : list string :=
  match s with
  | [] => [unchars (rev cur)]
  | c :: s' => if is_sep c then unchars (rev cur) :: split_sep s' [] else split_sep s' (c :: cur)
  end.

Definition segments (s : string) : list string := split_sep (chars s) [].

(** [stack] holds the segments kept so far, innermost first. *)
Fixpoint normalize_onto (stack segs : list string) : list string :=
  match segs with
  | [] => rev stack
  | seg :: rest =>
      if String.eqb seg "" || String.eqb seg "." then normalize_onto stack rest
      else if String.eqb seg ".." then normalize_onto (tail stack) rest
      else normalize_onto (seg :: stack) rest
  end.

Definition path_join (base : path) (parts : list string) : path :=
  normalize_onto [] (base ++ flat_map segments parts).

(** The path as a string; the root alone is ["/"]. *)
Definition path_string (p : path) : string :=
  match p with
  | [] => "/"
  | _ => String.concat "" (map (fun seg => "/" +:+ seg) p)
  end.

(** [p] lies inside directory [dir]: [dir] is a proper prefix of [p]. *)
Definition inside_dir (dir p : path) : Prop :=
  exists rest, rest <> [] /\ p = dir ++ rest.

Fixpoint is_prefix_b (dir p : path) : bool :=
  match dir, p with
  | [], _ => true
  | d :: dir', s :: p' => String.eqb d s && is_prefix_b dir' p'
  | _ :: _, [] => false
  end.

Definition inside_dir_b (dir p : path) : bool :=
  is_prefix_b dir p && Nat.ltb (length dir) (length p).

(** ** JSON documents

    What [writeJsonFile] hands to [JSON.stringify]; an object lists its
    properties in insertion order. *)
Unset Elimination Schemes.
Inductive json :=
| J_null
| J_bool (b : bool)
| J_number (n : Z)
| J_string (s : string)
| J_array (items : list json)
| J_object (properties : list (string * json)).
Set Elimination Schemes.

(** ** The host: what the process is given by Electron and its environment *)

Record UrlObject := { protocol : string; hostname : string }.

Record Host := {
  appVersion : string;                 (* app.getVersion() *)
  appIsPackaged : bool;                (* app.isPackaged *)
  platform : string;                   (* process.platform *)
  userData : path;                     (* app.getPath("userData") *)
  env_releases_api_url : string;       (* BASTION_GITHUB_RELEASES_API_URL, "" when unset *)
  env_releases_tags_url : string;      (* BASTION_GITHUB_RELEASES_TAGS_URL *)
  env_update_asset_name : string;      (* BASTION_GITHUB_UPDATE_ASSET_NAME *)
  env_update_url : string;             (* BASTION_UPDATE_URL *)
  fetch_available : bool;              (* typeof fetch === "function" *)
  autoUpdater_available : bool;        (* require("electron-updater") succeeded *)
  setFeedURL_error : string -> option string;  (* autoUpdater.setFeedURL throws *)
  now : Z;                             (* Date.now() *)
  Date_parse : string -> option Z;     (* Date.parse, None for NaN *)
  URL_parse : string -> option UrlObject;  (* new URL(...), None when it throws *)
  JSON_stringify : json -> string      (* JSON.stringify(value, null, 2) *)
}.

Definition GITHUB_RELEASES_API_URL : string :=
  "https://api.github.com/repos/Zombiegoblin4/Bastion-Browser/releases".
Definition GITHUB_RELEASES_TAGS_PAGE_URL : string :=
  "https://github.com/Zombiegoblin4/Bastion-Browser/releases/tags".
Definition GITHUB_UPDATE_ASSET_NAME : string := "update.zip".

Definition resolveGitHubReleasesApiURL (h : Host) : string :=
  str_or (trim (env_releases_api_url h)) GITHUB_RELEASES_API_URL.

Definition resolveGitHubTagsPageURL (h : Host) : string :=
  str_or (trim (env_releases_tags_url h)) GITHUB_RELEASES_TAGS_PAGE_URL.

Definition resolveGitHubUpdateAssetName (h : Host) : string :=
  str_or (trim (env_update_asset_name h)) GITHUB_UPDATE_ASSET_NAME.

Definition getGitHubUpdateDownloadDir (h : Host) : path :=
  path_join (userData h) ["updates"].

(** ** Update target paths *)

Definition is_tag_char (c : ascii) : bool :=
  is_lower c || is_upper c || is_digit c
  || Nat.eqb (code c) 46 || Nat.eqb (code c) 95 || Nat.eqb (code c) 45.

(** [.replace(/[^a-z0-9._-]+/gi, "_")]: every maximal run of other
    characters becomes one underscore. *)
Fixpoint replace_unsafe_runs (s : list ascii) (in_run : bool) : list ascii :=
  match s with
  | [] => []
  | c :: s' =>
      if is_tag_char c then c :: replace_unsafe_runs s' false
      else if in_run then replace_unsafe_runs s' true
      else "_"%char :: replace_unsafe_runs s' true
  end.

Definition sanitizeTagForPath (tagValue : string) : string :=
  let normalized := unchars (replace_unsafe_runs (chars (trim tagValue)) false) in
  str_or normalized "latest".

Definition resolveGitHubUpdateTargetPath (h : Host) (tagValue : string) : path :=
  let safeTag := sanitizeTagForPath tagValue in
  let fileName := resolveGitHubUpdateAssetName h in
  path_join (getGitHubUpdateDownloadDir h) [safeTag; fileName].

Definition resolveGitHubUpdateStagingDir (h : Host) (tagValue : string) : path :=
  let safeTag := sanitizeTagForPath tagValue in
  path_join (getGitHubUpdateDownloadDir h) ["staged"; safeTag].

(** ** Privacy configuration and statistics *)

Record PrivacyConfig := {
  blockTrackers : bool;
  upgradeHttps : bool;
  sendDoNotTrack : bool;
  sendGlobalPrivacyControl : bool;
  blockThirdPartyCookies : bool;
  blockFingerprintingPermissions : bool;
  clearDataOnExit : bool
}.

Definition DEFAULT_PRIVACY_CONFIG : PrivacyConfig := {|
  blockTrackers := true;
  upgradeHttps := true;
  sendDoNotTrack := true;
  sendGlobalPrivacyControl := true;
  blockThirdPartyCookies := true;
  blockFingerprintingPermissions := true;
  clearDataOnExit := false
|}.

Record PrivacyStats := {
  blockedRequests : Z;
  upgradedToHttps : Z;
  strippedCookieHeaders : Z;
  blockedPermissions : Z;
  startedAt : Z
}.

Definition createEmptyPrivacyStats (h : Host) : PrivacyStats := {|
  blockedRequests := 0;
  upgradedToHttps := 0;
  strippedCookieHeaders := 0;
  blockedPermissions := 0;
  startedAt := now h
|}.

(** [privacyStats[key] += 1] when [key] is an own numeric property of the
    statistics object, nothing otherwise.  [startedAt] is such a property
    too. *)
Definition incrementPrivacyStat (key : string) (stats : PrivacyStats) : PrivacyStats :=
  if String.eqb key "blockedRequests" then
    {| blockedRequests := blockedRequests stats + 1;
       upgradedToHttps := upgradedToHttps stats;
       strippedCookieHeaders := strippedCookieHeaders stats;
       blockedPermissions := blockedPermissions stats;
       startedAt := startedAt stats |}
  else if String.eqb key "upgradedToHttps" then
    {| blockedRequests := blockedRequests stats;
       upgradedToHttps := upgradedToHttps stats + 1;
       strippedCookieHeaders := strippedCookieHeaders stats;
       blockedPermissions := blockedPermissions stats;
       startedAt := startedAt stats |}
  else if String.eqb key "strippedCookieHeaders" then
    {| blockedRequests := blockedRequests stats;
       upgradedToHttps := upgradedToHttps stats;
       strippedCookieHeaders := strippedCookieHeaders stats + 1;
       blockedPermissions := blockedPermissions stats;
       startedAt := startedAt stats |}
  else if String.eqb key "blockedPermissions" then
    {| blockedRequests := blockedRequests stats;
       upgradedToHttps := upgradedToHttps stats;
       strippedCookieHeaders := strippedCookieHeaders stats;
       blockedPermissions := blockedPermissions stats + 1;
       startedAt := startedAt stats |}
  else if String.eqb key "startedAt" then
    {| blockedRequests := blockedRequests stats;
       upgradedToHttps := upgradedToHttps stats;
       strippedCookieHeaders := strippedCookieHeaders stats;
       blockedPermissions := blockedPermissions stats;
       startedAt := startedAt stats + 1 |}
  else stats.

(** Values a configuration payload can carry. *)
Inductive jsval :=
| VBool (b : bool)
| VString (s : string)
| VNumber (n : Z)
| VNull.

Definition sanitizeBoolean (value : option jsval) (fallback : bool) : bool :=
  match value with
  | Some (VBool b) => b
  | _ => fallback
  end.

Definition sanitizeString (value : option jsval) (fallback : string) : string :=
  match value with
  | Some (VString s) => s
  | _ => fallback
  end.

Definition sanitizePrivacyConfig (raw : gmap string jsval) : PrivacyConfig := {|
  blockTrackers := sanitizeBoolean (raw !! "blockTrackers") (blockTrackers DEFAULT_PRIVACY_CONFIG);
  upgradeHttps := sanitizeBoolean (raw !! "upgradeHttps") (upgradeHttps DEFAULT_PRIVACY_CONFIG);
  sendDoNotTrack := sanitizeBoolean (raw !! "sendDoNotTrack") (sendDoNotTrack DEFAULT_PRIVACY_CONFIG);
  sendGlobalPrivacyControl :=
    sanitizeBoolean (raw !! "sendGlobalPrivacyControl")
      (sendGlobalPrivacyControl DEFAULT_PRIVACY_CONFIG);
  blockThirdPartyCookies :=
    sanitizeBoolean (raw !! "blockThirdPartyCookies")
      (blockThirdPartyCookies DEFAULT_PRIVACY_CONFIG);
  blockFingerprintingPermissions :=
    sanitizeBoolean (raw !! "blockFingerprintingPermissions")
      (blockFingerprintingPermissions DEFAULT_PRIVACY_CONFIG);
  clearDataOnExit := sanitizeBoolean (raw !! "clearDataOnExit") (clearDataOnExit DEFAULT_PRIVACY_CONFIG)
|}.

(** The configuration as the object that [{ ...privacyConfig, ...raw }]
    spreads. *)
Definition privacyConfig_object (c : PrivacyConfig) : gmap string jsval :=
  <["blockTrackers" := VBool (blockTrackers c)]>
  (<["upgradeHttps" := VBool (upgradeHttps c)]>
  (<["sendDoNotTrack" := VBool (sendDoNotTrack c)]>
  (<["sendGlobalPrivacyControl" := VBool (sendGlobalPrivacyControl c)]>
  (<["blockThirdPartyCookies" := VBool (blockThirdPartyCookies c)]>
  (<["blockFingerprintingPermissions" := VBool (blockFingerprintingPermissions c)]>
  (<["clearDataOnExit" := VBool (clearDataOnExit c)]> ∅)))))).

Definition patchPrivacyConfig (patch : gmap string jsval) (c : PrivacyConfig) : PrivacyConfig :=
  sanitizePrivacyConfig (patch ∪ privacyConfig_object c).

(** ** Host matcher *)

Definition set_has (members : list string) (x : string) : bool :=
  existsb (String.eqb x) members.

Definition TRACKER_HOST_RULES : list string :=
  ["doubleclick.net"; "google-analytics.com"; "googletagmanager.com";
   "googlesyndication.com"; "adservice.google.com"; "ads.yahoo.com";
   "facebook.net"; "connect.facebook.net"; "scorecardresearch.com";
   "hotjar.com"; "segment.io"; "mixpanel.com"; "taboola.com"; "outbrain.com";
   "adnxs.com"; "criteo.com"; "quantserve.com"].

Definition TRACKER_RESOURCE_TYPES : list string :=
  ["script"; "image"; "xhr"; "fetch"; "subFrame"; "ping"; "media"; "font";
   "stylesheet"; "object"; "webSocket"].

Definition LOOPBACK_HOSTS : list string :=
  ["localhost"; "127.0.0.1"; "::1"; "[::1]"].

Definition FINGERPRINTING_PERMISSIONS : list string :=
  ["idle-detection"; "window-management"; "display-capture"; "midi";
   "midiSysex"; "midi-sysex"; "pointerLock"; "background-sync";
   "payment-handler"; "speaker-selection"].

Definition ALLOWED_PERMISSIONS : list string :=
  ["fullscreen"; "notifications"; "clipboard-read"; "media"].

Definition toUrlObject (h : Host) (input : string) : option UrlObject :=
  URL_parse h input.

Definition getHostnameFromUrl (h : Host) (input : string) : string :=
  match toUrlObject h input with
  | Some parsed => toLowerCase (hostname parsed)
  | None => ""
  end.

Fixpoint split_char (sep : ascii) (s cur : list ascii) : list (list ascii) :=
  match s with
  | [] => [rev cur]
  | c :: s' =>
      if Ascii.eqb c sep then rev cur :: split_char sep s' [] else split_char sep s' (c :: cur)
  end.

(** [/^\d{1,3}(\.\d{1,3}){3}$/.test(value)] *)
Definition is_dotted_quad (value : string) : bool :=
  let pieces := split_char "."%char (chars value) [] in
  Nat.eqb (length pieces) 4
  && forallb (fun piece => nonempty piece && Nat.leb (length piece) 3 && forallb is_digit piece)
       pieces.

Definition last_two {A} (l : list A) : list A := skipn (length l - 2) l.

Definition getSiteKey (hostname_ : string) : string :=
  let value := toLowerCase hostname_ in
  if is_empty value then ""
  else if set_has LOOPBACK_HOSTS value || endsWith value ".localhost" then value
  else if is_dotted_quad value then value
  else
    let parts := filter (fun piece => nonempty piece = true)
                   (split_char "."%char (chars value) []) in
    if Nat.leb (length parts) 2 then value
    else String.concat "." (map unchars (last_two parts)).

Definition isThirdPartyRequest (h : Host) (requestUrl initiatorUrl : string) : bool :=
  let requestHost := getHostnameFromUrl h requestUrl in
  let initiatorHost := getHostnameFromUrl h initiatorUrl in
  if is_empty requestHost || is_empty initiatorHost then false
  else negb (String.eqb (getSiteKey requestHost) (getSiteKey initiatorHost)).

Definition matchesTrackerHost (hostname_ : string) : bool :=
  let value := toLowerCase hostname_ in
  if is_empty value then false
  else existsb (fun rule => String.eqb value rule || endsWith value ("." +:+ rule))
         TRACKER_HOST_RULES.

(** ** Privacy policy engine *)

Record RequestDetails := {
  url : string;
  resourceType : string;
  initiator : option string;                 (* a string, or absent *)
  requestHeaders : list (string * string)    (* own keys in insertion order *)
}.

Definition shouldBlockTrackerRequest (h : Host) (c : PrivacyConfig) (details : RequestDetails) : bool :=
  if negb (blockTrackers c) then false
  else
    let resourceType_ := resourceType details in
    if negb (set_has TRACKER_RESOURCE_TYPES resourceType_) then false
    else
      let host := getHostnameFromUrl h (url details) in
      if is_empty host || negb (matchesTrackerHost host) then false
      else
        let initiator_ := default "" (initiator details) in
        if is_empty initiator_ then negb (String.eqb resourceType_ "mainFrame")
        else isThirdPartyRequest h (url details) initiator_.

Definition shouldUpgradeToHttps (h : Host) (rawUrl : string) : bool :=
  match toUrlObject h rawUrl with
  | None => false
  | Some parsed =>
      if negb (String.eqb (protocol parsed) "http:") then false
      else
        let host := toLowerCase (hostname parsed) in
        if is_empty host || set_has LOOPBACK_HOSTS host || endsWith host ".localhost" then false
        else if is_dotted_quad host then false
        else true
  end.

(** [String(url).replace(/^http:\/\//i, "https://")] *)
Definition upgrade_scheme (u : string) : string :=
  if String.eqb (toLowerCase (substring 0 7 u)) "http://"
  then "https://" +:+ substring 7 (String.length u - 7) u
  else u.

Inductive RequestDecision :=
| Cancel
| RedirectTo (redirectURL : string)
| PassThrough.

Definition onBeforeRequest (h : Host) (c : PrivacyConfig) (details : RequestDetails)
    (stats : PrivacyStats) : PrivacyStats * RequestDecision :=
  if shouldBlockTrackerRequest h c details then
    (incrementPrivacyStat "blockedRequests" stats, Cancel)
  else if upgradeHttps c && shouldUpgradeToHttps h (url details) then
    let redirectURL := upgrade_scheme (url details) in
    if negb (String.eqb redirectURL (url details)) then
      (incrementPrivacyStat "upgradedToHttps" stats, RedirectTo redirectURL)
    else (stats, PassThrough)
  else (stats, PassThrough).

Fixpoint findHeaderKey (headers : list (string * string)) (name : string) : option string :=
  match headers with
  | [] => None
  | (key, _) :: rest =>
      if String.eqb (toLowerCase key) (toLowerCase name) then Some key
      else findHeaderKey rest name
  end.

(** [headers[key] = value]: an existing key keeps its place. *)
Fixpoint object_set (headers : list (string * string)) (key value : string) : list (string * string) :=
  match headers with
  | [] => [(key, value)]
  | (k, v) :: rest =>
      if String.eqb k key then (k, value) :: rest else (k, v) :: object_set rest key value
  end.

Definition object_delete (headers : list (string * string)) (key : string) : list (string * string) :=
  filter (fun kv => negb (String.eqb (fst kv) key) = true) headers.

(** [findHeaderKey(headers, name) || name]: an empty key is falsy. *)
Definition setHeader (headers : list (string * string)) (name value : string) : list (string * string) :=
  let key := str_or (default "" (findHeaderKey headers name)) name in
  object_set headers key value.

Definition removeHeader (headers : list (string * string)) (name : string) : list (string * string) :=
  match findHeaderKey headers name with
  | Some key => if is_empty key then headers else object_delete headers key
  | None => headers
  end.

Definition hasHeader (headers : list (string * string)) (name : string) : bool :=
  match findHeaderKey headers name with
  | Some key => negb (is_empty key)
  | None => false
  end.

Definition onBeforeSendHeaders (h : Host) (c : PrivacyConfig) (details : RequestDetails)
    (stats : PrivacyStats) : PrivacyStats * list (string * string) :=
  let headers0 := requestHeaders details in
  let headers1 := if sendDoNotTrack c then setHeader headers0 "DNT" "1"
                  else removeHeader headers0 "DNT" in
  let headers2 := if sendGlobalPrivacyControl c then setHeader headers1 "Sec-GPC" "1"
                  else removeHeader headers1 "Sec-GPC" in
  if blockThirdPartyCookies c
     && hasHeader headers2 "Cookie"
     && isThirdPartyRequest h (url details) (default "" (initiator details))
  then (incrementPrivacyStat "strippedCookieHeaders" stats, removeHeader headers2 "Cookie")
  else (stats, headers2).

(** ** Permission gate *)

Definition permissionRequestHandler (c : PrivacyConfig) (permission : string)
    (stats : PrivacyStats) : PrivacyStats * bool :=
  let requested := permission in
  if blockFingerprintingPermissions c && set_has FINGERPRINTING_PERMISSIONS requested then
    (incrementPrivacyStat "blockedPermissions" stats, false)
  else
    let allowed := set_has ALLOWED_PERMISSIONS requested in
    ((if negb allowed then incrementPrivacyStat "blockedPermissions" stats else stats), allowed).

Definition permissionCheckHandler (c : PrivacyConfig) (permission : string) : bool :=
  let requested := permission in
  if blockFingerprintingPermissions c && set_has FINGERPRINTING_PERMISSIONS requested then false
  else set_has ALLOWED_PERMISSIONS requested.

(** ** Release discovery *)

Record Asset := {
  name : string;
  browser_download_url : string
}.

Record Release := {
  tag_name : string;
  draft : bool;
  prerelease : bool;
  published_at : string;      (* "" when the field is absent *)
  created_at : string;
  createdAt : string;
  html_url : string;
  assets : list Asset
}.

Record UpdateConfig := {
  autoCheck : bool;
  autoDownload : bool;
  allowPrerelease : bool;
  feedURL : string;
  useGithubReleaseZip : bool;
  autoApplyGithubZip : bool
}.

Definition DEFAULT_UPDATE_CONFIG : UpdateConfig := {|
  autoCheck := true;
  autoDownload := true;
  allowPrerelease := false;
  feedURL := "";
  useGithubReleaseZip := true;
  autoApplyGithubZip := true
|}.

(** What the release index answers: the request is rejected, or a
    response arrives whose body is not JSON, is JSON but no array, or is
    an array whose items are release objects or falsy values. *)
Inductive JsonPayload :=
| NotJson (reason : string)
| NotAnArray
| ReleaseArray (items : list (option Release)).

Inductive ReleasesFetch :=
| ReleasesRejected (reason : string)
| ReleasesResponse (ok : bool) (status : Z) (payload : JsonPayload).

(** What an asset URL answers.  The body delivers [chunks] and then ends,
    or fails with [stream_error]. *)
Record Body := {
  chunks : list string;
  stream_error : option string
}.

Inductive AssetFetch :=
| AssetRejected (reason : string)
| AssetResponse (ok : bool) (status : Z) (body : option Body).

(** How a [writeJsonFile] ends: the text is written; or the call throws
    before the file is touched; or it throws and leaves [partial] in the
    file.  The source swallows the exception in both cases. *)
Inductive StoreWrite :=
| store_written
| store_untouched
| store_left (partial : string).

(** File-system calls that can throw.  [fs.statSync] throws when the file
    is missing, and may throw for a file that is there ([stat_fails]).
    [store_write] tells how the write of the JSON store at a path ends. *)
Record FsFaults := {
  mkdir_fails : bool;
  write_fails_after : option nat;   (* the write stream fails after that many chunks *)
  rename_fails : bool;
  unlink_fails : bool;
  stat_fails : bool;
  store_write : string -> StoreWrite
}.

Definition no_faults : FsFaults := {|
  mkdir_fails := false;
  write_fails_after := None;
  rename_fails := false;
  unlink_fails := false;
  stat_fails := false;
  store_write := fun _ => store_written
|}.

(** How a clearing task of the session ends: it empties its store, or it
    rejects and leaves [remaining] in it.  [Promise.allSettled] hides the
    rejection. *)
Inductive ClearOutcome :=
| clear_done
| clear_rejected (remaining : list string).

Record SessionClears := {
  clearCache_ends : ClearOutcome;       (* ses.clearCache() *)
  clearCookies_ends : ClearOutcome;     (* ses.clearStorageData({ storages: ["cookies"] }) *)
  clearAuthCache_ends : ClearOutcome;   (* ses.clearAuthCache() *)
  clearStorage_ends : ClearOutcome      (* ses.clearStorageData({ storages: [...] }) *)
}.

Definition session_clears_done : SessionClears := {|
  clearCache_ends := clear_done;
  clearCookies_ends := clear_done;
  clearAuthCache_ends := clear_done;
  clearStorage_ends := clear_done
|}.

Definition settled_store (outcome : ClearOutcome) : list string :=
  match outcome with
  | clear_done => []
  | clear_rejected remaining => remaining
  end.

Record World := {
  releases_fetch : ReleasesFetch;
  asset_fetch : string -> AssetFetch;
  faults : FsFaults;
  extracted_files : option (list string);  (* files found after Expand-Archive, None when it fails *)
  session_clears : SessionClears
}.

(** [Array.prototype.sort(cmp)]: a stable sort; [x] goes before [y] when
    [cmp x y] is negative. *)
Fixpoint sort_insert {A} (cmp : A -> A -> Z) (x : A) (l : list A) : list A :=
  match l with
  | [] => [x]
  | y :: ys => if cmp x y <=? 0 then x :: l else y :: sort_insert cmp x ys
  end.

Fixpoint array_sort {A} (cmp : A -> A -> Z) (l : list A) : list A :=
  match l with
  | [] => []
  | x :: xs => sort_insert cmp x (array_sort cmp xs)
  end.

(** [Date.parse(String(r.published_at || r.created_at || r.createdAt || "")) || 0] *)
Definition release_time (h : Host) (r : Release) : Z :=
  default 0 (Date_parse h (str_or (published_at r) (str_or (created_at r) (createdAt r)))).

Definition select_latest (h : Host) (c : UpdateConfig) (releases : list (option Release)) : option Release :=
  let nonDraftReleases := filter (fun r => draft r = false) (omap id releases) in
  let preferred :=
    filter (fun r => (if allowPrerelease c then true else negb (prerelease r)) = true)
      nonDraftReleases in
  let selectionPool := if nonempty preferred then preferred else nonDraftReleases in
  let sorted := array_sort (fun left right => release_time h right - release_time h left)
                  selectionPool in
  head sorted.

Definition findReleaseAsset (release : Release) (assetName_ : string) : option Asset :=
  let wantedName := toLowerCase assetName_ in
  find (fun asset => String.eqb (toLowerCase (name asset)) wantedName) (assets release).

(** ** Updater state *)

Inductive UpdateState :=
| idle | checking | available | downloading | downloaded | installing | disabled | status_error.

Inductive UpdateSource :=
| source_none | github_release_zip | electron_updater.

Record UpdateStatus := {
  status : UpdateState;
  message : string;
  currentVersion : string;
  source : UpdateSource;
  availableVersion : option string;
  downloadedVersion : option string;
  updateFilePath : option string;
  status_releasePage : option string;
  progressPercent : Z;
  checkedAt : option Z;
  isPackaged : bool;
  error : option string;
  updatedAt : Z
}.

Definition createInitialUpdateStatus (h : Host) : UpdateStatus := {|
  status := idle;
  message := "Updater idle.";
  currentVersion := appVersion h;
  source := source_none;
  availableVersion := None;
  downloadedVersion := None;
  updateFilePath := None;
  status_releasePage := None;
  progressPercent := 0;
  checkedAt := None;
  isPackaged := appIsPackaged h;
  error := None;
  updatedAt := now h
|}.

Record GitHubUpdateMetadata := {
  lastTag : string;
  filePath : string;
  downloadedAt : Z;
  sizeBytes : Z;
  assetName : string;
  releasePage : string;
  lastAppliedTag : string;
  appliedAt : Z
}.

Definition createInitialGitHubUpdateMetadata : GitHubUpdateMetadata := {|
  lastTag := "";
  filePath := "";
  downloadedAt := 0;
  sizeBytes := 0;
  assetName := GITHUB_UPDATE_ASSET_NAME;
  releasePage := "";
  lastAppliedTag := "";
  appliedAt := 0
|}.

Record HistoryEntry := { entry_url : string; title : string; visitedAt : Z }.

Record DownloadRecord := {
  download_id : string;
  filename : string;
  download_url : string;
  download_state : string;
  receivedBytes : Z;
  totalBytes : Z;
  savePath : string;
  download_startedAt : Z;
  endedAt : option Z                  (* None: [null] *)
}.

(** The session's stores, as far as clearing them goes. *)
Record SessionData := {
  cache : list string;
  cookies : list string;
  authCache : list string;
  storage : list string
}.

(** The mutable state of the main process.  [files] maps a path to the
    contents of the file there; [requests_sent] lists the URLs fetched,
    oldest first; [launched] lists the files spawned. *)
Record AppState := {
  privacyConfig : PrivacyConfig;
  privacyStats : PrivacyStats;
  updateConfig : UpdateConfig;
  updateStatus : UpdateStatus;
  githubUpdateMetadata : GitHubUpdateMetadata;
  browsingHistory : list HistoryEntry;
  downloadItems : list DownloadRecord;
  sessionData : SessionData;
  files : gmap string string;
  requests_sent : list string;
  launched : list string;
  quit_scheduled : bool
}.

Definition with_privacyConfig (c : PrivacyConfig) (st : AppState) : AppState :=
  {| privacyConfig := c; privacyStats := privacyStats st; updateConfig := updateConfig st;
     updateStatus := updateStatus st; githubUpdateMetadata := githubUpdateMetadata st;
     browsingHistory := browsingHistory st; downloadItems := downloadItems st;
     sessionData := sessionData st; files := files st; requests_sent := requests_sent st;
     launched := launched st; quit_scheduled := quit_scheduled st |}.

Definition with_privacyStats (s : PrivacyStats) (st : AppState) : AppState :=
  {| privacyConfig := privacyConfig st; privacyStats := s; updateConfig := updateConfig st;
     updateStatus := updateStatus st; githubUpdateMetadata := githubUpdateMetadata st;
     browsingHistory := browsingHistory st; downloadItems := downloadItems st;
     sessionData := sessionData st; files := files st; requests_sent := requests_sent st;
     launched := launched st; quit_scheduled := quit_scheduled st |}.

Definition with_updateConfig (c : UpdateConfig) (st : AppState) : AppState :=
  {| privacyConfig := privacyConfig st; privacyStats := privacyStats st; updateConfig := c;
     updateStatus := updateStatus st; githubUpdateMetadata := githubUpdateMetadata st;
     browsingHistory := browsingHistory st; downloadItems := downloadItems st;
     sessionData := sessionData st; files := files st; requests_sent := requests_sent st;
     launched := launched st; quit_scheduled := quit_scheduled st |}.

Definition with_updateStatus (u : UpdateStatus) (st : AppState) : AppState :=
  {| privacyConfig := privacyConfig st; privacyStats := privacyStats st;
     updateConfig := updateConfig st; updateStatus := u;
     githubUpdateMetadata := githubUpdateMetadata st;
     browsingHistory := browsingHistory st; downloadItems := downloadItems st;
     sessionData := sessionData st; files := files st; requests_sent := requests_sent st;
     launched := launched st; quit_scheduled := quit_scheduled st |}.

Definition with_githubUpdateMetadata (m : GitHubUpdateMetadata) (st : AppState) : AppState :=
  {| privacyConfig := privacyConfig st; privacyStats := privacyStats st;
     updateConfig := updateConfig st; updateStatus := updateStatus st;
     githubUpdateMetadata := m;
     browsingHistory := browsingHistory st; downloadItems := downloadItems st;
     sessionData := sessionData st; files := files st; requests_sent := requests_sent st;
     launched := launched st; quit_scheduled := quit_scheduled st |}.

Definition with_browsingHistory (l : list HistoryEntry) (st : AppState) : AppState :=
  {| privacyConfig := privacyConfig st; privacyStats := privacyStats st;
     updateConfig := updateConfig st; updateStatus := updateStatus st;
     githubUpdateMetadata := githubUpdateMetadata st;
     browsingHistory := l; downloadItems := downloadItems st;
     sessionData := sessionData st; files := files st; requests_sent := requests_sent st;
     launched := launched st; quit_scheduled := quit_scheduled st |}.

Definition with_downloadItems (l : list DownloadRecord) (st : AppState) : AppState :=
  {| privacyConfig := privacyConfig st; privacyStats := privacyStats st;
     updateConfig := updateConfig st; updateStatus := updateStatus st;
     githubUpdateMetadata := githubUpdateMetadata st;
     browsingHistory := browsingHistory st; downloadItems := l;
     sessionData := sessionData st; files := files st; requests_sent := requests_sent st;
     launched := launched st; quit_scheduled := quit_scheduled st |}.

Definition with_sessionData (d : SessionData) (st : AppState) : AppState :=
  {| privacyConfig := privacyConfig st; privacyStats := privacyStats st;
     updateConfig := updateConfig st; updateStatus := updateStatus st;
     githubUpdateMetadata := githubUpdateMetadata st;
     browsingHistory := browsingHistory st; downloadItems := downloadItems st;
     sessionData := d; files := files st; requests_sent := requests_sent st;
     launched := launched st; quit_scheduled := quit_scheduled st |}.

Definition with_files (f : gmap string string) (st : AppState) : AppState :=
  {| privacyConfig := privacyConfig st; privacyStats := privacyStats st;
     updateConfig := updateConfig st; updateStatus := updateStatus st;
     githubUpdateMetadata := githubUpdateMetadata st;
     browsingHistory := browsingHistory st; downloadItems := downloadItems st;
     sessionData := sessionData st; files := f; requests_sent := requests_sent st;
     launched := launched st; quit_scheduled := quit_scheduled st |}.

Definition with_requests_sent (l : list string) (st : AppState) : AppState :=
  {| privacyConfig := privacyConfig st; privacyStats := privacyStats st;
     updateConfig := updateConfig st; updateStatus := updateStatus st;
     githubUpdateMetadata := githubUpdateMetadata st;
     browsingHistory := browsingHistory st; downloadItems := downloadItems st;
     sessionData := sessionData st; files := files st; requests_sent := l;
     launched := launched st; quit_scheduled := quit_scheduled st |}.

Definition with_launch (file : string) (st : AppState) : AppState :=
  {| privacyConfig := privacyConfig st; privacyStats := privacyStats st;
     updateConfig := updateConfig st; updateStatus := updateStatus st;
     githubUpdateMetadata := githubUpdateMetadata st;
     browsingHistory := browsingHistory st; downloadItems := downloadItems st;
     sessionData := sessionData st; files := files st; requests_sent := requests_sent st;
     launched := launched st ++ [file]; quit_scheduled := quit_scheduled st |}.

Definition with_quit_scheduled (st : AppState) : AppState :=
  {| privacyConfig := privacyConfig st; privacyStats := privacyStats st;
     updateConfig := updateConfig st; updateStatus := updateStatus st;
     githubUpdateMetadata := githubUpdateMetadata st;
     browsingHistory := browsingHistory st; downloadItems := downloadItems st;
     sessionData := sessionData st; files := files st; requests_sent := requests_sent st;
     launched := launched st; quit_scheduled := true |}.

(** ** Persistence

    The JSON stores of the user-data directory. *)

Definition getDownloadsStorePath (h : Host) : path :=
  path_join (userData h) ["downloads.json"].

Definition getHistoryStorePath (h : Host) : path :=
  path_join (userData h) ["history.json"].

Definition getPrivacyStorePath (h : Host) : path :=
  path_join (userData h) ["privacy.json"].

Definition getUpdateStorePath (h : Host) : path :=
  path_join (userData h) ["updates.json"].

Definition getGitHubUpdateMetaStorePath (h : Host) : path :=
  path_join (userData h) ["github-release-update.json"].

(** [fs.writeFileSync(filePath, JSON.stringify(value, null, 2), "utf8")]
    inside a [try] whose [catch] is empty. *)
Definition writeJsonFile (h : Host) (flt : FsFaults) (filePath_ : path) (value : json)
    (fs : gmap string string) : gmap string string :=
  match store_write flt (path_string filePath_) with
  | store_written => <[path_string filePath_ := JSON_stringify h value]> fs
  | store_untouched => fs
  | store_left partial => <[path_string filePath_ := partial]> fs
  end.

Definition privacyConfig_json (c : PrivacyConfig) : json :=
  J_object
    [("blockTrackers", J_bool (blockTrackers c));
     ("upgradeHttps", J_bool (upgradeHttps c));
     ("sendDoNotTrack", J_bool (sendDoNotTrack c));
     ("sendGlobalPrivacyControl", J_bool (sendGlobalPrivacyControl c));
     ("blockThirdPartyCookies", J_bool (blockThirdPartyCookies c));
     ("blockFingerprintingPermissions", J_bool (blockFingerprintingPermissions c));
     ("clearDataOnExit", J_bool (clearDataOnExit c))].

Definition updateConfig_json (c : UpdateConfig) : json :=
  J_object
    [("autoCheck", J_bool (autoCheck c));
     ("autoDownload", J_bool (autoDownload c));
     ("allowPrerelease", J_bool (allowPrerelease c));
     ("feedURL", J_string (feedURL c));
     ("useGithubReleaseZip", J_bool (useGithubReleaseZip c));
     ("autoApplyGithubZip", J_bool (autoApplyGithubZip c))].

Definition githubUpdateMetadata_json (m : GitHubUpdateMetadata) : json :=
  J_object
    [("lastTag", J_string (lastTag m));
     ("filePath", J_string (filePath m));
     ("downloadedAt", J_number (downloadedAt m));
     ("sizeBytes", J_number (sizeBytes m));
     ("assetName", J_string (assetName m));
     ("releasePage", J_string (releasePage m));
     ("lastAppliedTag", J_string (lastAppliedTag m));
     ("appliedAt", J_number (appliedAt m))].

(** [sanitizeHistoryEntry] on an entry of the history, as [persistHistory]
    maps it: [Number(entry.visitedAt || Date.now())]. *)
Definition historyEntry_json (h : Host) (entry : HistoryEntry) : json :=
  J_object
    [("url", J_string (entry_url entry));
     ("title", J_string (title entry));
     ("visitedAt", J_number (if visitedAt entry =? 0 then now h else visitedAt entry))].

(** [sanitizeDownloadRecord] on a record of the download list. *)
Definition downloadRecord_json (h : Host) (record : DownloadRecord) : json :=
  J_object
    [("id", J_string (download_id record));
     ("filename", J_string (str_or (filename record) "unknown"));
     ("url", J_string (download_url record));
     ("state", J_string (str_or (download_state record) "progressing"));
     ("receivedBytes", J_number (receivedBytes record));
     ("totalBytes", J_number (totalBytes record));
     ("savePath", J_string (savePath record));
     ("startedAt",
      J_number (if download_startedAt record =? 0 then now h else download_startedAt record));
     ("endedAt",
      match endedAt record with
      | Some t => if t =? 0 then J_null else J_number t
      | None => J_null
      end)].

Definition history_json (h : Host) (entries : list HistoryEntry) : json :=
  J_object [("items", J_array (map (historyEntry_json h) entries))].

Definition downloads_json (h : Host) (records : list DownloadRecord) : json :=
  J_object [("items", J_array (map (downloadRecord_json h) records))].

Definition persistDownloads (h : Host) (w : World) (st : AppState) : AppState :=
  with_files
    (writeJsonFile h (faults w) (getDownloadsStorePath h) (downloads_json h (downloadItems st))
       (files st)) st.

Definition persistHistory (h : Host) (w : World) (st : AppState) : AppState :=
  with_files
    (writeJsonFile h (faults w) (getHistoryStorePath h) (history_json h (browsingHistory st))
       (files st)) st.

Definition persistPrivacyConfig (h : Host) (w : World) (st : AppState) : AppState :=
  with_files
    (writeJsonFile h (faults w) (getPrivacyStorePath h) (privacyConfig_json (privacyConfig st))
       (files st)) st.

Definition persistUpdateConfig (h : Host) (w : World) (st : AppState) : AppState :=
  with_files
    (writeJsonFile h (faults w) (getUpdateStorePath h) (updateConfig_json (updateConfig st))
       (files st)) st.

Definition persistGitHubUpdateMetadata (h : Host) (w : World) (st : AppState) : AppState :=
  with_files
    (writeJsonFile h (faults w) (getGitHubUpdateMetaStorePath h)
       (githubUpdateMetadata_json (githubUpdateMetadata st)) (files st)) st.

(** One property of the object literal handed to [setUpdateStatus]. *)
Inductive StatusField :=
| set_source (v : UpdateSource)
| set_status (v : UpdateState)
| set_message (v : string)
| set_availableVersion (v : option string)
| set_downloadedVersion (v : option string)
| set_updateFilePath (v : option string)
| set_releasePage (v : option string)
| set_progressPercent (v : Z)
| set_checkedAt (v : option Z)
| set_error (v : option string).

Definition merge_field (u : UpdateStatus) (f : StatusField) : UpdateStatus :=
  {| status := match f with set_status v => v | _ => status u end;
     message := match f with set_message v => v | _ => message u end;
     currentVersion := currentVersion u;
     source := match f with set_source v => v | _ => source u end;
     availableVersion := match f with set_availableVersion v => v | _ => availableVersion u end;
     downloadedVersion := match f with set_downloadedVersion v => v | _ => downloadedVersion u end;
     updateFilePath := match f with set_updateFilePath v => v | _ => updateFilePath u end;
     status_releasePage := match f with set_releasePage v => v | _ => status_releasePage u end;
     progressPercent := match f with set_progressPercent v => v | _ => progressPercent u end;
     checkedAt := match f with set_checkedAt v => v | _ => checkedAt u end;
     isPackaged := isPackaged u;
     error := match f with set_error v => v | _ => error u end;
     updatedAt := updatedAt u |}.

Definition stamp (h : Host) (u : UpdateStatus) : UpdateStatus :=
  {| status := status u; message := message u;
     currentVersion := appVersion h;
     source := source u; availableVersion := availableVersion u;
     downloadedVersion := downloadedVersion u; updateFilePath := updateFilePath u;
     status_releasePage := status_releasePage u; progressPercent := progressPercent u;
     checkedAt := checkedAt u;
     isPackaged := appIsPackaged h;
     error := error u;
     updatedAt := now h |}.

Definition setUpdateStatus (h : Host) (patch : list StatusField) (st : AppState) : AppState :=
  with_updateStatus (stamp h (fold_left merge_field patch (updateStatus st))) st.

(** A truthy string, or [null]. *)
Definition truthy (s : string) : option string := if is_empty s then None else Some s.

Definition getErrorMessage (reason : string) : string :=
  if is_empty (trim reason) then "{}" else reason.

Definition fetchLatestGitHubRelease (h : Host) (w : World) (st : AppState)
    : AppState * (string + option Release) :=
  if negb (fetch_available h) then (st, inl "This runtime does not provide fetch() support.")
  else
    let st1 := with_requests_sent (requests_sent st ++ [resolveGitHubReleasesApiURL h]) st in
    match releases_fetch w with
    | ReleasesRejected reason => (st1, inl reason)
    | ReleasesResponse ok status_code payload =>
        if negb ok then
          (st1, inl ("GitHub releases request failed (" +:+ pretty status_code +:+ ")."))
        else
          match payload with
          | NotJson reason => (st1, inl reason)
          | NotAnArray => (st1, inr (select_latest h (updateConfig st1) []))
          | ReleaseArray items => (st1, inr (select_latest h (updateConfig st1) items))
          end
    end.

(** ** Artifact fetcher *)

(** [pipeline(body, fs.createWriteStream(tempPath))]: the file is created
    or truncated, then receives the chunks in order until the body ends,
    the body fails, or a write fails. *)
Definition pipeline (flt : FsFaults) (b : Body) (tempPath : string) (fs : gmap string string)
    : gmap string string * option string :=
  match write_fails_after flt with
  | Some k =>
      if Nat.ltb k (length (chunks b)) then
        (<[tempPath := String.concat "" (take k (chunks b))]> fs, Some "write failed")
      else (<[tempPath := String.concat "" (chunks b)]> fs, stream_error b)
  | None => (<[tempPath := String.concat "" (chunks b)]> fs, stream_error b)
  end.

Definition renameSync (oldPath newPath : string) (fs : gmap string string) : gmap string string :=
  match fs !! oldPath with
  | Some data => <[newPath := data]> (delete oldPath fs)
  | None => fs
  end.

Definition existsSync (p : string) (fs : gmap string string) : bool :=
  bool_decide (is_Some (fs !! p)).

Record DownloadResult := {
  result_filePath : string;
  result_sizeBytes : Z
}.

Definition downloadGitHubAssetToPath (h : Host) (w : World) (assetURL targetPath : string)
    (st : AppState) : AppState * (string + DownloadResult) :=
  if negb (fetch_available h) then (st, inl "This runtime does not provide fetch() support.")
  else
    let st1 := with_requests_sent (requests_sent st ++ [assetURL]) st in
    match asset_fetch w assetURL with
    | AssetRejected reason => (st1, inl reason)
    | AssetResponse ok status_code body =>
        if negb ok then
          (st1, inl ("GitHub asset download failed (" +:+ pretty status_code +:+ ")."))
        else
          match body with
          | None => (st1, inl "GitHub asset download returned an empty response body.")
          | Some stream =>
              if mkdir_fails (faults w) then (st1, inl "mkdir failed")
              else
                let tempPath := targetPath +:+ ".download" in
                let '(fs1, piped) := pipeline (faults w) stream tempPath (files st1) in
                let '(fs2, thrown) :=
                  match piped with
                  | Some reason => (fs1, Some reason)
                  | None =>
                      if rename_fails (faults w) then (fs1, Some "rename failed")
                      else (renameSync tempPath targetPath fs1, None)
                  end in
                match thrown with
                | Some reason =>
                    let fs3 :=
                      if existsSync tempPath fs2 then
                        (if unlink_fails (faults w) then fs2 else delete tempPath fs2)
                      else fs2 in
                    (with_files fs3 st1, inl reason)
                | None =>
                    let st2 := with_files fs2 st1 in
                    if stat_fails (faults w) then (st2, inl "stat failed")
                    else
                    match fs2 !! targetPath with
                    | None => (st2, inl "stat failed")
                    | Some data =>
                        (st2, inr {| result_filePath := targetPath;
                                     result_sizeBytes := Z.of_nat (String.length data) |})
                    end
                end
          end
    end.

(** ** Archive installer *)

Fixpoint is_prefix_chars (pre s : list ascii) : bool :=
  match pre, s with
  | [], _ => true
  | a :: pre', b :: s' => Ascii.eqb a b && is_prefix_chars pre' s'
  | _ :: _, [] => false
  end.

Fixpoint includes_chars (s sub : list ascii) : bool :=
  is_prefix_chars sub s
  || match s with
     | [] => false
     | _ :: s' => includes_chars s' sub
     end.

Definition includes (s sub : string) : bool := includes_chars (chars s) (chars sub).

Definition basename (p : string) : string :=
  List.last (filter (fun seg => seg <> "") (segments p)) "".

(** [path.extname]: from the last dot of the base name on, unless that
    dot is its first character. *)
Fixpoint extname_chars (s ext : list ascii) (seen : bool) : list ascii :=
  match s with
  | [] => if seen then rev ext else []
  | c :: s' =>
      if Ascii.eqb c "."%char then extname_chars s' ["."%char] true
      else extname_chars s' (c :: ext) seen
  end.

Definition extname (p : string) : string :=
  match chars (basename p) with
  | [] => ""
  | c :: rest => unchars (extname_chars rest [] false)
  end.

Definition scoreLauncherCandidate (filePath_ : string) : Z :=
  let name_ := toLowerCase (basename filePath_) in
  if includes name_ "uninstall" then -100
  else
    let score :=
      (if includes name_ "setup" then 60 else 0)
      + (if includes name_ "installer" then 50 else 0)
      + (if includes name_ "update" then 40 else 0)
      + (if includes name_ "portable" then 30 else 0)
      + (if includes name_ "bastion" then 20 else 0) in
    let ext := extname name_ in
    if String.eqb ext ".exe" then score + 25
    else if String.eqb ext ".cmd" || String.eqb ext ".bat" then score + 10
    else score - 10.

Definition pickUpdateLauncherFromExtractedFiles (extracted : list string) : option string :=
  let candidates :=
    filter (fun filePath_ =>
              let ext := toLowerCase (extname filePath_) in
              (String.eqb ext ".exe" || String.eqb ext ".cmd" || String.eqb ext ".bat") = true)
      extracted in
  head (array_sort
          (fun left right =>
             let scoreDiff := scoreLauncherCandidate right - scoreLauncherCandidate left in
             if negb (scoreDiff =? 0) then scoreDiff
             else Z.of_nat (String.length left) - Z.of_nat (String.length right))
          candidates).

Record ApplyOptions := {
  apply_manual : bool;
  apply_tag : option string;          (* None: the caller leaves the property out *)
  apply_zipPath : option string;
  apply_releasePage : option string
}.

Inductive ApplyResult :=
| ApplyFailed (reason : string)                        (* { ok: false, error } *)
| ApplySkipped (tag : string)                          (* { ok: true, skipped: true, reason: "already-applied", tag } *)
| Applied (tag launcherPath : string) (stagedPath : path).  (* { ok: true, tag, launcherPath, stagedPath } *)

Definition applyGitHubReleaseZipUpdate (h : Host) (w : World) (options : ApplyOptions)
    (st : AppState) : AppState * ApplyResult :=
  let meta := githubUpdateMetadata st in
  let tag := trim (default (lastTag meta) (apply_tag options)) in
  let zipPath := trim (default (filePath meta) (apply_zipPath options)) in
  let releasePage_ := trim (default (releasePage meta) (apply_releasePage options)) in
  if negb (String.eqb (platform h) "win32") then
    (st, ApplyFailed "Automatic ZIP apply is currently implemented for Windows only.")
  else if is_empty zipPath || negb (existsSync zipPath (files st)) then
    (st, ApplyFailed "No downloaded update.zip was found to apply.")
  else if negb (apply_manual options) && negb (is_empty tag)
          && String.eqb (lastAppliedTag meta) tag then
    (st, ApplySkipped tag)
  else
    let stageDir := resolveGitHubUpdateStagingDir h (str_or tag "latest") in
    let st1 :=
      setUpdateStatus h
        [set_source github_release_zip;
         set_status installing;
         set_message ("Applying " +:+ basename zipPath +:+ "...");
         set_availableVersion
           (if is_empty tag then availableVersion (updateStatus st)
            else Some (str_or (normalizeVersionFromTag tag) tag));
         set_updateFilePath (Some zipPath);
         set_releasePage
           (if is_empty releasePage_ then status_releasePage (updateStatus st)
            else Some releasePage_);
         set_progressPercent 100;
         set_checkedAt (Some (now h));
         set_error None] st in
    let fail reason :=
      (setUpdateStatus h
         [set_source github_release_zip;
          set_status status_error;
          set_message "Failed to apply downloaded update.zip.";
          set_updateFilePath (Some zipPath);
          set_releasePage
            (if is_empty releasePage_ then status_releasePage (updateStatus st1)
             else Some releasePage_);
          set_checkedAt (Some (now h));
          set_error (Some (getErrorMessage reason))] st1,
       ApplyFailed (getErrorMessage reason)) in
    match extracted_files w with
    | None => fail "Expand-Archive failed."
    | Some extractedFiles =>
        match pickUpdateLauncherFromExtractedFiles extractedFiles with
        | None => fail "No launcher executable (.exe/.cmd/.bat) found in update.zip."
        | Some launcherPath =>
            if is_empty launcherPath then
              fail "No launcher executable (.exe/.cmd/.bat) found in update.zip."
            else
              let st2 := with_launch launcherPath st1 in
              let meta2 :=
                {| lastTag := lastTag meta; filePath := filePath meta;
                   downloadedAt := downloadedAt meta; sizeBytes := sizeBytes meta;
                   assetName := assetName meta;
                   releasePage := str_or releasePage_ (releasePage meta);
                   lastAppliedTag := tag;
                   appliedAt := now h |} in
              let st3 := persistGitHubUpdateMetadata h w (with_githubUpdateMetadata meta2 st2) in
              let st4 :=
                setUpdateStatus h
                  [set_source github_release_zip;
                   set_status installing;
                   set_message ("Launching updater: " +:+ basename launcherPath);
                   set_updateFilePath (Some zipPath);
                   set_releasePage
                     (if is_empty releasePage_ then status_releasePage (updateStatus st3)
                      else Some releasePage_);
                   set_error None] st3 in
              (with_quit_scheduled st4, Applied tag launcherPath stageDir)
        end
    end.

(** ** Update orchestrator *)

Record CheckOptions := {
  manual : bool;
  download : bool;
  forceDownload : bool
}.

Inductive CheckResult :=
| CheckFailed (reason : string)
    (* { ok: false, error } *)
| UpToDate (tag filePath_ : string)
    (* { ok: true, upToDate: true, tag, filePath } *)
| AlreadyDownloaded (alreadyApplied : bool) (tag filePath_ releasePage_ : string)
    (* { ok: true, alreadyDownloaded: true, alreadyApplied, tag, filePath, releasePage } *)
| UpdateAvailable (tag downloadURL releasePage_ : string)
    (* { ok: true, available: true, tag, downloadURL, releasePage } *)
| Downloaded (tag filePath_ : string) (sizeBytes_ : Z) (releasePage_ : string).
    (* { ok: true, downloaded: true, tag, filePath, sizeBytes, releasePage } *)

Definition checkGitHubReleaseZipUpdate (h : Host) (w : World) (opts : CheckOptions)
    (st : AppState) : AppState * CheckResult :=
  let assetName_ := resolveGitHubUpdateAssetName h in
  let tagsPageURL := resolveGitHubTagsPageURL h in
  let st1 :=
    setUpdateStatus h
      [set_source github_release_zip;
       set_status checking;
       set_message ("Checking GitHub release tags for " +:+ assetName_ +:+ "...");
       set_availableVersion None;
       set_downloadedVersion None;
       set_updateFilePath None;
       set_releasePage (Some tagsPageURL);
       set_progressPercent 0;
       set_checkedAt (Some (now h));
       set_error None] st in
  let '(st2, fetched) := fetchLatestGitHubRelease h w st1 in
  let no_tags :=
    (setUpdateStatus h
       [set_source github_release_zip;
        set_status idle;
        set_message "No GitHub release tags found.";
        set_checkedAt (Some (now h));
        set_error None] st2,
     CheckFailed "No GitHub release tags found.") in
  match fetched with
  | inl reason =>
      (setUpdateStatus h
         [set_source github_release_zip;
          set_status status_error;
          set_message "Failed to fetch GitHub release tags.";
          set_checkedAt (Some (now h));
          set_error (Some (getErrorMessage reason))] st2,
       CheckFailed (getErrorMessage reason))
  | inr None => no_tags
  | inr (Some release) =>
      if is_empty (tag_name release) then no_tags
      else
        let tag := trim (tag_name release) in
        let normalizedVersion := normalizeVersionFromTag tag in
        let normalizedCurrentVersion := normalizeVersionFromTag (appVersion h) in
        let releasePage_ := str_or (html_url release) tagsPageURL in
        let asset := findReleaseAsset release assetName_ in
        let latestParts := parseVersionParts normalizedVersion in
        let currentParts := parseVersionParts normalizedCurrentVersion in
        let meta := githubUpdateMetadata st2 in
        let shownVersion := Some (str_or normalizedVersion tag) in
        if Nat.ltb 0 (length latestParts) && Nat.ltb 0 (length currentParts)
           && (compareVersions normalizedVersion normalizedCurrentVersion <=? 0) then
          (setUpdateStatus h
             [set_source github_release_zip;
              set_status idle;
              set_message ("You are already on version " +:+ appVersion h +:+ ".");
              set_availableVersion shownVersion;
              set_downloadedVersion shownVersion;
              set_updateFilePath (truthy (filePath meta));
              set_releasePage (Some releasePage_);
              set_progressPercent 100;
              set_checkedAt (Some (now h));
              set_error None] st2,
           UpToDate tag (filePath meta))
        else
          let no_asset :=
            let message_ := "Latest tag " +:+ tag +:+ " has no " +:+ assetName_ +:+ " asset." in
            (setUpdateStatus h
               [set_source github_release_zip;
                set_status status_error;
                set_message message_;
                set_availableVersion shownVersion;
                set_checkedAt (Some (now h));
                set_releasePage (Some releasePage_);
                set_error (Some message_)] st2,
             CheckFailed message_) in
          match asset with
          | None => no_asset
          | Some asset_ =>
              if is_empty (browser_download_url asset_) then no_asset
              else
                let hasDownloadedFile :=
                  String.eqb (lastTag meta) tag
                  && negb (is_empty (filePath meta))
                  && existsSync (filePath meta) (files st2) in
                if hasDownloadedFile && negb (forceDownload opts) then
                  let alreadyApplied :=
                    negb (is_empty tag) && String.eqb (lastAppliedTag meta) tag in
                  (setUpdateStatus h
                     [set_source github_release_zip;
                      set_status (if alreadyApplied then idle else downloaded);
                      set_message
                        (if alreadyApplied
                         then "Latest tag " +:+ tag +:+ " is already applied."
                         else "Latest tag " +:+ tag +:+ " is already downloaded.");
                      set_availableVersion shownVersion;
                      set_downloadedVersion shownVersion;
                      set_updateFilePath (Some (filePath meta));
                      set_releasePage (Some releasePage_);
                      set_progressPercent 100;
                      set_checkedAt (Some (now h));
                      set_error None] st2,
                   AlreadyDownloaded alreadyApplied tag (filePath meta) releasePage_)
                else if negb (download opts) then
                  (setUpdateStatus h
                     [set_source github_release_zip;
                      set_status available;
                      set_message ("GitHub update " +:+ tag +:+ " is available.");
                      set_availableVersion shownVersion;
                      set_downloadedVersion None;
                      set_updateFilePath None;
                      set_releasePage (Some releasePage_);
                      set_progressPercent 0;
                      set_checkedAt (Some (now h));
                      set_error None] st2,
                   UpdateAvailable tag (browser_download_url asset_) releasePage_)
                else
                  let st3 :=
                    setUpdateStatus h
                      [set_source github_release_zip;
                       set_status downloading;
                       set_message ("Downloading " +:+ assetName_ +:+ " from " +:+ tag +:+ "...");
                       set_availableVersion shownVersion;
                       set_downloadedVersion None;
                       set_updateFilePath None;
                       set_releasePage (Some releasePage_);
                       set_progressPercent 0;
                       set_checkedAt (Some (now h));
                       set_error None] st2 in
                  let destinationPath := path_string (resolveGitHubUpdateTargetPath h tag) in
                  let '(st4, outcome) :=
                    downloadGitHubAssetToPath h w (browser_download_url asset_)
                      destinationPath st3 in
                  match outcome with
                  | inr result =>
                      let meta4 := githubUpdateMetadata st4 in
                      let st5 :=
                        persistGitHubUpdateMetadata h w
                          (with_githubUpdateMetadata
                             {| lastTag := tag;
                                filePath := result_filePath result;
                                downloadedAt := now h;
                                sizeBytes := result_sizeBytes result;
                                assetName := assetName_;
                                releasePage := releasePage_;
                                lastAppliedTag := lastAppliedTag meta4;
                                appliedAt := appliedAt meta4 |} st4) in
                      (setUpdateStatus h
                         [set_source github_release_zip;
                          set_status downloaded;
                          set_message ("Downloaded " +:+ assetName_ +:+ " from " +:+ tag +:+ ".");
                          set_availableVersion shownVersion;
                          set_downloadedVersion shownVersion;
                          set_updateFilePath (Some (result_filePath result));
                          set_releasePage (Some releasePage_);
                          set_progressPercent 100;
                          set_checkedAt (Some (now h));
                          set_error None] st5,
                       Downloaded tag (result_filePath result) (result_sizeBytes result)
                         releasePage_)
                  | inl reason =>
                      (setUpdateStatus h
                         [set_source github_release_zip;
                          set_status status_error;
                          set_message "Failed to download update.zip from GitHub.";
                          set_availableVersion shownVersion;
                          set_checkedAt (Some (now h));
                          set_releasePage (Some releasePage_);
                          set_error (Some (getErrorMessage reason))] st4,
                       CheckFailed (getErrorMessage reason))
                  end
          end
  end.

Inductive InstallResult :=
| InstallByArchive (r : ApplyResult)
| InstallFailed (reason : string)
| InstallStarted.

Definition installDownloadedUpdate (h : Host) (w : World) (st : AppState)
    : AppState * InstallResult :=
  let u := updateStatus st in
  let meta := githubUpdateMetadata st in
  match source u with
  | github_release_zip =>
      let '(st1, r) :=
        applyGitHubReleaseZipUpdate h w
          {| apply_manual := true;
             apply_tag := Some (str_or (lastTag meta) (default "" (availableVersion u)));
             apply_zipPath := Some (str_or (default "" (updateFilePath u)) (filePath meta));
             apply_releasePage :=
               Some (str_or (default "" (status_releasePage u)) (releasePage meta)) |} st in
      (st1, InstallByArchive r)
  | _ =>
      if negb (autoUpdater_available h) then
        (st, InstallFailed "Auto updater module unavailable.")
      else if negb (appIsPackaged h) then
        (st, InstallFailed "Updates can only be installed from packaged builds.")
      else
        match status u with
        | downloaded =>
            (with_quit_scheduled
               (setUpdateStatus h
                  [set_source electron_updater;
                   set_status installing;
                   set_message "Installing update and restarting..."] st),
             InstallStarted)
        | _ => (st, InstallFailed "No downloaded update is ready to install.")
        end
  end.

Definition sanitizeUpdateConfig (raw : gmap string jsval) : UpdateConfig := {|
  autoCheck := sanitizeBoolean (raw !! "autoCheck") (autoCheck DEFAULT_UPDATE_CONFIG);
  autoDownload := sanitizeBoolean (raw !! "autoDownload") (autoDownload DEFAULT_UPDATE_CONFIG);
  allowPrerelease :=
    sanitizeBoolean (raw !! "allowPrerelease") (allowPrerelease DEFAULT_UPDATE_CONFIG);
  feedURL := trim (sanitizeString (raw !! "feedURL") (feedURL DEFAULT_UPDATE_CONFIG));
  useGithubReleaseZip :=
    sanitizeBoolean (raw !! "useGithubReleaseZip") (useGithubReleaseZip DEFAULT_UPDATE_CONFIG);
  autoApplyGithubZip :=
    sanitizeBoolean (raw !! "autoApplyGithubZip") (autoApplyGithubZip DEFAULT_UPDATE_CONFIG)
|}.

Definition updateConfig_object (c : UpdateConfig) : gmap string jsval :=
  <["autoCheck" := VBool (autoCheck c)]>
  (<["autoDownload" := VBool (autoDownload c)]>
  (<["allowPrerelease" := VBool (allowPrerelease c)]>
  (<["feedURL" := VString (feedURL c)]>
  (<["useGithubReleaseZip" := VBool (useGithubReleaseZip c)]>
  (<["autoApplyGithubZip" := VBool (autoApplyGithubZip c)]> ∅))))).

Definition resolveUpdateFeedURL (h : Host) (c : UpdateConfig) : string :=
  str_or (trim (env_update_url h)) (feedURL c).

Definition applyUpdaterConfig (h : Host) (st : AppState) : AppState :=
  if negb (autoUpdater_available h) then st
  else
    let feedURL_ := resolveUpdateFeedURL h (updateConfig st) in
    if is_empty feedURL_ then st
    else
      match setFeedURL_error h feedURL_ with
      | Some reason =>
          setUpdateStatus h
            [set_status status_error;
             set_message "Invalid update feed URL.";
             set_error (Some (getErrorMessage reason))] st
      | None => st
      end.

Definition patchUpdateConfig (h : Host) (w : World) (patch : gmap string jsval) (st : AppState)
    : AppState :=
  let st1 := persistUpdateConfig h w
               (with_updateConfig
                  (sanitizeUpdateConfig (patch ∪ updateConfig_object (updateConfig st))) st) in
  let st2 := applyUpdaterConfig h st1 in
  if negb (autoUpdater_available h) && negb (useGithubReleaseZip (updateConfig st2)) then
    setUpdateStatus h
      [set_source source_none;
       set_status disabled;
       set_message "No updater backend is enabled.";
       set_updateFilePath None;
       set_error (Some "Enable GitHub release ZIP updater or install electron-updater backend.")]
      st2
  else st2.

(** ** Clearing data *)

Inductive ClearResult :=
| ClearFailed (reason : string)
| ClearOk (scope : string).

Definition clearDataByScope (h : Host) (w : World) (scope : string) (st : AppState)
    : AppState * ClearResult :=
  let value := toLowerCase (str_or scope "all") in
  if negb (set_has ["all"; "cache"; "cookies"; "storage"; "history"; "downloads"] value) then
    (st, ClearFailed "Unknown clear-data scope.")
  else
    let is_scope (s : string) := String.eqb value "all" || String.eqb value s in
    let ses := sessionData st in
    let ends := session_clears w in
    let ses' :=
      {| cache := if is_scope "cache" then settled_store (clearCache_ends ends) else cache ses;
         cookies :=
           if is_scope "cookies" then settled_store (clearCookies_ends ends) else cookies ses;
         authCache :=
           if is_scope "cookies" then settled_store (clearAuthCache_ends ends)
           else authCache ses;
         storage :=
           if is_scope "storage" then settled_store (clearStorage_ends ends)
           else storage ses |} in
    let st1 := with_sessionData ses' st in
    let st2 :=
      if is_scope "history" then persistHistory h w (with_browsingHistory [] st1) else st1 in
    let st3 :=
      if is_scope "downloads" then persistDownloads h w (with_downloadItems [] st2) else st2 in
    (st3, ClearOk value).

(** ** The operations the main process serves *)

Inductive Operation :=
| op_beforeRequest (details : RequestDetails)
| op_beforeSendHeaders (details : RequestDetails)
| op_permissionRequest (permission : string)
| op_permissionCheck (permission : string)
| op_patchPrivacyConfig (w : World) (patch : gmap string jsval)
| op_patchUpdateConfig (w : World) (patch : gmap string jsval)
| op_clearData (w : World) (scope : string)
| op_check (w : World) (opts : CheckOptions)
| op_apply (w : World) (options : ApplyOptions)
| op_install (w : World).

Definition run_operation (h : Host) (op : Operation) (st : AppState) : AppState :=
  match op with
  | op_beforeRequest details =>
      with_privacyStats
        (fst (onBeforeRequest h (privacyConfig st) details (privacyStats st))) st
  | op_beforeSendHeaders details =>
      with_privacyStats
        (fst (onBeforeSendHeaders h (privacyConfig st) details (privacyStats st))) st
  | op_permissionRequest permission =>
      with_privacyStats
        (fst (permissionRequestHandler (privacyConfig st) permission (privacyStats st))) st
  | op_permissionCheck permission => st
  | op_patchPrivacyConfig w patch =>
      persistPrivacyConfig h w
        (with_privacyConfig (patchPrivacyConfig patch (privacyConfig st)) st)
  | op_patchUpdateConfig w patch => patchUpdateConfig h w patch st
  | op_clearData w scope => fst (clearDataByScope h w scope st)
  | op_check w opts => fst (checkGitHubReleaseZipUpdate h w opts st)
  | op_apply w options => fst (applyGitHubReleaseZipUpdate h w options st)
  | op_install w => fst (installDownloadedUpdate h w st)
  end.

Definition run_operations (h : Host) (ops : list Operation) (st : AppState) : AppState :=
  fold_left (fun acc op => run_operation h op acc) ops st.

Definition initial_state (h : Host) : AppState := {|
  privacyConfig := DEFAULT_PRIVACY_CONFIG;
  privacyStats := createEmptyPrivacyStats h;
  updateConfig := DEFAULT_UPDATE_CONFIG;
  updateStatus := createInitialUpdateStatus h;
  githubUpdateMetadata := createInitialGitHubUpdateMetadata;
  browsingHistory := [];
  downloadItems := [];
  sessionData := {| cache := []; cookies := []; authCache := []; storage := [] |};
  files := ∅;
  requests_sent := [];
  launched := [];
  quit_scheduled := false
|}.

(** The timestamps the examples use. *)
Definition demo_Date_parse (s : string) : option Z :=
  if String.eqb s "2024-01-02T00:00:00Z" then Some 1704153600000
  else if String.eqb s "2024-02-03T00:00:00Z" then Some 1706918400000
  else if String.eqb s "2024-03-04T00:00:00Z" then Some 1709510400000
  else if String.eqb s "1969-12-31T23:59:59.999Z" then Some (-1)
  else None.

(** A URL reader for the examples: [scheme://host], then an optional port
    and path.  It covers the URLs the examples use, nothing more. *)
Fixpoint take_until (stop : ascii -> bool) (s : list ascii) : list ascii :=
  match s with
  | [] => []
  | c :: s' => if stop c then [] else c :: take_until stop s'
  end.

Fixpoint after_scheme (s : list ascii) : option (list ascii) :=
  match s with
  | ":"%char :: "/"%char :: "/"%char :: rest => Some rest
  | c :: s' => if is_lower c || is_upper c then after_scheme s' else None
  | [] => None
  end.

Definition simple_URL (input : string) : option UrlObject :=
  let cs := chars input in
  match after_scheme cs with
  | None => None
  | Some rest =>
      let scheme := take_until (fun c => Ascii.eqb c ":"%char) cs in
      let host := take_until (fun c => Ascii.eqb c "/"%char || Ascii.eqb c ":"%char
                                       || Ascii.eqb c "?"%char || Ascii.eqb c "#"%char) rest in
      if nonempty scheme && nonempty host
      then Some {| protocol := toLowerCase (unchars scheme) +:+ ":";
                   hostname := toLowerCase (unchars host) |}
      else None
  end.

(** [JSON.stringify(value, null, 2)] for the examples. *)
Definition json_escape_char (c : ascii) : list ascii :=
  let hex (n : nat) : ascii := ascii_of_nat (if Nat.ltb n 10 then 48 + n else 87 + n) in
  if Nat.eqb (code c) 34 then ["\"%char; c]
  else if Nat.eqb (code c) 92 then ["\"%char; c]
  else if Nat.eqb (code c) 8 then ["\"%char; "b"%char]
  else if Nat.eqb (code c) 9 then ["\"%char; "t"%char]
  else if Nat.eqb (code c) 10 then ["\"%char; "n"%char]
  else if Nat.eqb (code c) 12 then ["\"%char; "f"%char]
  else if Nat.eqb (code c) 13 then ["\"%char; "r"%char]
  else if Nat.ltb (code c) 32 then
    ["\"%char; "u"%char; "0"%char; "0"%char; hex (Nat.div (code c) 16);
     hex (Nat.modulo (code c) 16)]
  else [c].

Definition json_quote (s : string) : string :=
  let quote := String (ascii_of_nat 34) "" in
  quote +:+ unchars (flat_map json_escape_char (chars s)) +:+ quote.

Definition newline : string := String (ascii_of_nat 10) "".

Fixpoint demo_JSON_stringify_at (indent : string) (value : json) : string :=
  let inner := indent +:+ "  " in
  match value with
  | J_null => "null"
  | J_bool b => if b then "true" else "false"
  | J_number n => pretty n
  | J_string s => json_quote s
  | J_array [] => "[]"
  | J_array items =>
      "[" +:+ newline
      +:+ String.concat ("," +:+ newline)
            (map (fun item => inner +:+ demo_JSON_stringify_at inner item) items)
      +:+ newline +:+ indent +:+ "]"
  | J_object [] => "{}"
  | J_object properties =>
      "{" +:+ newline
      +:+ String.concat ("," +:+ newline)
            (map (fun property =>
                    inner +:+ json_quote (fst property) +:+ ": "
                    +:+ demo_JSON_stringify_at inner (snd property)) properties)
      +:+ newline +:+ indent +:+ "}"
  end.

Definition demo_JSON_stringify (value : json) : string := demo_JSON_stringify_at "" value.

Definition demo_host : Host := {|
  appVersion := "1.2.0"; appIsPackaged := true; platform := "win32";
  userData := ["Users"; "me"; "AppData"; "Roaming"; "bastion-browser"];
  env_releases_api_url := ""; env_releases_tags_url := ""; env_update_asset_name := "";
  env_update_url := ""; fetch_available := true; autoUpdater_available := false;
  setFeedURL_error := fun _ => None; now := 1700000000000;
  Date_parse := demo_Date_parse; URL_parse := simple_URL;
  JSON_stringify := demo_JSON_stringify |}.

(** ** Vocabulary of the statements *)

(** The maximal runs of digits of a string, in order: what is left of it
    once it is split on every run of non-digits. *)
Fixpoint digit_runs_from (s cur : list ascii) : list (list ascii) :=
  match s with
  | [] => if nonempty cur then [rev cur] else []
  | c :: s' =>
      if is_digit c then digit_runs_from s' (c :: cur)
      else (if nonempty cur then [rev cur] else []) ++ digit_runs_from s' []
  end.

Definition digit_runs (s : string) : list (list ascii) := digit_runs_from (chars s) [].


(** A segment that [path.join] keeps as it is. *)
Definition plain_segment (seg : string) : Prop :=
  seg <> "" /\ seg <> "." /\ seg <> "..".

Definition normalized (p : path) : Prop := Forall plain_segment p.

(** The value of the first header whose name matches [name], case
    ignored. *)
Definition header_value (headers : list (string * string)) (name : string) : option string :=
  snd <$> find (fun kv => String.eqb (toLowerCase (fst kv)) (toLowerCase name)) headers.

(** The two capability lists as the specification gives them, name by
    name. *)
Definition allow_listed (capability : string) : Prop :=
  capability = "fullscreen" \/ capability = "notifications"
  \/ capability = "clipboard-read" \/ capability = "media".

Definition fingerprinting_risk (capability : string) : Prop :=
  capability = "idle-detection" \/ capability = "window-management"
  \/ capability = "display-capture" \/ capability = "midi"
  \/ capability = "midiSysex" \/ capability = "midi-sysex"
  \/ capability = "pointerLock" \/ capability = "background-sync"
  \/ capability = "payment-handler" \/ capability = "speaker-selection".

(** The permission decision as the specification words it, over the
    specification's own lists. *)
Definition decide_permission (blockFingerprinting : bool) (capability : string) : bool :=
  if blockFingerprinting
     && set_has ["idle-detection"; "window-management"; "display-capture"; "midi";
                 "midiSysex"; "midi-sysex"; "pointerLock"; "background-sync";
                 "payment-handler"; "speaker-selection"] capability
  then false
  else set_has ["fullscreen"; "notifications"; "clipboard-read"; "media"] capability.

(** A counter stays or grows by one. *)
Definition counter_step (before after : Z) : Prop :=
  after = before \/ after = before + 1.

Definition counters_step (s s' : PrivacyStats) : Prop :=
  counter_step (blockedRequests s) (blockedRequests s')
  /\ counter_step (upgradedToHttps s) (upgradedToHttps s')
  /\ counter_step (strippedCookieHeaders s) (strippedCookieHeaders s')
  /\ counter_step (blockedPermissions s) (blockedPermissions s').

Definition counters_le (s s' : PrivacyStats) : Prop :=
  blockedRequests s <= blockedRequests s'
  /\ upgradedToHttps s <= upgradedToHttps s'
  /\ strippedCookieHeaders s <= strippedCookieHeaders s'
  /\ blockedPermissions s <= blockedPermissions s'.

Definition tracker_request : RequestDetails := {|
  url := "http://doubleclick.net/x";
  resourceType := "script";
  initiator := Some "https://a.com";
  requestHeaders := []
|}.

Definition cross_site_request : RequestDetails := {|
  url := "https://b.com/beacon";
  resourceType := "xhr";
  initiator := Some "https://a.com";
  requestHeaders := [("Cookie", "sid=1"); ("Referer", "https://a.com/page")]
|}.

Definition same_site_request : RequestDetails := {|
  url := "https://a.com/api";
  resourceType := "xhr";
  initiator := Some "https://a.com";
  requestHeaders := [("Cookie", "sid=1"); ("Referer", "https://a.com/page")]
|}.

(** The patch the settings page sends when its Referer box is ticked. *)
Definition referer_patch : gmap string jsval :=
  <["stripThirdPartyReferer" := VBool true]> ∅.

(** The releases a check chooses among, as the specification words it:
    drafts go, prereleases go unless allowed, and when that leaves
    nothing the prereleases come back. *)
Definition selection_pool (c : UpdateConfig) (releases : list (option Release)) : list Release :=
  let published := filter (fun r => draft r = false) (omap id releases) in
  let stable := filter (fun r => prerelease r = false) published in
  if allowPrerelease c then published
  else if nonempty stable then stable else published.

(** The timestamp of a release as the specification words it: the time
    its published timestamp names, or for a release without one the time
    its created timestamp names (the field is read under both of its
    spellings, [created_at] first); a text that names no time counts as
    the epoch, 0. *)
Definition timestamp_text (r : Release) : string :=
  match published_at r, created_at r with
  | String _ _ as published, _ => published
  | EmptyString, String _ _ as created => created
  | EmptyString, EmptyString => createdAt r
  end.

Definition timestamp (h : Host) (r : Release) : Z :=
  match Date_parse h (timestamp_text r) with
  | Some time => time
  | None => 0
  end.

(** [result] is the first release of [pool] with the latest timestamp, or
    nothing when [pool] is empty. *)
Definition newest_first (h : Host) (pool : list Release) (result : option Release) : Prop :=
  match result with
  | None => pool = []
  | Some r =>
      exists before after,
        pool = before ++ r :: after
        /\ Forall (fun x => timestamp h x < timestamp h r) before
        /\ Forall (fun x => timestamp h x <= timestamp h r) after
  end.

Definition newest_to_oldest (h : Host) (l : list Release) : Prop :=
  StronglySorted (fun a b => timestamp h b <= timestamp h a) l.

Definition demo_release (tag : string) (is_draft is_prerelease : bool) (published : string)
    : Release := {|
  tag_name := tag;
  draft := is_draft;
  prerelease := is_prerelease;
  published_at := published;
  created_at := "";
  createdAt := "";
  html_url := "https://github.com/Zombiegoblin4/Bastion-Browser/releases/tag/" +:+ tag;
  assets := [{| name := "update.zip";
                browser_download_url := "https://example.invalid/" +:+ tag +:+ "/update.zip" |}]
|}.

Definition demo_releases : list (option Release) :=
  [Some (demo_release "v1.1.0" false false "2024-01-02T00:00:00Z");
   None;
   Some (demo_release "v1.4.0" true false "2024-03-04T00:00:00Z");
   Some (demo_release "v1.3.0" false false "2024-02-03T00:00:00Z");
   Some (demo_release "v1.5.0-rc" false true "2024-03-04T00:00:00Z");
   Some (demo_release "v0.9.0" false false "not a date")].

Definition demo_world : World := {|
  releases_fetch := ReleasesResponse true 200 (ReleaseArray demo_releases);
  asset_fetch := fun _ =>
    AssetResponse true 200 (Some {| chunks := ["PK"; "payload"]; stream_error := None |});
  faults := no_faults;
  extracted_files := Some ["stage/readme.txt"; "stage/Bastion-Setup.exe"; "stage/uninstall.exe"];
  session_clears := session_clears_done
|}.

(** Releases that carry their time in different fields: the first has a
    published time in January and a created time in March, the second a
    [created_at] in February and a [createdAt] in March, the third only
    a [createdAt] in March, the fourth no time at all, the last one a
    published time one millisecond before the epoch. *)
Definition dated_release (tag published created created_alt : string) : Release := {|
  tag_name := tag;
  draft := false;
  prerelease := false;
  published_at := published;
  created_at := created;
  createdAt := created_alt;
  html_url := "https://github.com/Zombiegoblin4/Bastion-Browser/releases/tag/" +:+ tag;
  assets := []
|}.

Definition dated_releases : list (option Release) :=
  [Some (dated_release "published-in-january" "2024-01-02T00:00:00Z" "2024-03-04T00:00:00Z" "");
   Some (dated_release "created-in-february" "" "2024-02-03T00:00:00Z" "2024-03-04T00:00:00Z");
   Some (dated_release "created-in-march" "" "" "2024-03-04T00:00:00Z");
   Some (dated_release "undated" "" "" "");
   Some (dated_release "before-the-epoch" "1969-12-31T23:59:59.999Z" "" "")].

Definition world_dated : World := {|
  releases_fetch := ReleasesResponse true 200 (ReleaseArray dated_releases);
  asset_fetch := fun _ => AssetRejected "unreachable";
  faults := no_faults;
  extracted_files := None;
  session_clears := session_clears_done
|}.

(** A release from before the epoch listed ahead of one whose time is no
    date. *)
Definition epoch_releases : list (option Release) :=
  [Some (dated_release "before-the-epoch" "1969-12-31T23:59:59.999Z" "" "");
   Some (dated_release "unreadable" "not a date" "2024-03-04T00:00:00Z" "")].

Definition world_epoch : World := {|
  releases_fetch := ReleasesResponse true 200 (ReleaseArray epoch_releases);
  asset_fetch := fun _ => AssetRejected "unreachable";
  faults := no_faults;
  extracted_files := None;
  session_clears := session_clears_done
|}.


Definition demo_target : string := path_string (resolveGitHubUpdateTargetPath demo_host "v1.3.0").



(** The versions a check compares. *)
Definition remote_version (release : Release) : string :=
  normalizeVersionFromTag (trim (tag_name release)).

Definition current_version (h : Host) : string :=
  normalizeVersionFromTag (appVersion h).

(** What [fetchLatestGitHubRelease] returns under configuration [c]. *)
Definition release_answer (h : Host) (w : World) (c : UpdateConfig) : string + option Release :=
  snd (fetchLatestGitHubRelease h w (with_updateConfig c (initial_state h))).

(** The release index lists the running version as its latest release. *)
Definition world_same_version : World := {|
  releases_fetch :=
    ReleasesResponse true 200
      (ReleaseArray [Some (demo_release "v1.2.0" false false "2024-01-02T00:00:00Z")]);
  asset_fetch := fun _ => AssetRejected "unreachable";
  faults := no_faults;
  extracted_files := None;
  session_clears := session_clears_done
|}.

Definition check_and_download : CheckOptions :=
  {| manual := false; download := true; forceDownload := false |}.

(** "The remote tag is recorded as both availableVersion and
    downloadedVersion", for a check that finds the running version up to
    date: the claim as the specification words it. *)
Definition up_to_date_records_tag (h : Host) (w : World) (opts : CheckOptions)
    (st : AppState) : Prop :=
  forall release,
    release_answer h w (updateConfig st) = inr (Some release) ->
    tag_name release <> "" ->
    parseVersionParts (remote_version release) <> [] ->
    parseVersionParts (current_version h) <> [] ->
    0 <= compareVersions (current_version h) (remote_version release) ->
    let result := checkGitHubReleaseZipUpdate h w opts st in
    availableVersion (updateStatus (fst result)) = Some (trim (tag_name release))
    /\ downloadedVersion (updateStatus (fst result)) = Some (trim (tag_name release)).

(** The test that ends a check as "already up to date". *)
Definition already_current (h : Host) (release : Release) : bool :=
  Nat.ltb 0 (length (parseVersionParts (remote_version release)))
  && Nat.ltb 0 (length (parseVersionParts (current_version h)))
  && (compareVersions (remote_version release) (current_version h) <=? 0).

(** "applyGitHubReleaseZipUpdate called non-manually for a tag equal to
    lastAppliedTag is a no-op success." *)
Definition repeated_apply_is_noop_success (h : Host) (w : World) (options : ApplyOptions)
    (st : AppState) : Prop :=
  apply_manual options = false ->
  trim (default (lastTag (githubUpdateMetadata st)) (apply_tag options))
  = lastAppliedTag (githubUpdateMetadata st) ->
  applyGitHubReleaseZipUpdate h w options st
  = (st, ApplySkipped (lastAppliedTag (githubUpdateMetadata st))).

Definition state_after_download : AppState :=
  fst (checkGitHubReleaseZipUpdate demo_host demo_world check_and_download
         (initial_state demo_host)).

Definition state_after_install : AppState :=
  fst (installDownloadedUpdate demo_host demo_world state_after_download).

(** The applied archive has since been removed from disk. *)
Definition state_archive_removed : AppState := with_files ∅ state_after_install.

Definition apply_again : ApplyOptions := {|
  apply_manual := false;
  apply_tag := Some "v1.3.0";
  apply_zipPath := None;
  apply_releasePage := None
|}.





Definition linux_host : Host := {|
  appVersion := appVersion demo_host; appIsPackaged := appIsPackaged demo_host;
  platform := "linux";
  userData := userData demo_host;
  env_releases_api_url := ""; env_releases_tags_url := ""; env_update_asset_name := "";
  env_update_url := ""; fetch_available := true; autoUpdater_available := false;
  setFeedURL_error := fun _ => None; now := now demo_host;
  Date_parse := demo_Date_parse; URL_parse := simple_URL;
  JSON_stringify := demo_JSON_stringify |}.

(** A non-manual apply whose tag is blank, as is [lastAppliedTag] before
    anything was applied. *)
Definition apply_untagged : ApplyOptions := {|
  apply_manual := false;
  apply_tag := Some " ";
  apply_zipPath := None;
  apply_releasePage := None
|}.

(** ** Vocabulary of the further properties *)

(** No two header names are equal once case is ignored. *)
Definition names_unique (headers : list (string * string)) : Prop :=
  NoDup (map (fun kv => toLowerCase (fst kv)) headers).

Definition unparseable_request : RequestDetails := {|
  url := "doubleclick.net without a scheme";
  resourceType := "script";
  initiator := None;
  requestHeaders := []
|}.

Definition plain_http_request : RequestDetails := {|
  url := "HTTP://example.com/page";
  resourceType := "mainFrame";
  initiator := None;
  requestHeaders := []
|}.

Definition tracker_navigation : RequestDetails := {|
  url := "https://doubleclick.net/landing";
  resourceType := "mainFrame";
  initiator := Some "https://a.com";
  requestHeaders := []
|}.

Definition all_off : PrivacyConfig := {|
  blockTrackers := false;
  upgradeHttps := false;
  sendDoNotTrack := false;
  sendGlobalPrivacyControl := false;
  blockThirdPartyCookies := false;
  blockFingerprintingPermissions := false;
  clearDataOnExit := false
|}.

Definition present (value : option string) : bool :=
  match value with Some _ => true | None => false end.

Definition beacon_without_initiator : RequestDetails := {|
  url := "https://stats.doubleclick.net/collect";
  resourceType := "ping";
  initiator := None;
  requestHeaders := [("cookie", "sid=1"); ("Accept", "*/*")]
|}.

Definition mixed_case_request : RequestDetails := {|
  url := "https://b.com/beacon";
  resourceType := "xhr";
  initiator := Some "https://a.com";
  requestHeaders := [("dnt", "0"); ("COOKIE", "sid=1"); ("User-Agent", "Bastion")]
|}.

(** How one flag comes out of a patch: a boolean in the patch wins, any
    other value in the patch gives the fallback, no value keeps the
    current one. *)
Definition patched_flag (value : option jsval) (current fallback : bool) : bool :=
  match value with
  | Some (VBool b) => b
  | Some _ => fallback
  | None => current
  end.

Definition backend_off_patch : gmap string jsval :=
  <["useGithubReleaseZip" := VBool false]> ∅.

(** A check has settled when its status is none of the transient ones. *)
Definition settled (s : UpdateState) : bool :=
  match s with
  | idle | available | downloaded | status_error => true
  | checking | downloading | installing | disabled => false
  end.

Definition check_only : CheckOptions :=
  {| manual := true; download := false; forceDownload := false |}.

(** The release index answers 503. *)
Definition world_index_down : World := {|
  releases_fetch := ReleasesResponse false 503 NotAnArray;
  asset_fetch := fun _ => AssetRejected "unreachable";
  faults := no_faults;
  extracted_files := None;
  session_clears := session_clears_done
|}.

(** The latest release carries no archive. *)
Definition world_without_asset : World := {|
  releases_fetch :=
    ReleasesResponse true 200
      (ReleaseArray
         [Some {| tag_name := "v1.3.0"; draft := false; prerelease := false;
                  published_at := "2024-02-03T00:00:00Z"; created_at := ""; createdAt := "";
                  html_url := "";
                  assets := [{| name := "notes.txt";
                                browser_download_url := "https://example.invalid/notes.txt" |}] |}]);
  asset_fetch := fun _ => AssetRejected "unreachable";
  faults := no_faults;
  extracted_files := None;
  session_clears := session_clears_done
|}.

(** A file that can be launched: its extension, case ignored, is [.exe],
    [.cmd] or [.bat]. *)
Definition is_launcher (filePath_ : string) : bool :=
  let ext := toLowerCase (extname filePath_) in
  String.eqb ext ".exe" || String.eqb ext ".cmd" || String.eqb ext ".bat".

(** [better a b]: [a] is at least as good a launcher as [b], by score
    first and by shorter path second. *)
Definition better (a b : string) : Prop :=
  scoreLauncherCandidate b < scoreLauncherCandidate a
  \/ (scoreLauncherCandidate b = scoreLauncherCandidate a
      /\ (String.length a <= String.length b)%nat).

(** The archive holds nothing that can be launched. *)
Definition world_without_launcher : World := {|
  releases_fetch := ReleasesResponse true 200 (ReleaseArray demo_releases);
  asset_fetch := fun _ => AssetRejected "unreachable";
  faults := no_faults;
  extracted_files := Some ["stage/readme.txt"; "stage/update-manifest.json"];
  session_clears := session_clears_done
|}.

(** The comparator handed to [sort] by [pickUpdateLauncherFromExtractedFiles]. *)
Definition launcher_order (left right : string) : Z :=
  let scoreDiff := scoreLauncherCandidate right - scoreLauncherCandidate left in
  if negb (scoreDiff =? 0) then scoreDiff
  else Z.of_nat (String.length left) - Z.of_nat (String.length right).

(** The file is an uninstaller by its name. *)
Definition is_uninstaller (filePath_ : string) : bool :=
  includes (toLowerCase (basename filePath_)) "uninstall".

(** A version read as an infinite sequence: past its end it holds zeros. *)
Definition head0 (l : list Z) : Z := match l with [] => 0 | x :: _ => x end.

(** ** Start-up

    The update part of the [app.whenReady] handler.  With the archive
    backend switched off the handler calls [checkForUpdates(false)] of the
    electron-updater module, which is outside this development: it is the
    parameter [checkForUpdates]. *)
Definition startup_update (checkForUpdates : AppState -> AppState) (h : Host) (w : World)
    (st : AppState) : AppState :=
  if negb (autoCheck (updateConfig st)) then st
  else if negb (useGithubReleaseZip (updateConfig st)) then checkForUpdates st
  else
    let '(st1, result) :=
      checkGitHubReleaseZipUpdate h w
        {| manual := false; download := true; forceDownload := false |} st in
    if negb (autoApplyGithubZip (updateConfig st1)) || negb (appIsPackaged h) then st1
    else
      let apply_result (tag_ filePath_ releasePage_ : string) : AppState :=
        let zipPath := trim filePath_ in
        let tag := trim tag_ in
        if is_empty zipPath then st1
        else
          fst (applyGitHubReleaseZipUpdate h w
                 {| apply_manual := false;
                    apply_tag := Some tag;
                    apply_zipPath := Some zipPath;
                    apply_releasePage :=
                      Some (str_or releasePage_
                              (default "" (status_releasePage (updateStatus st1)))) |}
                 st1) in
      match result with
      | CheckFailed _ => st1
      | UpToDate _ _ => st1
      | AlreadyDownloaded true _ _ _ => st1
      | AlreadyDownloaded false tag_ filePath_ releasePage_ =>
          apply_result tag_ filePath_ releasePage_
      | UpdateAvailable tag_ _ releasePage_ => apply_result tag_ "" releasePage_
      | Downloaded tag_ filePath_ _ releasePage_ => apply_result tag_ filePath_ releasePage_
      end.


(** [sub.host]: a host name one label further down. *)
Definition subdomain (sub host : string) : string := sub +:+ "." +:+ host.

(** ** History

    The [history:append] handler.  The entry comes from the renderer: it
    may be missing, and its [url] may be something else than a string;
    its title is taken as a string (empty when absent) and its time as a
    number (0 when absent). *)
Record RawHistoryEntry := {
  raw_url : option string;            (* None: [typeof entry.url !== "string"] *)
  raw_title : string;
  raw_visitedAt : Z
}.

Definition sanitizeHistoryEntry (h : Host) (entry : RawHistoryEntry) : HistoryEntry :=
  {| entry_url := default "" (raw_url entry);
     title := raw_title entry;
     visitedAt := if raw_visitedAt entry =? 0 then now h else raw_visitedAt entry |}.

Definition HISTORY_LIMIT : nat := 2000.

(** The result is the error of [{ ok: false, error }], or [None] for
    [{ ok: true }]. *)
Definition history_append (h : Host) (w : World) (entry : option RawHistoryEntry)
    (st : AppState) : AppState * option string :=
  match entry with
  | None => (st, Some "Invalid history entry.")
  | Some raw =>
      match raw_url raw with
      | None => (st, Some "Invalid history entry.")
      | Some _ =>
          let sanitized := sanitizeHistoryEntry h raw in
          if is_empty (entry_url sanitized) || String.eqb (entry_url sanitized) "about:blank"
          then (st, Some "Ignored empty history URL.")
          else
            let fresh :=
              match browsingHistory st with
              | [] => true
              | last :: _ => negb (String.eqb (entry_url last) (entry_url sanitized))
              end in
            if fresh then
              (persistHistory h w
                 (with_browsingHistory (take HISTORY_LIMIT (sanitized :: browsingHistory st))
                    st),
               None)
            else (st, None)
      end
  end.

(** No two neighbours of the history have the same URL. *)
Definition no_repeat (l : list HistoryEntry) : Prop :=
  forall (i : nat) a b, l !! i = Some a -> l !! S i = Some b -> entry_url a <> entry_url b.

(** The URL is one the handler records. *)
Definition recordable (e : HistoryEntry) : Prop :=
  entry_url e <> "" /\ entry_url e <> "about:blank".

(** The non-empty labels of a host name. *)
Definition labels (value : string) : list (list ascii) :=
  filter (fun piece => nonempty piece = true) (split_char "."%char (chars value) []).

(** A visit to record. *)
Definition demo_visit : RawHistoryEntry := {|
  raw_url := Some "https://example.org/";
  raw_title := "Example";
  raw_visitedAt := 1700000000000
|}.


(** * Properties *)

(** ** Version comparison *)

Lemma compare_component_range x y rest :
  (rest = -1 \/ rest = 0 \/ rest = 1) ->
  compare_component x y rest = -1 \/ compare_component x y rest = 0
  \/ compare_component x y rest = 1.
Proof.
  intros Hrest. unfold compare_component.
  destruct (x >? y); [auto |]. destruct (x <? y); auto.
Qed.

Lemma compare_missing_left_range r :
  compare_missing_left r = -1 \/ compare_missing_left r = 0 \/ compare_missing_left r = 1.
Proof.
  induction r as [| y r IH]; simpl; [auto |].
  now apply compare_component_range.
Qed.

Lemma compare_padded_range l r :
  compare_padded l r = -1 \/ compare_padded l r = 0 \/ compare_padded l r = 1.
Proof.
  revert r. induction l as [| x l IH]; intros r; simpl.
  - apply compare_missing_left_range.
  - destruct r; apply compare_component_range; apply IH.
Qed.

Lemma compare_loop_skipn n : forall i left right,
  compare_loop left right i n = compare_loop (skipn i left) (skipn i right) 0 n.
Proof.
  induction n as [| k IH]; intros i left right; cbn [compare_loop]; [reflexivity |].
  rewrite !(nth_skipn i _ 0%nat 0), Nat.add_0_r.
  rewrite (IH (S i)), (IH 1%nat (skipn i left)).
  now rewrite !skipn_skipn.
Qed.

Lemma compare_loop_padded n : forall left right,
  (Nat.max (length left) (length right) <= n)%nat ->
  compare_loop left right 0 n = compare_padded left right.
Proof.
  induction n as [| k IH]; intros left right Hlen.
  - destruct left, right; simpl in *; try lia; reflexivity.
  - cbn [compare_loop]. rewrite (compare_loop_skipn k 1).
    destruct left as [| x left], right as [| y right]; cbn [nth skipn compare_padded];
      rewrite ?skipn_O.
    + rewrite IH by (simpl; lia). reflexivity.
    + rewrite IH by (simpl in *; lia). reflexivity.
    + rewrite IH by (simpl in *; lia). reflexivity.
    + rewrite IH by (simpl in *; lia). reflexivity.
Qed.

Lemma compareVersions_padded (a b : string) :
  compareVersions a b
  = (if nonempty (parseVersionParts a) && nonempty (parseVersionParts b)
     then compare_padded (parseVersionParts a) (parseVersionParts b)
     else 0).
Proof.
  unfold compareVersions.
  destruct (parseVersionParts a) as [| x l] eqn:Ha; [reflexivity |].
  destruct (parseVersionParts b) as [| y r] eqn:Hb; [reflexivity |].
  cbn [length Nat.eqb orb nonempty andb].
  apply compare_loop_padded. apply Nat.le_refl.
Qed.

Lemma compare_component_antisym x y k k' :
  k = - k' -> compare_component x y k = - compare_component y x k'.
Proof.
  intros ->. unfold compare_component.
  destruct (x >? y) eqn:H1, (x <? y) eqn:H2, (y >? x) eqn:H3, (y <? x) eqn:H4;
    try reflexivity; lia.
Qed.

Lemma compare_padded_nil_r l : compare_padded l [] = - compare_missing_left l.
Proof.
  induction l as [| x l IH]; simpl; [reflexivity |].
  now apply compare_component_antisym.
Qed.

Lemma compare_padded_antisym l : forall r, compare_padded l r = - compare_padded r l.
Proof.
  induction l as [| x l IH]; intros r.
  - rewrite compare_padded_nil_r. simpl. lia.
  - destruct r as [| y r].
    + rewrite compare_padded_nil_r. reflexivity.
    + simpl. apply compare_component_antisym. apply IH.
Qed.

(** Swapping the two versions flips the sign of the result. *)
Lemma compareVersions_antisym (a b : string) :
  compareVersions a b = - compareVersions b a.
Proof.
  rewrite !compareVersions_padded.
  rewrite (andb_comm (nonempty (parseVersionParts b))).
  destruct (_ && _); [apply compare_padded_antisym | reflexivity].
Qed.

Lemma nonempty_rev {A} (l : list A) : nonempty (rev l) = nonempty l.
Proof.
  destruct l as [| x l]; [reflexivity |]. simpl.
  destruct (rev l); reflexivity.
Qed.

Lemma split_non_digits_runs s : forall cur in_sep,
  (in_sep = true -> cur = []) ->
  filter (fun part => nonempty part = true) (split_non_digits s cur in_sep)
  = digit_runs_from s cur.
Proof.
  assert (Hone : forall cur : list ascii,
            filter (fun part => nonempty part = true) [rev cur]
            = if nonempty cur then [rev cur] else []).
  { intros cur. rewrite filter_cons, filter_nil, <- (nonempty_rev cur).
    destruct (nonempty (rev cur)); [now rewrite decide_True | now rewrite decide_False]. }
  induction s as [| c s IH]; intros cur in_sep Hsep; cbn [split_non_digits digit_runs_from].
  - apply Hone.
  - destruct (is_digit c).
    + apply IH. discriminate.
    + destruct in_sep.
      * rewrite (Hsep eq_refl). cbn [nonempty app]. now apply IH.
      * change (rev cur :: split_non_digits s [] true)
          with ([rev cur] ++ split_non_digits s [] true).
        rewrite filter_app, Hone. f_equal. now apply IH.
Qed.

(** The numeric components are the values of the maximal digit runs. *)
Lemma parseVersionParts_digit_runs (v : string) :
  parseVersionParts v = omap id (map Number_of_digits (digit_runs (trim v))).
Proof.
  unfold parseVersionParts, digit_runs.
  destruct (is_empty (trim v)) eqn:Hempty.
  - destruct (trim v); [reflexivity | discriminate Hempty].
  - rewrite split_non_digits_runs; [reflexivity | discriminate].
Qed.

(** C6. [compareVersions] compares the numeric components read off the two
    strings (the values of their maximal digit runs) one by one, a
    missing trailing component counting as 0; the result is -1, 0 or 1,
    and it is 0 as soon as one side has no numeric component.  In
    particular "1.2.0" is below "1.10.0", "2.0" equals "2.0.0", and "abc"
    against "1.0" gives 0. *)
Theorem compareVersions_componentwise (a b : string) :
  compareVersions a b
  = (if nonempty (parseVersionParts a) && nonempty (parseVersionParts b)
     then compare_padded (parseVersionParts a) (parseVersionParts b)
     else 0)
  /\ parseVersionParts a = omap id (map Number_of_digits (digit_runs (trim a)))
  /\ (compareVersions a b = -1 \/ compareVersions a b = 0 \/ compareVersions a b = 1)
  /\ compareVersions "1.2.0" "1.10.0" = -1
  /\ compareVersions "2.0" "2.0.0" = 0
  /\ compareVersions "abc" "1.0" = 0
  /\ parseVersionParts "1.10.0" = [1; 10; 0]
  /\ parseVersionParts "abc" = [].
Proof.
  split; [apply compareVersions_padded |].
  split; [apply parseVersionParts_digit_runs |]. split.
  - rewrite compareVersions_padded.
    destruct (nonempty (parseVersionParts a) && nonempty (parseVersionParts b));
      [apply compare_padded_range | auto].
  - repeat split; vm_compute; reflexivity.
Qed.

(** ** Update target paths *)

Lemma chars_unchars l : chars (unchars l) = l.
Proof. apply list_ascii_of_string_of_list_ascii. Qed.

Lemma unchars_chars s : unchars (chars s) = s.
Proof. apply string_of_list_ascii_of_string. Qed.

Lemma tag_char_not_sep c : is_tag_char c = true -> is_sep c = false.
Proof.
  destruct c as [[] [] [] [] [] [] [] []]; vm_compute; intros H;
    first [reflexivity | discriminate H].
Qed.

Lemma replace_unsafe_runs_safe s : forall in_run,
  Forall (fun c => is_tag_char c = true) (replace_unsafe_runs s in_run).
Proof.
  induction s as [| c s IH]; intros in_run; simpl; [constructor |].
  destruct (is_tag_char c) eqn:Hc.
  - constructor; [exact Hc | apply IH].
  - destruct in_run; [apply IH |]. constructor; [reflexivity | apply IH].
Qed.

(** Every character of a sanitized tag is in [A-Za-z0-9._-], and the
    sanitized tag is not empty. *)
Lemma sanitizeTagForPath_safe tag :
  Forall (fun c => is_tag_char c = true) (chars (sanitizeTagForPath tag))
  /\ sanitizeTagForPath tag <> "".
Proof.
  unfold sanitizeTagForPath, str_or.
  destruct (is_empty _) eqn:He.
  - split; [| discriminate].
    vm_compute. repeat constructor.
  - split.
    + rewrite chars_unchars. apply replace_unsafe_runs_safe.
    + intros Heq. rewrite Heq in He. discriminate He.
Qed.

Lemma split_sep_no_sep s : forall cur,
  Forall (fun c => is_sep c = false) s ->
  split_sep s cur = [unchars (rev cur ++ s)].
Proof.
  induction s as [| c s IH]; intros cur Hs; simpl.
  - now rewrite app_nil_r.
  - inversion Hs as [| ? ? Hc Hs']; subst. rewrite Hc, IH by assumption.
    simpl. now rewrite <- app_assoc.
Qed.

Lemma segments_sanitized tag :
  segments (sanitizeTagForPath tag) = [sanitizeTagForPath tag].
Proof.
  unfold segments. rewrite split_sep_no_sep.
  - simpl. now rewrite unchars_chars.
  - destruct (sanitizeTagForPath_safe tag) as [Hsafe _].
    eapply List.Forall_impl; [| exact Hsafe]. intros c. apply tag_char_not_sep.
Qed.

Lemma normalize_onto_plain segs : forall stack,
  normalized segs -> normalize_onto stack segs = rev stack ++ segs.
Proof.
  induction segs as [| seg segs IH]; intros stack Hn; simpl.
  - now rewrite app_nil_r.
  - inversion Hn as [| ? ? [H1 [H2 H3]] Hn']; subst.
    apply String.eqb_neq in H1, H2, H3. rewrite H1, H2, H3. simpl.
    rewrite IH by assumption. simpl. now rewrite <- app_assoc.
Qed.

Lemma path_join_plain base parts :
  normalized (base ++ flat_map segments parts) ->
  path_join base parts = base ++ flat_map segments parts.
Proof. intros Hn. unfold path_join. now rewrite normalize_onto_plain. Qed.

(** Where the download goes for every tag that does not sanitize to [.]
    or [..]: below the updates directory, in a folder named after the
    sanitized tag. *)
Lemma resolveGitHubUpdateTargetPath_inside (h : Host) (tag : string) :
  normalized (userData h) ->
  trim (env_update_asset_name h) = "" ->
  sanitizeTagForPath tag <> "." ->
  sanitizeTagForPath tag <> ".." ->
  getGitHubUpdateDownloadDir h = userData h ++ ["updates"]
  /\ resolveGitHubUpdateTargetPath h tag
     = getGitHubUpdateDownloadDir h ++ [sanitizeTagForPath tag; "update.zip"]
  /\ inside_dir (getGitHubUpdateDownloadDir h) (resolveGitHubUpdateTargetPath h tag).
Proof.
  intros Hdata Henv Hdot Hdots.
  assert (Hdir : getGitHubUpdateDownloadDir h = userData h ++ ["updates"]).
  { unfold getGitHubUpdateDownloadDir. rewrite path_join_plain; [reflexivity |].
    apply Forall_app; split; [exact Hdata |].
    repeat constructor; discriminate. }
  assert (Htarget : resolveGitHubUpdateTargetPath h tag
                    = getGitHubUpdateDownloadDir h ++ [sanitizeTagForPath tag; "update.zip"]).
  { unfold resolveGitHubUpdateTargetPath, resolveGitHubUpdateAssetName.
    rewrite Henv. cbn [str_or is_empty].
    assert (Hsegs : flat_map segments [sanitizeTagForPath tag; GITHUB_UPDATE_ASSET_NAME]
                    = [sanitizeTagForPath tag; "update.zip"]).
    { cbn [flat_map]. rewrite segments_sanitized. reflexivity. }
    rewrite path_join_plain; rewrite Hsegs; [reflexivity |].
    rewrite Hdir. repeat (apply Forall_app; split); [exact Hdata | |].
    - repeat constructor; discriminate.
    - destruct (sanitizeTagForPath_safe tag) as [_ Hne].
      repeat constructor; try assumption; discriminate. }
  split; [exact Hdir |]. split; [exact Htarget |].
  exists [sanitizeTagForPath tag; "update.zip"]. split; [discriminate | exact Htarget].
Qed.

Lemma inside_dir_b_spec dir p : inside_dir dir p -> inside_dir_b dir p = true.
Proof.
  intros [rest [Hne ->]]. unfold inside_dir_b. apply andb_true_intro. split.
  - induction dir as [| d dir IH]; simpl; [reflexivity |].
    now rewrite String.eqb_refl.
  - apply Nat.ltb_lt. rewrite length_app. destruct rest; [contradiction | simpl; lia].
Qed.

(** The download folder of an ordinary tag. *)
Example resolveGitHubUpdateTargetPath_v130 :
  resolveGitHubUpdateTargetPath demo_host "v1.3.0"
  = getGitHubUpdateDownloadDir demo_host ++ ["v1.3.0"; "update.zip"]
  /\ inside_dir (getGitHubUpdateDownloadDir demo_host)
       (resolveGitHubUpdateTargetPath demo_host "v1.3.0").
Proof.
  destruct (resolveGitHubUpdateTargetPath_inside demo_host "v1.3.0") as (_ & Htarget & Hinside).
  - repeat constructor; discriminate.
  - reflexivity.
  - vm_compute. discriminate.
  - vm_compute. discriminate.
  - split; [exact Htarget | exact Hinside].
Qed.

(** C2. The tag [..] passes [sanitizeTagForPath] unchanged, since the dot
    is an allowed character, and [path.join] then resolves it: the
    download target is a file of the data directory itself, outside the
    updates directory. *)
Theorem resolveGitHubUpdateTargetPath_dotdot_escapes :
  sanitizeTagForPath ".." = ".."
  /\ getGitHubUpdateDownloadDir demo_host
     = ["Users"; "me"; "AppData"; "Roaming"; "bastion-browser"; "updates"]
  /\ resolveGitHubUpdateTargetPath demo_host ".."
     = ["Users"; "me"; "AppData"; "Roaming"; "bastion-browser"; "update.zip"]
  /\ ~ inside_dir (getGitHubUpdateDownloadDir demo_host)
         (resolveGitHubUpdateTargetPath demo_host "..").
Proof.
  split; [reflexivity |]. split; [reflexivity |]. split; [reflexivity |].
  intros Hin. apply inside_dir_b_spec in Hin. vm_compute in Hin. discriminate Hin.
Qed.

(** ** Privacy policy engine *)

(** C5. When a request meets both the blocking condition and the upgrade
    condition, it is cancelled and [blockedRequests] grows by one; it is
    not redirected and [upgradedToHttps] stays. *)
Theorem block_precedes_upgrade (h : Host) (c : PrivacyConfig) (details : RequestDetails)
    (stats : PrivacyStats) :
  shouldBlockTrackerRequest h c details = true ->
  upgradeHttps c && shouldUpgradeToHttps h (url details) = true ->
  snd (onBeforeRequest h c details stats) = Cancel
  /\ blockedRequests (fst (onBeforeRequest h c details stats)) = blockedRequests stats + 1
  /\ upgradedToHttps (fst (onBeforeRequest h c details stats)) = upgradedToHttps stats.
Proof.
  intros Hblock _. unfold onBeforeRequest. rewrite Hblock. simpl. auto.
Qed.

Lemma block_precedes_upgrade_witness :
  shouldBlockTrackerRequest demo_host DEFAULT_PRIVACY_CONFIG tracker_request = true
  /\ upgradeHttps DEFAULT_PRIVACY_CONFIG
     && shouldUpgradeToHttps demo_host (url tracker_request) = true
  /\ snd (onBeforeRequest demo_host DEFAULT_PRIVACY_CONFIG tracker_request
            (createEmptyPrivacyStats demo_host)) = Cancel
  /\ blockedRequests
       (fst (onBeforeRequest demo_host DEFAULT_PRIVACY_CONFIG tracker_request
               (createEmptyPrivacyStats demo_host))) = 1.
Proof.
  split; [vm_compute; reflexivity |]. split; [vm_compute; reflexivity |].
  destruct (block_precedes_upgrade demo_host DEFAULT_PRIVACY_CONFIG tracker_request
              (createEmptyPrivacyStats demo_host)) as [Hd [Hb _]];
    [vm_compute; reflexivity | vm_compute; reflexivity |].
  split; [exact Hd | exact Hb].
Defined.

Lemma findHeaderKey_same_name headers name key :
  findHeaderKey headers name = Some key -> toLowerCase key = toLowerCase name.
Proof.
  induction headers as [| [k v] rest IH]; simpl; [discriminate |].
  destruct (String.eqb (toLowerCase k) (toLowerCase name)) eqn:Hk.
  - intros [= <-]. now apply String.eqb_eq.
  - exact IH.
Qed.

Lemma header_value_object_set headers key value name :
  toLowerCase key <> toLowerCase name ->
  header_value (object_set headers key value) name = header_value headers name.
Proof.
  intros Hne. unfold header_value. f_equal.
  induction headers as [| [k v] rest IH]; simpl.
  - apply String.eqb_neq in Hne. now rewrite Hne.
  - destruct (String.eqb k key) eqn:Hk; simpl.
    + apply String.eqb_eq in Hk. subst k.
      apply String.eqb_neq in Hne. now rewrite Hne.
    + destruct (String.eqb (toLowerCase k) (toLowerCase name)); [reflexivity | exact IH].
Qed.

Lemma header_value_object_delete headers key name :
  toLowerCase key <> toLowerCase name ->
  header_value (object_delete headers key) name = header_value headers name.
Proof.
  intros Hne. unfold header_value, object_delete. f_equal.
  induction headers as [| [k v] rest IH]; [reflexivity |].
  rewrite filter_cons.
  destruct (decide (negb (String.eqb (fst (k, v)) key) = true)) as [Hkeep | Hdrop];
    cbn [fst] in *.
  - cbn [find fst]. destruct (String.eqb (toLowerCase k) (toLowerCase name));
      [reflexivity | exact IH].
  - apply not_true_is_false, negb_false_iff, String.eqb_eq in Hdrop. subst k.
    cbn [find fst]. apply String.eqb_neq in Hne. rewrite Hne. exact IH.
Qed.

Lemma header_value_setHeader headers name value other :
  toLowerCase name <> toLowerCase other ->
  header_value (setHeader headers name value) other = header_value headers other.
Proof.
  intros Hne. unfold setHeader. apply header_value_object_set.
  destruct (findHeaderKey headers name) as [key |] eqn:Hfind; simpl; [| exact Hne].
  unfold str_or. destruct (is_empty key); [exact Hne |].
  now rewrite (findHeaderKey_same_name _ _ _ Hfind).
Qed.

Lemma header_value_removeHeader headers name other :
  toLowerCase name <> toLowerCase other ->
  header_value (removeHeader headers name) other = header_value headers other.
Proof.
  intros Hne. unfold removeHeader.
  destruct (findHeaderKey headers name) as [key |] eqn:Hfind; [| reflexivity].
  destruct (is_empty key); [reflexivity |].
  apply header_value_object_delete.
  now rewrite (findHeaderKey_same_name _ _ _ Hfind).
Qed.

(** Whatever the configuration and the request, the header stage hands the
    Referer header on as it came. *)
Lemma onBeforeSendHeaders_keeps_referer (h : Host) (c : PrivacyConfig)
    (details : RequestDetails) (stats : PrivacyStats) :
  header_value (snd (onBeforeSendHeaders h c details stats)) "Referer"
  = header_value (requestHeaders details) "Referer".
Proof.
  unfold onBeforeSendHeaders.
  assert (Hdnt : toLowerCase "DNT" <> toLowerCase "Referer") by (vm_compute; discriminate).
  assert (Hgpc : toLowerCase "Sec-GPC" <> toLowerCase "Referer") by (vm_compute; discriminate).
  assert (Hcookie : toLowerCase "Cookie" <> toLowerCase "Referer") by (vm_compute; discriminate).
  set (headers1 := if sendDoNotTrack c then _ else _).
  set (headers2 := if sendGlobalPrivacyControl c then _ else _).
  assert (H1 : header_value headers1 "Referer" = header_value (requestHeaders details) "Referer").
  { subst headers1. destruct (sendDoNotTrack c);
      [now apply header_value_setHeader | now apply header_value_removeHeader]. }
  assert (H2 : header_value headers2 "Referer" = header_value (requestHeaders details) "Referer").
  { subst headers2. rewrite <- H1. destruct (sendGlobalPrivacyControl c);
      [now apply header_value_setHeader | now apply header_value_removeHeader]. }
  destruct (_ && _ && _); simpl; [| exact H2].
  rewrite <- H2. now apply header_value_removeHeader.
Qed.

(** C4. The main process has no Referer rule: the patch that switches
    [stripThirdPartyReferer] on leaves the configuration as it was, and a
    cross-site request keeps its Referer header while its Cookie header
    is removed; there is no [strippedRefererHeaders] counter to move. *)
Theorem referer_not_stripped_cross_site :
  patchPrivacyConfig referer_patch DEFAULT_PRIVACY_CONFIG = DEFAULT_PRIVACY_CONFIG
  /\ isThirdPartyRequest demo_host (url cross_site_request) "https://a.com" = true
  /\ onBeforeSendHeaders demo_host (patchPrivacyConfig referer_patch DEFAULT_PRIVACY_CONFIG)
       cross_site_request (createEmptyPrivacyStats demo_host)
     = (incrementPrivacyStat "strippedCookieHeaders" (createEmptyPrivacyStats demo_host),
        [("Referer", "https://a.com/page"); ("DNT", "1"); ("Sec-GPC", "1")])
  /\ onBeforeSendHeaders demo_host DEFAULT_PRIVACY_CONFIG same_site_request
       (createEmptyPrivacyStats demo_host)
     = (createEmptyPrivacyStats demo_host,
        [("Cookie", "sid=1"); ("Referer", "https://a.com/page"); ("DNT", "1");
         ("Sec-GPC", "1")])
  /\ incrementPrivacyStat "strippedRefererHeaders" (createEmptyPrivacyStats demo_host)
     = createEmptyPrivacyStats demo_host.
Proof.
  repeat split; vm_compute; reflexivity.
Qed.

(** ** Permission gate *)

Lemma permission_lists_disjoint :
  forallb (fun p => negb (set_has ALLOWED_PERMISSIONS p)) FINGERPRINTING_PERMISSIONS = true.
Proof. vm_compute. reflexivity. Qed.

Lemma set_has_allowed permission :
  set_has ALLOWED_PERMISSIONS permission = true <-> allow_listed permission.
Proof.
  unfold set_has, ALLOWED_PERMISSIONS, allow_listed. cbn [existsb].
  rewrite !orb_true_iff, !String.eqb_eq. intuition discriminate.
Qed.

Lemma set_has_fingerprinting permission :
  set_has FINGERPRINTING_PERMISSIONS permission = true <-> fingerprinting_risk permission.
Proof.
  unfold set_has, FINGERPRINTING_PERMISSIONS, fingerprinting_risk. cbn [existsb].
  rewrite !orb_true_iff, !String.eqb_eq. intuition discriminate.
Qed.

Lemma fingerprinting_risk_not_allow_listed permission :
  fingerprinting_risk permission -> ~ allow_listed permission.
Proof.
  intros Hrisk Hallowed. apply set_has_fingerprinting in Hrisk.
  apply set_has_allowed in Hallowed.
  pose proof permission_lists_disjoint as Hdisjoint.
  rewrite forallb_forall in Hdisjoint.
  unfold set_has in Hrisk. apply existsb_exists in Hrisk as (member & Hin & Heq).
  apply String.eqb_eq in Heq. subst member.
  specialize (Hdisjoint _ Hin). rewrite Hallowed in Hdisjoint. discriminate.
Qed.

(** C9. The answer to a permission request is a function of the
    configuration flag and the capability name, nothing else, namely
    [decide_permission], which is written over the specification's own
    two lists.  While the flag is on, a capability of the
    fingerprinting-risk set (idle-detection, window-management,
    display-capture, midi, midiSysex, midi-sysex, pointerLock,
    background-sync, payment-handler, speaker-selection) is denied and
    [blockedPermissions] grows by one.  Otherwise, and in fact always, the
    capability is allowed exactly when it is one of fullscreen,
    notifications, clipboard-read and media; a capability on neither list
    is denied and [blockedPermissions] grows by one.  An approval leaves
    the statistics alone.  The check handler gives the same answer.  The
    two sets of the code are the two lists, and they share no name. *)
Theorem permission_decision_pure (c : PrivacyConfig) (permission : string)
    (stats : PrivacyStats) :
  snd (permissionRequestHandler c permission stats)
  = decide_permission (blockFingerprintingPermissions c) permission
  /\ permissionCheckHandler c permission
     = decide_permission (blockFingerprintingPermissions c) permission
  /\ fst (permissionRequestHandler c permission stats)
     = (if decide_permission (blockFingerprintingPermissions c) permission then stats
        else incrementPrivacyStat "blockedPermissions" stats)
  /\ blockedPermissions (fst (permissionRequestHandler c permission stats))
     = blockedPermissions stats
       + (if decide_permission (blockFingerprintingPermissions c) permission then 0 else 1)
  /\ (if blockFingerprintingPermissions c && set_has FINGERPRINTING_PERMISSIONS permission
      then decide_permission (blockFingerprintingPermissions c) permission = false
      else decide_permission (blockFingerprintingPermissions c) permission
           = set_has ALLOWED_PERMISSIONS permission)
  /\ (if set_has FINGERPRINTING_PERMISSIONS permission || set_has ALLOWED_PERMISSIONS permission
      then True
      else decide_permission (blockFingerprintingPermissions c) permission = false)
  /\ (blockFingerprintingPermissions c = true -> fingerprinting_risk permission ->
      snd (permissionRequestHandler c permission stats) = false
      /\ blockedPermissions (fst (permissionRequestHandler c permission stats))
         = blockedPermissions stats + 1)
  /\ (~ (blockFingerprintingPermissions c = true /\ fingerprinting_risk permission) ->
      (snd (permissionRequestHandler c permission stats) = true <-> allow_listed permission))
  /\ (~ fingerprinting_risk permission -> ~ allow_listed permission ->
      snd (permissionRequestHandler c permission stats) = false
      /\ blockedPermissions (fst (permissionRequestHandler c permission stats))
         = blockedPermissions stats + 1)
  /\ (snd (permissionRequestHandler c permission stats) = true <-> allow_listed permission)
  /\ (set_has ALLOWED_PERMISSIONS permission = true <-> allow_listed permission)
  /\ (set_has FINGERPRINTING_PERMISSIONS permission = true <-> fingerprinting_risk permission)
  /\ (fingerprinting_risk permission -> ~ allow_listed permission).
Proof.
  pose proof (set_has_allowed permission) as Hallowed.
  pose proof (set_has_fingerprinting permission) as Hrisk.
  pose proof (fingerprinting_risk_not_allow_listed permission) as Hdisjoint.
  change (decide_permission (blockFingerprintingPermissions c) permission)
    with (if blockFingerprintingPermissions c
             && set_has FINGERPRINTING_PERMISSIONS permission
          then false else set_has ALLOWED_PERMISSIONS permission).
  unfold permissionRequestHandler, permissionCheckHandler.
  destruct (blockFingerprintingPermissions c);
    destruct (set_has FINGERPRINTING_PERMISSIONS permission);
    destruct (set_has ALLOWED_PERMISSIONS permission);
    cbn [andb orb fst snd];
    repeat match goal with |- _ /\ _ => split end;
    try reflexivity; try exact I; try exact Hallowed; try exact Hrisk; try exact Hdisjoint;
    try (cbn; lia); try (intuition (first [discriminate | congruence])).
Qed.

(** With the default configuration a page is given the media
    capability and the statistics stay as they are; it is refused midi
    (a fingerprinting risk) and geolocation (on neither list), and each
    refusal is counted once.  With the flag off midi is refused all the
    same, for it is not on the allow-list. *)
Lemma permission_decision_pure_witness :
  permissionRequestHandler DEFAULT_PRIVACY_CONFIG "media" (createEmptyPrivacyStats demo_host)
  = (createEmptyPrivacyStats demo_host, true)
  /\ snd (permissionRequestHandler DEFAULT_PRIVACY_CONFIG "midi"
            (createEmptyPrivacyStats demo_host)) = false
  /\ blockedPermissions (fst (permissionRequestHandler DEFAULT_PRIVACY_CONFIG "midi"
                                (createEmptyPrivacyStats demo_host))) = 1
  /\ snd (permissionRequestHandler DEFAULT_PRIVACY_CONFIG "geolocation"
            (createEmptyPrivacyStats demo_host)) = false
  /\ blockedPermissions (fst (permissionRequestHandler DEFAULT_PRIVACY_CONFIG "geolocation"
                                (createEmptyPrivacyStats demo_host))) = 1
  /\ permissionCheckHandler DEFAULT_PRIVACY_CONFIG "clipboard-read" = true
  /\ permissionCheckHandler DEFAULT_PRIVACY_CONFIG "clipboard-write" = false.
Proof.
  pose proof (permission_decision_pure DEFAULT_PRIVACY_CONFIG "media"
                (createEmptyPrivacyStats demo_host)) as Hmedia.
  pose proof (permission_decision_pure DEFAULT_PRIVACY_CONFIG "midi"
                (createEmptyPrivacyStats demo_host)) as Hmidi.
  pose proof (permission_decision_pure DEFAULT_PRIVACY_CONFIG "geolocation"
                (createEmptyPrivacyStats demo_host)) as Hgeo.
  pose proof (permission_decision_pure DEFAULT_PRIVACY_CONFIG "clipboard-read"
                (createEmptyPrivacyStats demo_host)) as Hread.
  pose proof (permission_decision_pure DEFAULT_PRIVACY_CONFIG "clipboard-write"
                (createEmptyPrivacyStats demo_host)) as Hwrite.
  destruct Hmedia as (Hanswer & _ & Hstats & _).
  destruct Hmidi as (_ & _ & _ & _ & _ & _ & Hmidi & _).
  destruct Hgeo as (_ & _ & _ & _ & _ & _ & _ & _ & Hgeo & _).
  destruct Hread as (_ & Hread & _).
  destruct Hwrite as (_ & Hwrite & _).
  split; [apply injective_projections; [exact Hstats | exact Hanswer] |].
  destruct Hmidi as [Hmidi_answer Hmidi_count];
    [reflexivity | unfold fingerprinting_risk; tauto |].
  destruct Hgeo as [Hgeo_answer Hgeo_count];
    [unfold fingerprinting_risk; intuition discriminate
    | unfold allow_listed; intuition discriminate |].
  repeat split; assumption.
Defined.

(** ** Statistics counters *)

Lemma counter_step_refl a : counter_step a a.
Proof. now left. Qed.

Lemma counters_step_refl s : counters_step s s.
Proof. repeat split; apply counter_step_refl. Qed.

Lemma incrementPrivacyStat_step key s : counters_step s (incrementPrivacyStat key s).
Proof.
  unfold incrementPrivacyStat, counters_step, counter_step.
  repeat (destruct (String.eqb key _); [simpl; auto 6 |]). auto 6.
Qed.

Lemma onBeforeRequest_step h c details s :
  counters_step s (fst (onBeforeRequest h c details s)).
Proof.
  unfold onBeforeRequest.
  repeat match goal with
         | |- context [if ?b then _ else _] => destruct b
         end; simpl; first [apply incrementPrivacyStat_step | apply counters_step_refl].
Qed.

Lemma onBeforeSendHeaders_step h c details s :
  counters_step s (fst (onBeforeSendHeaders h c details s)).
Proof.
  unfold onBeforeSendHeaders.
  destruct (_ && _ && _); simpl;
    first [apply incrementPrivacyStat_step | apply counters_step_refl].
Qed.

Lemma permissionRequestHandler_step c permission s :
  counters_step s (fst (permissionRequestHandler c permission s)).
Proof.
  unfold permissionRequestHandler.
  destruct (_ && _); simpl; [apply incrementPrivacyStat_step |].
  destruct (negb _); [apply incrementPrivacyStat_step | apply counters_step_refl].
Qed.

Lemma setUpdateStatus_privacyStats h patch st :
  privacyStats (setUpdateStatus h patch st) = privacyStats st.
Proof. reflexivity. Qed.

Lemma fetchLatestGitHubRelease_privacyStats h w st :
  privacyStats (fst (fetchLatestGitHubRelease h w st)) = privacyStats st.
Proof.
  unfold fetchLatestGitHubRelease.
  repeat case_match; reflexivity.
Qed.

Lemma downloadGitHubAssetToPath_privacyStats h w assetURL targetPath st :
  privacyStats (fst (downloadGitHubAssetToPath h w assetURL targetPath st)) = privacyStats st.
Proof.
  unfold downloadGitHubAssetToPath.
  repeat case_match; reflexivity.
Qed.

Lemma applyGitHubReleaseZipUpdate_privacyStats h w options st :
  privacyStats (fst (applyGitHubReleaseZipUpdate h w options st)) = privacyStats st.
Proof.
  unfold applyGitHubReleaseZipUpdate.
  repeat case_match; reflexivity.
Qed.

Lemma checkGitHubReleaseZipUpdate_privacyStats h w opts st :
  privacyStats (fst (checkGitHubReleaseZipUpdate h w opts st)) = privacyStats st.
Proof.
  unfold checkGitHubReleaseZipUpdate.
  destruct (fetchLatestGitHubRelease _ _ _) as [st2 fetched] eqn:Hfetch.
  assert (H2 : privacyStats st2 = privacyStats st).
  { change st2 with (fst (st2, fetched)). rewrite <- Hfetch.
    now rewrite fetchLatestGitHubRelease_privacyStats. }
  repeat match goal with
         | |- context [downloadGitHubAssetToPath ?a ?b ?c ?d ?e] =>
             let Hd := fresh "Hdownload" in
             pose proof (downloadGitHubAssetToPath_privacyStats a b c d e) as Hd;
             destruct (downloadGitHubAssetToPath a b c d e)
         | |- context [match ?x with _ => _ end] => destruct x
         end; simpl in *; congruence.
Qed.

Lemma installDownloadedUpdate_privacyStats h w st :
  privacyStats (fst (installDownloadedUpdate h w st)) = privacyStats st.
Proof.
  unfold installDownloadedUpdate.
  destruct (source (updateStatus st)).
  - repeat case_match; reflexivity.
  - destruct (applyGitHubReleaseZipUpdate _ _ _ _) as [st1 r] eqn:Happly.
    change st1 with (fst (st1, r)). rewrite <- Happly.
    apply applyGitHubReleaseZipUpdate_privacyStats.
  - repeat case_match; reflexivity.
Qed.

Lemma patchUpdateConfig_privacyStats h w patch st :
  privacyStats (patchUpdateConfig h w patch st) = privacyStats st.
Proof.
  unfold patchUpdateConfig, applyUpdaterConfig.
  repeat case_match; reflexivity.
Qed.

Lemma clearDataByScope_privacyStats h w scope st :
  privacyStats (fst (clearDataByScope h w scope st)) = privacyStats st.
Proof.
  unfold clearDataByScope.
  repeat case_match; reflexivity.
Qed.

Lemma run_operation_step h op st :
  counters_step (privacyStats st) (privacyStats (run_operation h op st)).
Proof.
  destruct op; cbn [run_operation].
  - apply onBeforeRequest_step.
  - apply onBeforeSendHeaders_step.
  - apply permissionRequestHandler_step.
  - apply counters_step_refl.
  - apply counters_step_refl.
  - rewrite patchUpdateConfig_privacyStats. apply counters_step_refl.
  - rewrite clearDataByScope_privacyStats. apply counters_step_refl.
  - rewrite checkGitHubReleaseZipUpdate_privacyStats. apply counters_step_refl.
  - rewrite applyGitHubReleaseZipUpdate_privacyStats. apply counters_step_refl.
  - rewrite installDownloadedUpdate_privacyStats. apply counters_step_refl.
Qed.

Lemma counters_step_le s s' : counters_step s s' -> counters_le s s'.
Proof.
  unfold counters_step, counter_step, counters_le. intros (H1 & H2 & H3 & H4).
  repeat split; lia.
Qed.

Lemma counters_le_trans s1 s2 s3 : counters_le s1 s2 -> counters_le s2 s3 -> counters_le s1 s3.
Proof.
  unfold counters_le. intros (A1 & A2 & A3 & A4) (B1 & B2 & B3 & B4). repeat split; lia.
Qed.

Lemma run_operations_le h ops : forall st,
  counters_le (privacyStats st) (privacyStats (run_operations h ops st)).
Proof.
  induction ops as [| op ops IH]; intros st; cbn [run_operations fold_left].
  - apply counters_step_le, counters_step_refl.
  - eapply counters_le_trans; [apply counters_step_le, (run_operation_step h op) |].
    apply IH.
Qed.

(** C10. Each operation of the main process (request interception, header
    mutation, permission request or check, either configuration patch,
    clear-data, update check, apply and install) leaves every counter of
    the statistics as it was or one higher; so over any sequence of
    operations no counter ever decreases.  Clearing data does not touch
    the statistics at all. *)
Theorem counters_never_decrease (h : Host) (st : AppState) :
  (forall op, counters_step (privacyStats st) (privacyStats (run_operation h op st)))
  /\ (forall ops, counters_le (privacyStats st) (privacyStats (run_operations h ops st)))
  /\ (forall w scope, privacyStats (fst (clearDataByScope h w scope st)) = privacyStats st)
  /\ (forall w patch,
        privacyStats (run_operation h (op_patchPrivacyConfig w patch) st) = privacyStats st).
Proof.
  split; [intros op; apply run_operation_step |].
  split; [intros ops; apply run_operations_le |].
  split; [intros w scope; apply clearDataByScope_privacyStats |].
  intros w patch. reflexivity.
Qed.

(** ** Release discovery *)

Section Sorting.
Context {A : Type} (key : A -> Z).

Let by_key_descending : A -> A -> Z := fun left right => key right - key left.

Lemma sort_insert_perm (cmp : A -> A -> Z) x l :
  Permutation (x :: l) (sort_insert cmp x l).
Proof.
  induction l as [| y ys IH]; simpl; [reflexivity |].
  destruct (cmp x y <=? 0); [reflexivity |].
  rewrite perm_swap. now apply perm_skip.
Qed.

Lemma array_sort_perm (cmp : A -> A -> Z) l : Permutation l (array_sort cmp l).
Proof.
  induction l as [| x xs IH]; simpl; [reflexivity |].
  rewrite <- sort_insert_perm. now apply perm_skip.
Qed.

Lemma sort_insert_sorted x l :
  StronglySorted (fun a b => key b <= key a) l ->
  StronglySorted (fun a b => key b <= key a) (sort_insert by_key_descending x l).
Proof.
  induction 1 as [| y ys Hsorted IH Hy]; simpl.
  - repeat constructor.
  - unfold by_key_descending at 1. destruct (key y - key x <=? 0) eqn:Hcmp.
    + apply Z.leb_le in Hcmp. constructor; [now constructor |].
      constructor; [lia |].
      eapply List.Forall_impl; [| exact Hy]. intros z Hz; cbv beta in *; lia.
    + apply Z.leb_gt in Hcmp. constructor; [exact IH |].
      eapply Permutation_Forall; [apply sort_insert_perm |].
      constructor; [lia | exact Hy].
Qed.

Lemma array_sort_sorted l :
  StronglySorted (fun a b => key b <= key a) (array_sort by_key_descending l).
Proof.
  induction l as [| x xs IH]; simpl; [constructor |].
  now apply sort_insert_sorted.
Qed.

Lemma head_sort_insert (cmp : A -> A -> Z) x y ys :
  head (sort_insert cmp x (y :: ys)) = Some (if cmp x y <=? 0 then x else y).
Proof. simpl. now destruct (cmp x y <=? 0). Qed.

(** The head of the sorted array is the first element with the largest
    key: the sort is stable. *)
Lemma head_array_sort_first_max l :
  match head (array_sort by_key_descending l) with
  | None => l = []
  | Some r =>
      exists before after,
        l = before ++ r :: after
        /\ Forall (fun x => key x < key r) before
        /\ Forall (fun x => key x <= key r) after
  end.
Proof.
  induction l as [| x xs IH]; [reflexivity |].
  cbn [array_sort].
  destruct (array_sort by_key_descending xs) as [| y ys] eqn:Hsorted.
  - cbn in IH. subst xs. cbn. exists [], []. repeat split; constructor.
  - rewrite head_sort_insert. cbn [head] in IH.
    destruct IH as (before & after & Hxs & Hbefore & Hafter).
    destruct (by_key_descending x y <=? 0) eqn:Hcmp; unfold by_key_descending in Hcmp.
    + apply Z.leb_le in Hcmp. exists [], xs. repeat split; [constructor |].
      subst xs. apply Forall_app. split.
      * eapply List.Forall_impl; [| exact Hbefore]. intros z Hz; cbv beta in *; lia.
      * constructor; [lia |].
        eapply List.Forall_impl; [| exact Hafter]. intros z Hz; cbv beta in *; lia.
    + apply Z.leb_gt in Hcmp. exists (x :: before), after. subst xs.
      repeat split; [| exact Hafter]. constructor; [lia | exact Hbefore].
Qed.
End Sorting.

Lemma filter_all {A} (l : list A) : filter (fun _ : A => true = true) l = l.
Proof.
  induction l as [| x xs IH]; [reflexivity |].
  rewrite filter_cons_True by reflexivity. now rewrite IH.
Qed.

(** The pool [select_latest] builds is the one the specification words. *)
Lemma select_latest_pool h c releases :
  select_latest h c releases
  = head (array_sort (fun left right => release_time h right - release_time h left)
            (selection_pool c releases)).
Proof.
  unfold select_latest, selection_pool.
  destruct (allowPrerelease c).
  - rewrite filter_all. now destruct (nonempty _).
  - rewrite (list_filter_iff _ (fun r => prerelease r = false)); [reflexivity |].
    intros r. destruct (prerelease r); simpl; split; congruence.
Qed.

(** The sort key of the code is the timestamp the specification
    describes. *)
Lemma release_time_timestamp h r : release_time h r = timestamp h r.
Proof.
  unfold release_time, timestamp, timestamp_text, str_or.
  destruct (published_at r), (created_at r); cbn [is_empty];
    destruct (Date_parse h _); reflexivity.
Qed.

Lemma newest_to_oldest_by_release_time h l :
  StronglySorted (fun a b => release_time h b <= release_time h a) l ->
  newest_to_oldest h l.
Proof.
  unfold newest_to_oldest.
  induction 1 as [| a l Hl IH Ha]; constructor; [exact IH |].
  eapply List.Forall_impl; [| exact Ha].
  intros b Hb. cbv beta in *. now rewrite <- !release_time_timestamp.
Qed.

Lemma newest_first_by_release_time h pool result :
  match result with
  | None => pool = []
  | Some r =>
      exists before after,
        pool = before ++ r :: after
        /\ Forall (fun x => release_time h x < release_time h r) before
        /\ Forall (fun x => release_time h x <= release_time h r) after
  end ->
  newest_first h pool result.
Proof.
  unfold newest_first. destruct result as [r |]; [| auto].
  intros (before & after & Hpool & Hbefore & Hafter).
  exists before, after. split; [exact Hpool |].
  split; (eapply List.Forall_impl; [| eassumption]);
    intros x Hx; cbv beta in *; now rewrite <- !release_time_timestamp.
Qed.

(** C7. When the release index answers with an array, the release
    returned is taken from the pool the specification describes (drafts
    removed, prereleases removed unless allowed, prereleases kept when
    nothing else is left).  The pool is sorted newest to oldest by
    [timestamp]: the published time of a release, or for a release
    without one its created time, a text that names no time counting as
    the epoch, 0.  The release returned is the first of the sorted pool,
    which is the first release of the pool with the latest timestamp, or
    nothing when the pool is empty. *)
Theorem fetchLatestGitHubRelease_selects (h : Host) (w : World) (st : AppState)
    (status_code : Z) (items : list (option Release)) :
  fetch_available h = true ->
  releases_fetch w = ReleasesResponse true status_code (ReleaseArray items) ->
  exists sorted,
    Permutation (selection_pool (updateConfig st) items) sorted
    /\ newest_to_oldest h sorted
    /\ snd (fetchLatestGitHubRelease h w st) = inr (head sorted)
    /\ newest_first h (selection_pool (updateConfig st) items) (head sorted).
Proof.
  intros Hfetch Hresponse.
  exists (array_sort (fun left right => release_time h right - release_time h left)
            (selection_pool (updateConfig st) items)).
  split; [apply array_sort_perm |].
  split; [apply newest_to_oldest_by_release_time, (array_sort_sorted (release_time h)) |].
  split.
  - unfold fetchLatestGitHubRelease. rewrite Hfetch, Hresponse. cbn.
    now rewrite select_latest_pool.
  - apply newest_first_by_release_time, (head_array_sort_first_max (release_time h)).
Qed.

(** Three indexes.  In the first the newest release that is neither a
    draft nor a prerelease is v1.3.0.  In the second the release that
    has only a [createdAt], in March, is returned: the one listed first
    has a created time in March too, but a published time in January,
    and the one listed second has a [createdAt] in March, but a
    [created_at] in February.  In the third the release whose published
    time is no date counts as 0 and is returned ahead of the release
    from one millisecond before the epoch, which is listed first. *)
Lemma fetchLatestGitHubRelease_selects_witness :
  fetch_available demo_host = true
  /\ releases_fetch demo_world = ReleasesResponse true 200 (ReleaseArray demo_releases)
  /\ snd (fetchLatestGitHubRelease demo_host demo_world (initial_state demo_host))
     = inr (Some (demo_release "v1.3.0" false false "2024-02-03T00:00:00Z"))
  /\ (exists sorted,
       Permutation (selection_pool (updateConfig (initial_state demo_host)) demo_releases) sorted
       /\ newest_to_oldest demo_host sorted
       /\ snd (fetchLatestGitHubRelease demo_host demo_world (initial_state demo_host))
          = inr (head sorted)
       /\ newest_first demo_host
            (selection_pool (updateConfig (initial_state demo_host)) demo_releases)
            (head sorted))
  /\ releases_fetch world_dated = ReleasesResponse true 200 (ReleaseArray dated_releases)
  /\ snd (fetchLatestGitHubRelease demo_host world_dated (initial_state demo_host))
     = inr (Some (dated_release "created-in-march" "" "" "2024-03-04T00:00:00Z"))
  /\ map (timestamp demo_host) (selection_pool (updateConfig (initial_state demo_host))
                                  dated_releases)
     = [1704153600000; 1706918400000; 1709510400000; 0; -1]
  /\ (exists sorted,
       Permutation (selection_pool (updateConfig (initial_state demo_host)) dated_releases)
         sorted
       /\ newest_to_oldest demo_host sorted
       /\ snd (fetchLatestGitHubRelease demo_host world_dated (initial_state demo_host))
          = inr (head sorted)
       /\ newest_first demo_host
            (selection_pool (updateConfig (initial_state demo_host)) dated_releases)
            (head sorted))
  /\ releases_fetch world_epoch = ReleasesResponse true 200 (ReleaseArray epoch_releases)
  /\ snd (fetchLatestGitHubRelease demo_host world_epoch (initial_state demo_host))
     = inr (Some (dated_release "unreadable" "not a date" "2024-03-04T00:00:00Z" ""))
  /\ map (timestamp demo_host) (selection_pool (updateConfig (initial_state demo_host))
                                  epoch_releases)
     = [-1; 0]
  /\ (exists sorted,
       Permutation (selection_pool (updateConfig (initial_state demo_host)) epoch_releases)
         sorted
       /\ newest_to_oldest demo_host sorted
       /\ snd (fetchLatestGitHubRelease demo_host world_epoch (initial_state demo_host))
          = inr (head sorted)
       /\ newest_first demo_host
            (selection_pool (updateConfig (initial_state demo_host)) epoch_releases)
            (head sorted)).
Proof.
  split; [reflexivity |]. split; [reflexivity |]. split; [vm_compute; reflexivity |].
  split.
  { apply (fetchLatestGitHubRelease_selects demo_host demo_world (initial_state demo_host)
             200 demo_releases); reflexivity. }
  split; [reflexivity |]. split; [vm_compute; reflexivity |].
  split; [vm_compute; reflexivity |].
  split.
  { apply (fetchLatestGitHubRelease_selects demo_host world_dated (initial_state demo_host)
             200 dated_releases); reflexivity. }
  split; [reflexivity |]. split; [vm_compute; reflexivity |].
  split; [vm_compute; reflexivity |].
  apply (fetchLatestGitHubRelease_selects demo_host world_epoch (initial_state demo_host)
           200 epoch_releases); reflexivity.
Defined.

(** ** Artifact fetcher *)

Lemma string_length_append (a b : string) :
  String.length (a +:+ b) = (String.length a + String.length b)%nat.
Proof. induction a as [| c a IH]; simpl; [reflexivity | now rewrite IH]. Qed.

Lemma temp_path_differs (targetPath : string) : targetPath +:+ ".download" <> targetPath.
Proof.
  intros Heq. apply (f_equal String.length) in Heq.
  rewrite string_length_append in Heq. simpl in Heq. lia.
Qed.

Lemma pipeline_writes_temp flt stream tempPath fs fs1 piped :
  pipeline flt stream tempPath fs = (fs1, piped) ->
  exists data,
    fs1 = <[tempPath := data]> fs
    /\ (piped = None -> data = String.concat "" (chunks stream) /\ stream_error stream = None).
Proof.
  unfold pipeline. intros Hpipe.
  destruct (write_fails_after flt) as [k |]; [destruct (Nat.ltb k _) |];
    injection Hpipe as <- <-; eexists; (split; [reflexivity |]);
    intros Hnone; first [discriminate Hnone | split; [reflexivity | exact Hnone]].
Qed.



(** ** Update orchestrator *)

Lemma fetchLatestGitHubRelease_answer h w st :
  fetchLatestGitHubRelease h w st
  = (if fetch_available h
     then with_requests_sent (requests_sent st ++ [resolveGitHubReleasesApiURL h]) st
     else st,
     release_answer h w (updateConfig st)).
Proof.
  unfold release_answer, fetchLatestGitHubRelease.
  destruct (fetch_available h); cbn [negb]; [| reflexivity].
  destruct (releases_fetch w) as [reason | ok status_code payload]; [reflexivity |].
  destruct ok; cbn [negb]; [| reflexivity].
  destruct payload; reflexivity.
Qed.

Lemma release_answer_fetch_available h w c release :
  release_answer h w c = inr release -> fetch_available h = true.
Proof.
  unfold release_answer, fetchLatestGitHubRelease.
  destruct (fetch_available h); [reflexivity | discriminate].
Qed.

Lemma parts_nonempty_version v : parseVersionParts v <> [] -> is_empty v = false.
Proof.
  intros Hparts. destruct v; [| reflexivity]. exfalso. apply Hparts. reflexivity.
Qed.

Lemma length_positive {A} (l : list A) : l <> [] -> Nat.ltb 0 (length l) = true.
Proof. destruct l; [congruence | reflexivity]. Qed.

Lemma is_empty_false s : s <> "" -> is_empty s = false.
Proof. destruct s; [congruence | reflexivity]. Qed.

(** C8. When the latest release and the running version both have a
    numeric part and the running version is not below the release, the
    check ends in [idle] with the message "You are already on version
    ...", shows the version of the remote tag as available and as
    downloaded, and sends no request besides the one to the release
    index: nothing is downloaded, no file and no metadata changes. *)
Theorem check_up_to_date (h : Host) (w : World) (opts : CheckOptions) (st : AppState)
    (release : Release) :
  release_answer h w (updateConfig st) = inr (Some release) ->
  tag_name release <> "" ->
  parseVersionParts (remote_version release) <> [] ->
  parseVersionParts (current_version h) <> [] ->
  0 <= compareVersions (current_version h) (remote_version release) ->
  let result := checkGitHubReleaseZipUpdate h w opts st in
  snd result = UpToDate (trim (tag_name release)) (filePath (githubUpdateMetadata st))
  /\ status (updateStatus (fst result)) = idle
  /\ message (updateStatus (fst result))
     = "You are already on version " +:+ appVersion h +:+ "."
  /\ availableVersion (updateStatus (fst result)) = Some (remote_version release)
  /\ downloadedVersion (updateStatus (fst result)) = Some (remote_version release)
  /\ requests_sent (fst result) = requests_sent st ++ [resolveGitHubReleasesApiURL h]
  /\ files (fst result) = files st
  /\ githubUpdateMetadata (fst result) = githubUpdateMetadata st.
Proof.
  intros Hanswer Htag Hremote Hcurrent Hcompare result. subst result.
  pose proof (release_answer_fetch_available _ _ _ _ Hanswer) as Hfetch.
  unfold checkGitHubReleaseZipUpdate.
  rewrite fetchLatestGitHubRelease_answer, Hfetch.
  cbn [updateConfig setUpdateStatus with_updateStatus]. rewrite Hanswer.
  rewrite (is_empty_false _ Htag).
  fold (remote_version release). fold (current_version h).
  rewrite (length_positive _ Hremote), (length_positive _ Hcurrent).
  assert (Hle : (compareVersions (remote_version release) (current_version h) <=? 0) = true).
  { apply Z.leb_le. rewrite compareVersions_antisym. lia. }
  rewrite Hle. cbn [andb fst snd].
  unfold str_or. rewrite (parts_nonempty_version _ Hremote).
  repeat split.
Qed.

Lemma check_up_to_date_witness :
  let result :=
    checkGitHubReleaseZipUpdate demo_host world_same_version check_and_download
      (initial_state demo_host) in
  snd result = UpToDate "v1.2.0" ""
  /\ status (updateStatus (fst result)) = idle
  /\ message (updateStatus (fst result)) = "You are already on version 1.2.0."
  /\ availableVersion (updateStatus (fst result)) = Some "1.2.0"
  /\ downloadedVersion (updateStatus (fst result)) = Some "1.2.0"
  /\ requests_sent (fst result) = [GITHUB_RELEASES_API_URL]
  /\ files (fst result) = ∅
  /\ githubUpdateMetadata (fst result) = createInitialGitHubUpdateMetadata.
Proof.
  apply (check_up_to_date demo_host world_same_version check_and_download
           (initial_state demo_host)
           (demo_release "v1.2.0" false false "2024-01-02T00:00:00Z")).
  - vm_compute. reflexivity.
  - discriminate.
  - vm_compute. discriminate.
  - vm_compute. discriminate.
  - vm_compute. discriminate.
Defined.

(** The claim as the specification words it fails: for the remote tag
    v1.2.0 the check records 1.2.0, the version of the tag, not the tag,
    as the available and as the downloaded version. *)
Lemma up_to_date_records_version_not_tag :
  ~ up_to_date_records_tag demo_host world_same_version check_and_download
      (initial_state demo_host).
Proof.
  intros Hclaim.
  destruct (Hclaim (demo_release "v1.2.0" false false "2024-01-02T00:00:00Z"))
    as [Havailable _].
  - vm_compute. reflexivity.
  - discriminate.
  - vm_compute. discriminate.
  - vm_compute. discriminate.
  - vm_compute. discriminate.
  - vm_compute in Havailable. discriminate Havailable.
Qed.

Lemma writeJsonFile_is_Some h flt filePath_ value fs p :
  is_Some (fs !! p) -> is_Some (writeJsonFile h flt filePath_ value fs !! p).
Proof.
  intros Hsome. unfold writeJsonFile.
  destruct (store_write flt (path_string filePath_)); [| exact Hsome |];
    (destruct (decide (path_string filePath_ = p)) as [<- | Hne];
     [rewrite lookup_insert_eq; eauto | now rewrite lookup_insert_ne]).
Qed.

Lemma writeJsonFile_other h flt filePath_ value fs p :
  p <> path_string filePath_ -> writeJsonFile h flt filePath_ value fs !! p = fs !! p.
Proof.
  intros Hne. unfold writeJsonFile.
  destruct (store_write flt (path_string filePath_)); [| reflexivity |];
    now rewrite lookup_insert_ne.
Qed.

Lemma writeJsonFile_written h flt filePath_ value fs :
  store_write flt (path_string filePath_) = store_written ->
  writeJsonFile h flt filePath_ value fs !! path_string filePath_
  = Some (JSON_stringify h value).
Proof. intros Hwritten. unfold writeJsonFile. rewrite Hwritten. apply lookup_insert_eq. Qed.

Lemma existsSync_writeJsonFile h flt filePath_ value fs p :
  existsSync p fs = true -> existsSync p (writeJsonFile h flt filePath_ value fs) = true.
Proof.
  unfold existsSync. intros Hexists.
  apply bool_decide_eq_true_2, writeJsonFile_is_Some.
  exact (bool_decide_eq_true_1 _ Hexists).
Qed.

Lemma downloadGitHubAssetToPath_success h w assetURL targetPath st st' result :
  downloadGitHubAssetToPath h w assetURL targetPath st = (st', inr result) ->
  result_filePath result = targetPath
  /\ is_Some (files st' !! targetPath)
  /\ requests_sent st' = requests_sent st ++ [assetURL]
  /\ githubUpdateMetadata st' = githubUpdateMetadata st
  /\ updateConfig st' = updateConfig st.
Proof.
  unfold downloadGitHubAssetToPath. intros Hdl.
  repeat case_match; simplify_eq.
  cbn [result_filePath files with_files].
  split; [reflexivity |]. split; [eauto |]. repeat split.
Qed.

(** What a check that ends in a download has seen and done. *)
Lemma check_downloaded_inv h w opts st st1 tag fp size page :
  checkGitHubReleaseZipUpdate h w opts st = (st1, Downloaded tag fp size page) ->
  exists release asset_,
    release_answer h w (updateConfig st) = inr (Some release)
    /\ is_empty (tag_name release) = false
    /\ tag = trim (tag_name release)
    /\ already_current h release = false
    /\ findReleaseAsset release (resolveGitHubUpdateAssetName h) = Some asset_
    /\ is_empty (browser_download_url asset_) = false
    /\ page = str_or (html_url release) (resolveGitHubTagsPageURL h)
    /\ fp = path_string (resolveGitHubUpdateTargetPath h tag)
    /\ is_Some (files st1 !! fp)
    /\ lastTag (githubUpdateMetadata st1) = tag
    /\ filePath (githubUpdateMetadata st1) = fp
    /\ lastAppliedTag (githubUpdateMetadata st1) = lastAppliedTag (githubUpdateMetadata st)
    /\ updateConfig st1 = updateConfig st
    /\ requests_sent st1
       = requests_sent st ++ [resolveGitHubReleasesApiURL h; browser_download_url asset_].
Proof.
  unfold checkGitHubReleaseZipUpdate. intros Hcheck.
  rewrite fetchLatestGitHubRelease_answer in Hcheck.
  cbn [updateConfig setUpdateStatus with_updateStatus] in Hcheck.
  destruct (release_answer h w (updateConfig st)) as [reason | [release |]] eqn:Hanswer;
    try discriminate Hcheck.
  rewrite (release_answer_fetch_available _ _ _ _ Hanswer) in Hcheck.
  destruct (is_empty (tag_name release)) eqn:Htag; [discriminate Hcheck |].
  match type of Hcheck with
  | context [if ?b then _ else _] =>
      change b with (already_current h release) in Hcheck
  end.
  destruct (already_current h release) eqn:Hcurrent; [discriminate Hcheck |].
  destruct (findReleaseAsset release _) as [asset_ |] eqn:Hasset; [| discriminate Hcheck].
  destruct (is_empty (browser_download_url asset_)) eqn:Hurl; [discriminate Hcheck |].
  destruct (_ && negb (forceDownload opts)); [discriminate Hcheck |].
  destruct (negb (download opts)); [discriminate Hcheck |].
  destruct (downloadGitHubAssetToPath _ _ _ _ _) as [st4 outcome] eqn:Hdl.
  destruct outcome as [reason | result]; [discriminate Hcheck |].
  apply downloadGitHubAssetToPath_success in Hdl
    as (Hpath & Hfile & Hrequests & Hmeta & Hconfig).
  injection Hcheck as <- <- <- <- <-.
  exists release, asset_.
  cbn [githubUpdateMetadata updateConfig requests_sent files setUpdateStatus with_updateStatus
       with_githubUpdateMetadata with_requests_sent lastTag filePath lastAppliedTag
       persistGitHubUpdateMetadata with_files] in *.
  rewrite Hpath, Hmeta, Hconfig, Hrequests, <- app_assoc.
  repeat split; try assumption; try reflexivity.
  now apply writeJsonFile_is_Some.
Qed.

Lemma release_answer_same_index h w w' c :
  releases_fetch w' = releases_fetch w -> release_answer h w' c = release_answer h w c.
Proof.
  intros Hsame. unfold release_answer, fetchLatestGitHubRelease. now rewrite Hsame.
Qed.

Lemma path_string_nonempty p : is_empty (path_string p) = false.
Proof. destruct p as [| a [| b l]]; reflexivity. Qed.

Lemma existsSync_true p fs : is_Some (fs !! p) -> existsSync p fs = true.
Proof. intros Hsome. unfold existsSync. now apply bool_decide_eq_true_2. Qed.

(** C3, as the code has it.  First part: after a check that downloaded the
    archive of a tag, a second check that finds the same release index
    and is not forced sends one request, to the release index, and no
    download request; it returns [alreadyDownloaded] with the same tag,
    file and release page, with status [idle] when the tag is the last
    one applied and [downloaded] otherwise, and changes neither files nor
    metadata.  Second part: a non-manual apply for a non-empty tag equal
    to [lastAppliedTag] never applies again and leaves the state as it
    is; it reports success ([skipped], [already-applied]) when the
    platform is Windows and the archive exists, and the failure of the
    platform or archive check otherwise. *)
Theorem update_check_idempotent (h : Host) :
  (forall w w' opts opts' st st1 tag fp size page,
     checkGitHubReleaseZipUpdate h w opts st = (st1, Downloaded tag fp size page) ->
     releases_fetch w' = releases_fetch w ->
     forceDownload opts' = false ->
     let applied := negb (is_empty tag) && String.eqb (lastAppliedTag (githubUpdateMetadata st1)) tag in
     let second := checkGitHubReleaseZipUpdate h w' opts' st1 in
     snd second = AlreadyDownloaded applied tag fp page
     /\ status (updateStatus (fst second)) = (if applied then idle else downloaded)
     /\ (exists assetURL,
           requests_sent st1 = requests_sent st ++ [resolveGitHubReleasesApiURL h; assetURL]
           /\ requests_sent (fst second)
              = requests_sent st ++ [resolveGitHubReleasesApiURL h; assetURL;
                                     resolveGitHubReleasesApiURL h])
     /\ files (fst second) = files st1
     /\ githubUpdateMetadata (fst second) = githubUpdateMetadata st1)
  /\ (forall w options st,
        let tag := trim (default (lastTag (githubUpdateMetadata st)) (apply_tag options)) in
        let zipPath := trim (default (filePath (githubUpdateMetadata st)) (apply_zipPath options)) in
        apply_manual options = false ->
        tag <> "" ->
        lastAppliedTag (githubUpdateMetadata st) = tag ->
        fst (applyGitHubReleaseZipUpdate h w options st) = st
        /\ snd (applyGitHubReleaseZipUpdate h w options st)
           = (if negb (String.eqb (platform h) "win32") then
                ApplyFailed "Automatic ZIP apply is currently implemented for Windows only."
              else if is_empty zipPath || negb (existsSync zipPath (files st)) then
                ApplyFailed "No downloaded update.zip was found to apply."
              else ApplySkipped tag)).
Proof.
  split.
  - intros w w' opts opts' st st1 tag fp size page Hfirst Hsame Hforce applied second.
    subst applied second.
    apply check_downloaded_inv in Hfirst
      as (release & asset_ & Hanswer & Htag & -> & Hcurrent & Hasset & Hurl & -> & -> & Hfile
          & Hlast & Hpath & _ & Hconfig & Hrequests).
    pose proof (release_answer_fetch_available _ _ _ _ Hanswer) as Hfetch.
    unfold checkGitHubReleaseZipUpdate.
    rewrite fetchLatestGitHubRelease_answer, Hfetch.
    cbn [updateConfig setUpdateStatus with_updateStatus].
    rewrite (release_answer_same_index _ _ _ _ Hsame), Hconfig, Hanswer, Htag.
    match goal with
    | |- context [if ?b then _ else _] => change b with (already_current h release)
    end.
    rewrite Hcurrent, Hasset, Hurl.
    cbn [githubUpdateMetadata files with_requests_sent with_updateStatus setUpdateStatus].
    rewrite Hlast, Hpath, String.eqb_refl, path_string_nonempty, (existsSync_true _ _ Hfile),
      Hforce.
    cbn [negb andb fst snd].
    split; [reflexivity |]. split; [now destruct (_ && _) |].
    split; [| split; reflexivity].
    exists (browser_download_url asset_). split; [exact Hrequests |].
    cbn [requests_sent setUpdateStatus with_updateStatus with_requests_sent].
    rewrite Hrequests, <- app_assoc. reflexivity.
  - intros w options st tag zipPath Hmanual Htag Hlast. subst tag zipPath.
    unfold applyGitHubReleaseZipUpdate.
    destruct (negb (String.eqb (platform h) "win32")); [now split |].
    destruct (_ || _); [now split |].
    rewrite Hmanual, Hlast, String.eqb_refl, (is_empty_false _ Htag).
    now split.
Qed.

Lemma update_check_idempotent_witness :
  (let second :=
     checkGitHubReleaseZipUpdate demo_host demo_world check_and_download state_after_download in
   snd second
   = AlreadyDownloaded false "v1.3.0" demo_target
       "https://github.com/Zombiegoblin4/Bastion-Browser/releases/tag/v1.3.0"
   /\ status (updateStatus (fst second)) = downloaded
   /\ requests_sent (fst second)
      = [GITHUB_RELEASES_API_URL; "https://example.invalid/v1.3.0/update.zip";
         GITHUB_RELEASES_API_URL]
   /\ files (fst second) = files state_after_download)
  /\ applyGitHubReleaseZipUpdate demo_host demo_world apply_again state_after_install
     = (state_after_install, ApplySkipped "v1.3.0").
Proof.
  destruct (update_check_idempotent demo_host) as [Hcheck Happly].
  split.
  - destruct (Hcheck demo_world demo_world check_and_download check_and_download
                (initial_state demo_host) state_after_download "v1.3.0" demo_target 9
                "https://github.com/Zombiegoblin4/Bastion-Browser/releases/tag/v1.3.0")
      as (Hresult & Hstatus & (assetURL & _ & Hrequests) & Hfiles & _);
      [vm_compute; reflexivity | reflexivity | reflexivity |].
    cbv zeta. split; [exact Hresult |]. split; [exact Hstatus |].
    split; [| exact Hfiles]. vm_compute. reflexivity.
  - destruct (Happly demo_world apply_again state_after_install) as [Hstate Hresult];
      [reflexivity | vm_compute; discriminate | vm_compute; reflexivity |].
    rewrite (surjective_pairing (applyGitHubReleaseZipUpdate _ _ _ _)), Hstate, Hresult.
    vm_compute. reflexivity.
Defined.

(** The second part of the claim as the specification words it fails in
    three ways: without the archive on disk, and off Windows, the call
    reports a failure; with a blank tag it goes on to apply. *)
Lemma repeated_apply_not_always_noop_success :
  ~ repeated_apply_is_noop_success demo_host demo_world apply_again state_archive_removed
  /\ ~ repeated_apply_is_noop_success linux_host demo_world apply_again state_after_install
  /\ ~ repeated_apply_is_noop_success demo_host demo_world apply_untagged state_after_download.
Proof.
  repeat split; intros Hclaim.
  - assert (Hresult : snd (applyGitHubReleaseZipUpdate demo_host demo_world apply_again
                             state_archive_removed) = ApplySkipped "v1.3.0").
    { rewrite Hclaim; [vm_compute; reflexivity | reflexivity | vm_compute; reflexivity]. }
    vm_compute in Hresult. discriminate Hresult.
  - assert (Hresult : snd (applyGitHubReleaseZipUpdate linux_host demo_world apply_again
                             state_after_install) = ApplySkipped "v1.3.0").
    { rewrite Hclaim; [vm_compute; reflexivity | reflexivity | vm_compute; reflexivity]. }
    vm_compute in Hresult. discriminate Hresult.
  - assert (Hresult : snd (applyGitHubReleaseZipUpdate demo_host demo_world apply_untagged
                             state_after_download) = ApplySkipped "").
    { rewrite Hclaim; [vm_compute; reflexivity | reflexivity | vm_compute; reflexivity]. }
    vm_compute in Hresult. discriminate Hresult.
Qed.

(** * Further properties *)

(** ** Request interception *)

Lemma getHostnameFromUrl_unparseable h u : URL_parse h u = None -> getHostnameFromUrl h u = "".
Proof. unfold getHostnameFromUrl, toUrlObject. now intros ->. Qed.

(** X1. A request whose URL does not parse is handed on untouched,
    whatever the configuration: it is neither cancelled nor redirected,
    and no counter moves. *)
Theorem onBeforeRequest_fail_open (h : Host) (c : PrivacyConfig) (details : RequestDetails)
    (stats : PrivacyStats) :
  URL_parse h (url details) = None ->
  onBeforeRequest h c details stats = (stats, PassThrough).
Proof.
  intros Hparse. unfold onBeforeRequest, shouldBlockTrackerRequest, shouldUpgradeToHttps,
    toUrlObject.
  rewrite (getHostnameFromUrl_unparseable _ _ Hparse), Hparse.
  cbn [is_empty orb].
  destruct (negb (blockTrackers c)); cbn [andb]; [now rewrite andb_false_r |].
  destruct (negb (set_has _ _)); now rewrite andb_false_r.
Qed.

Lemma onBeforeRequest_fail_open_witness :
  URL_parse demo_host (url unparseable_request) = None
  /\ onBeforeRequest demo_host DEFAULT_PRIVACY_CONFIG unparseable_request
       (createEmptyPrivacyStats demo_host)
     = (createEmptyPrivacyStats demo_host, PassThrough).
Proof.
  split; [reflexivity |].
  apply (onBeforeRequest_fail_open demo_host DEFAULT_PRIVACY_CONFIG unparseable_request).
  reflexivity.
Defined.

(** X2. A main-frame navigation is never cancelled, even to a tracker
    host from another site; and with [blockTrackers] off nothing is
    cancelled at all. *)
Theorem onBeforeRequest_never_cancels_navigation (h : Host) (c : PrivacyConfig)
    (details : RequestDetails) (stats : PrivacyStats) :
  resourceType details = "mainFrame" \/ blockTrackers c = false ->
  snd (onBeforeRequest h c details stats) <> Cancel
  /\ blockedRequests (fst (onBeforeRequest h c details stats)) = blockedRequests stats.
Proof.
  intros Hcase.
  assert (Hblock : shouldBlockTrackerRequest h c details = false).
  { unfold shouldBlockTrackerRequest. destruct Hcase as [-> | ->]; [| reflexivity].
    destruct (negb (blockTrackers c)); reflexivity. }
  unfold onBeforeRequest. rewrite Hblock.
  destruct (_ && _); [destruct (negb _) |]; cbn; split; (discriminate || reflexivity).
Qed.

Lemma onBeforeRequest_never_cancels_navigation_witness :
  shouldBlockTrackerRequest demo_host DEFAULT_PRIVACY_CONFIG
    {| url := url tracker_navigation; resourceType := "script";
       initiator := initiator tracker_navigation; requestHeaders := [] |} = true
  /\ snd (onBeforeRequest demo_host DEFAULT_PRIVACY_CONFIG tracker_navigation
            (createEmptyPrivacyStats demo_host)) <> Cancel.
Proof.
  split; [vm_compute; reflexivity |].
  apply (onBeforeRequest_never_cancels_navigation demo_host DEFAULT_PRIVACY_CONFIG
           tracker_navigation).
  left. reflexivity.
Defined.

(** X3. A redirect only ever swaps the scheme: the request URL starts
    with [http://] in some capitalisation, the target is [https://]
    followed by the rest of the URL, the host is neither a loopback name
    nor under [.localhost] nor a dotted quad, and [upgradedToHttps] grows
    by one while [blockedRequests] stays. *)
Theorem onBeforeRequest_redirect_shape (h : Host) (c : PrivacyConfig) (details : RequestDetails)
    (stats : PrivacyStats) (target : string) :
  snd (onBeforeRequest h c details stats) = RedirectTo target ->
  upgradeHttps c = true
  /\ toLowerCase (substring 0 7 (url details)) = "http://"
  /\ target = "https://" +:+ substring 7 (String.length (url details) - 7) (url details)
  /\ target <> url details
  /\ (exists parsed,
        URL_parse h (url details) = Some parsed
        /\ protocol parsed = "http:"
        /\ set_has LOOPBACK_HOSTS (toLowerCase (hostname parsed)) = false
        /\ endsWith (toLowerCase (hostname parsed)) ".localhost" = false
        /\ is_dotted_quad (toLowerCase (hostname parsed)) = false)
  /\ upgradedToHttps (fst (onBeforeRequest h c details stats)) = upgradedToHttps stats + 1
  /\ blockedRequests (fst (onBeforeRequest h c details stats)) = blockedRequests stats.
Proof.
  unfold onBeforeRequest.
  destruct (shouldBlockTrackerRequest h c details); [discriminate |].
  destruct (upgradeHttps c); cbn [andb]; [| discriminate].
  destruct (shouldUpgradeToHttps h (url details)) eqn:Hupgrade; [| discriminate].
  destruct (negb (String.eqb (upgrade_scheme (url details)) (url details))) eqn:Hchanged;
    [| discriminate].
  cbn [fst snd]. intros [= <-].
  apply negb_true_iff, String.eqb_neq in Hchanged.
  unfold upgrade_scheme in *.
  destruct (String.eqb (toLowerCase (substring 0 7 (url details))) "http://") eqn:Hscheme;
    [| congruence].
  apply String.eqb_eq in Hscheme.
  split; [reflexivity |]. split; [exact Hscheme |]. split; [reflexivity |].
  split; [exact Hchanged |]. split; [| split; reflexivity].
  unfold shouldUpgradeToHttps, toUrlObject in Hupgrade.
  destruct (URL_parse h (url details)) as [parsed |]; [| discriminate].
  exists parsed. split; [reflexivity |].
  destruct (String.eqb (protocol parsed) "http:") eqn:Hprotocol; cbn [negb] in Hupgrade;
    [| discriminate].
  apply String.eqb_eq in Hprotocol.
  destruct (is_empty _); cbn [orb] in Hupgrade; [discriminate |].
  destruct (set_has LOOPBACK_HOSTS _); cbn [orb] in Hupgrade; [discriminate |].
  destruct (endsWith _ _); [discriminate |].
  destruct (is_dotted_quad _); [discriminate |].
  repeat split; assumption.
Qed.

Lemma onBeforeRequest_redirect_shape_witness :
  snd (onBeforeRequest demo_host DEFAULT_PRIVACY_CONFIG plain_http_request
         (createEmptyPrivacyStats demo_host)) = RedirectTo "https://example.com/page"
  /\ upgradedToHttps
       (fst (onBeforeRequest demo_host DEFAULT_PRIVACY_CONFIG plain_http_request
               (createEmptyPrivacyStats demo_host))) = 1.
Proof.
  split; [vm_compute; reflexivity |].
  destruct (onBeforeRequest_redirect_shape demo_host DEFAULT_PRIVACY_CONFIG plain_http_request
              (createEmptyPrivacyStats demo_host) "https://example.com/page")
    as (_ & _ & _ & _ & _ & Hcount & _); [vm_compute; reflexivity |].
  exact Hcount.
Defined.

(** ** Header mutation *)

Lemma toLowerCase_length s : String.length (toLowerCase s) = String.length s.
Proof.
  unfold toLowerCase, unchars, chars.
  induction s as [| c s IH]; simpl; [reflexivity | now rewrite IH].
Qed.

Lemma toLowerCase_empty s : toLowerCase s = "" -> s = "".
Proof.
  intros Hlow. apply (f_equal String.length) in Hlow.
  rewrite toLowerCase_length in Hlow. destruct s; [reflexivity | discriminate Hlow].
Qed.

Lemma setHeader_key_name headers name :
  toLowerCase (str_or (default "" (findHeaderKey headers name)) name) = toLowerCase name.
Proof.
  destruct (findHeaderKey headers name) as [key |] eqn:Hfind; simpl; [| reflexivity].
  unfold str_or. destruct (is_empty key); [reflexivity |].
  exact (findHeaderKey_same_name _ _ _ Hfind).
Qed.

Lemma header_value_setHeader_same headers name value :
  header_value (setHeader headers name value) name = Some value.
Proof.
  unfold setHeader, header_value.
  induction headers as [| [k x] rest IH]; cbn [findHeaderKey default object_set].
  - cbn [str_or is_empty find fst]. now rewrite String.eqb_refl.
  - destruct (String.eqb (toLowerCase k) (toLowerCase name)) eqn:Hk.
    + cbn [default from_option id]. unfold str_or, id. destruct (is_empty k) eqn:Hempty.
      * destruct k; [| discriminate Hempty].
        apply String.eqb_eq in Hk. symmetry in Hk. apply toLowerCase_empty in Hk. subst name.
        reflexivity.
      * rewrite String.eqb_refl. cbn [find fst fmap option_fmap option_map]. now rewrite Hk.
    + pose proof (setHeader_key_name rest name) as Hkey.
      destruct (String.eqb k _) eqn:Hsame.
      * apply String.eqb_eq in Hsame. rewrite <- Hsame in Hkey.
        apply String.eqb_neq in Hk. contradiction.
      * cbn [find fst]. rewrite Hk. exact IH.
Qed.

Lemma names_unique_tail k x rest : names_unique ((k, x) :: rest) -> names_unique rest.
Proof. unfold names_unique. cbn [map fst findHeaderKey object_set app]. now intros H%NoDup_cons_1_2. Qed.

Lemma names_unique_head k x rest name :
  names_unique ((k, x) :: rest) ->
  toLowerCase k = toLowerCase name ->
  forall key, header_value (object_delete rest key) name = None.
Proof.
  unfold names_unique. cbn [map fst findHeaderKey object_set app]. intros [Hnotin _]%NoDup_cons Hk key.
  unfold header_value, object_delete. rewrite Hk in Hnotin.
  induction rest as [| [k' x'] rest IH]; [reflexivity |].
  rewrite filter_cons. cbn [fst map] in *.
  assert (Hne : String.eqb (toLowerCase k') (toLowerCase name) = false).
  { apply String.eqb_neq. intros Heq. apply Hnotin. rewrite Heq. left. }
  assert (Hrest : toLowerCase name ∉ map (fun kv => toLowerCase (fst kv)) rest).
  { intros Hin. apply Hnotin. now right. }
  destruct (decide _); [cbn [find fst]; rewrite Hne |]; now apply IH.
Qed.

Lemma header_value_removeHeader_same headers name :
  names_unique headers ->
  name <> "" ->
  header_value (removeHeader headers name) name = None.
Proof.
  intros Hunique Hname. unfold removeHeader.
  induction headers as [| [k x] rest IH]; [reflexivity |].
  cbn [findHeaderKey].
  destruct (String.eqb (toLowerCase k) (toLowerCase name)) eqn:Hk.
  - apply String.eqb_eq in Hk.
    destruct (is_empty k) eqn:Hempty.
    + destruct k; [| discriminate Hempty]. symmetry in Hk.
      apply toLowerCase_empty in Hk. contradiction.
    + unfold object_delete. rewrite filter_cons. cbn [fst].
      rewrite String.eqb_refl. cbn [negb]. rewrite decide_False by discriminate.
      now apply (names_unique_head k x).
  - specialize (IH (names_unique_tail _ _ _ Hunique)).
    destruct (findHeaderKey rest name) as [key |] eqn:Hfind.
    + destruct (is_empty key).
      * unfold header_value in *. cbn [find fst]. now rewrite Hk.
      * unfold object_delete in *. rewrite filter_cons. cbn [fst].
        assert (Hne : String.eqb k key = false).
        { apply String.eqb_neq. intros ->.
          rewrite (findHeaderKey_same_name _ _ _ Hfind), String.eqb_refl in Hk.
          discriminate Hk. }
        rewrite Hne. cbn [negb]. rewrite decide_True by reflexivity.
        unfold header_value in *. cbn [find fst]. now rewrite Hk.
    + unfold header_value in *. cbn [find fst]. now rewrite Hk.
Qed.

Lemma names_object_delete headers key :
  names_unique headers -> names_unique (object_delete headers key).
Proof.
  unfold names_unique, object_delete.
  induction headers as [| [k x] rest IH]; [trivial |].
  cbn [map fst findHeaderKey object_set app]. intros [Hnotin Hrest]%NoDup_cons.
  rewrite filter_cons. destruct (decide _); [| now apply IH].
  cbn [map fst findHeaderKey object_set app]. apply NoDup_cons. split; [| now apply IH].
  intros Hin. apply Hnotin.
  apply list_elem_of_fmap in Hin as [kv [Heq Hin]].
  apply list_elem_of_fmap. exists kv. split; [exact Heq |].
  apply list_elem_of_filter in Hin. tauto.
Qed.

Lemma names_unique_removeHeader headers name :
  names_unique headers -> names_unique (removeHeader headers name).
Proof.
  intros Hunique. unfold removeHeader.
  destruct (findHeaderKey headers name) as [key |]; [| exact Hunique].
  destruct (is_empty key); [exact Hunique | now apply names_object_delete].
Qed.

Lemma findHeaderKey_none headers name :
  findHeaderKey headers name = None ->
  toLowerCase name ∉ map (fun kv => toLowerCase (fst kv)) headers.
Proof.
  induction headers as [| [k x] rest IH]; cbn [map fst findHeaderKey object_set app]; [intros _; apply not_elem_of_nil |].
  destruct (String.eqb _ _) eqn:Hk; [discriminate |].
  intros Hfind Hin. apply elem_of_cons in Hin as [Heq | Hin].
  - rewrite Heq, String.eqb_refl in Hk. discriminate Hk.
  - now apply IH.
Qed.

Lemma names_object_set_present headers key value :
  key ∈ map fst headers ->
  map (fun kv => toLowerCase (fst kv)) (object_set headers key value)
  = map (fun kv => toLowerCase (fst kv)) headers.
Proof.
  induction headers as [| [k x] rest IH]; cbn [map fst findHeaderKey object_set app]; [intros Hin; now apply elem_of_nil in Hin |].
  intros Hin. destruct (String.eqb k key) eqn:Hk; [reflexivity |].
  cbn [map fst findHeaderKey object_set app]. f_equal. apply IH. apply elem_of_cons in Hin as [-> | Hin]; [| exact Hin].
  rewrite String.eqb_refl in Hk. discriminate Hk.
Qed.

Lemma names_object_set_absent headers key value :
  toLowerCase key ∉ map (fun kv => toLowerCase (fst kv)) headers ->
  map (fun kv => toLowerCase (fst kv)) (object_set headers key value)
  = map (fun kv => toLowerCase (fst kv)) headers ++ [toLowerCase key].
Proof.
  induction headers as [| [k x] rest IH]; cbn [map fst findHeaderKey object_set app]; [reflexivity |].
  intros Hnotin. destruct (String.eqb k key) eqn:Hk.
  - apply String.eqb_eq in Hk. subst k. exfalso. apply Hnotin. left.
  - cbn [map fst findHeaderKey object_set app]. f_equal. apply IH. intros Hin. apply Hnotin. now right.
Qed.

Lemma findHeaderKey_present headers name key :
  findHeaderKey headers name = Some key -> key ∈ map fst headers.
Proof.
  induction headers as [| [k x] rest IH]; cbn [map fst findHeaderKey object_set app]; [discriminate |].
  destruct (String.eqb _ _).
  - intros [= ->]. left.
  - intros Hfind. right. now apply IH.
Qed.

Lemma names_unique_setHeader headers name value :
  names_unique headers -> names_unique (setHeader headers name value).
Proof.
  unfold names_unique, setHeader. intros Hunique.
  destruct (findHeaderKey headers name) as [key |] eqn:Hfind; cbn [default from_option id].
  - unfold str_or, id. destruct (is_empty key) eqn:Hempty.
    + destruct key; [| discriminate Hempty].
      pose proof (findHeaderKey_same_name _ _ _ Hfind) as Hlow. symmetry in Hlow.
      apply toLowerCase_empty in Hlow. subst name.
      rewrite names_object_set_present; [exact Hunique |].
      exact (findHeaderKey_present _ _ _ Hfind).
    + rewrite names_object_set_present; [exact Hunique |].
      exact (findHeaderKey_present _ _ _ Hfind).
  - unfold str_or. cbn [is_empty].
    pose proof (findHeaderKey_none _ _ Hfind) as Hnotin.
    rewrite names_object_set_absent by exact Hnotin.
    apply NoDup_app. split; [exact Hunique |]. split.
    + intros x Hin Hx. apply list_elem_of_singleton in Hx. now subst x.
    + apply NoDup_singleton.
Qed.

Lemma hasHeader_present headers name :
  name <> "" -> hasHeader headers name = present (header_value headers name).
Proof.
  intros Hname. unfold hasHeader, header_value.
  induction headers as [| [k x] rest IH]; [reflexivity |].
  cbn [findHeaderKey find fst].
  destruct (String.eqb (toLowerCase k) (toLowerCase name)) eqn:Hk; [| exact IH].
  cbn. destruct k; [| reflexivity].
  apply String.eqb_eq in Hk. symmetry in Hk. apply toLowerCase_empty in Hk. contradiction.
Qed.

(** X4. The header stage touches three headers only: DNT, Sec-GPC and
    Cookie.  Every other header of the request leaves with the value it
    came with, and no counter but [strippedCookieHeaders] moves. *)
Theorem onBeforeSendHeaders_other_headers (h : Host) (c : PrivacyConfig)
    (details : RequestDetails) (stats : PrivacyStats) (name : string) :
  toLowerCase name <> "dnt" ->
  toLowerCase name <> "sec-gpc" ->
  toLowerCase name <> "cookie" ->
  header_value (snd (onBeforeSendHeaders h c details stats)) name
  = header_value (requestHeaders details) name
  /\ blockedRequests (fst (onBeforeSendHeaders h c details stats)) = blockedRequests stats
  /\ upgradedToHttps (fst (onBeforeSendHeaders h c details stats)) = upgradedToHttps stats
  /\ blockedPermissions (fst (onBeforeSendHeaders h c details stats))
     = blockedPermissions stats.
Proof.
  intros Hdnt Hgpc Hcookie. unfold onBeforeSendHeaders.
  assert (Hdnt' : toLowerCase "DNT" <> toLowerCase name) by (intros Heq; now rewrite <- Heq in Hdnt).
  assert (Hgpc' : toLowerCase "Sec-GPC" <> toLowerCase name)
    by (intros Heq; now rewrite <- Heq in Hgpc).
  assert (Hcookie' : toLowerCase "Cookie" <> toLowerCase name)
    by (intros Heq; now rewrite <- Heq in Hcookie).
  set (headers1 := if sendDoNotTrack c then _ else _).
  set (headers2 := if sendGlobalPrivacyControl c then _ else _).
  assert (H1 : header_value headers1 name = header_value (requestHeaders details) name).
  { subst headers1. destruct (sendDoNotTrack c);
      [now apply header_value_setHeader | now apply header_value_removeHeader]. }
  assert (H2 : header_value headers2 name = header_value (requestHeaders details) name).
  { subst headers2. rewrite <- H1. destruct (sendGlobalPrivacyControl c);
      [now apply header_value_setHeader | now apply header_value_removeHeader]. }
  destruct (_ && _ && _); cbn [fst snd]; (split; [| repeat split]).
  - rewrite <- H2. now apply header_value_removeHeader.
  - exact H2.
Qed.

Lemma onBeforeSendHeaders_other_headers_witness :
  header_value
    (snd (onBeforeSendHeaders demo_host DEFAULT_PRIVACY_CONFIG mixed_case_request
            (createEmptyPrivacyStats demo_host))) "user-agent" = Some "Bastion".
Proof.
  destruct (onBeforeSendHeaders_other_headers demo_host DEFAULT_PRIVACY_CONFIG
              mixed_case_request (createEmptyPrivacyStats demo_host) "user-agent")
    as [Hvalue _]; [vm_compute; discriminate ..|].
  rewrite Hvalue. vm_compute. reflexivity.
Defined.

Lemma headers_after_flags (c : PrivacyConfig) (headers : list (string * string)) :
  names_unique headers ->
  let headers1 := if sendDoNotTrack c then setHeader headers "DNT" "1"
                  else removeHeader headers "DNT" in
  let headers2 := if sendGlobalPrivacyControl c then setHeader headers1 "Sec-GPC" "1"
                  else removeHeader headers1 "Sec-GPC" in
  names_unique headers2
  /\ header_value headers2 "DNT" = (if sendDoNotTrack c then Some "1" else None)
  /\ header_value headers2 "Sec-GPC" = (if sendGlobalPrivacyControl c then Some "1" else None)
  /\ header_value headers2 "Cookie" = header_value headers "Cookie".
Proof.
  intros Hunique headers1 headers2.
  assert (Hgd : toLowerCase "Sec-GPC" <> toLowerCase "DNT") by (vm_compute; discriminate).
  assert (Hgc : toLowerCase "Sec-GPC" <> toLowerCase "Cookie") by (vm_compute; discriminate).
  assert (Hdc : toLowerCase "DNT" <> toLowerCase "Cookie") by (vm_compute; discriminate).
  assert (H1 : names_unique headers1
               /\ header_value headers1 "DNT" = (if sendDoNotTrack c then Some "1" else None)
               /\ header_value headers1 "Cookie" = header_value headers "Cookie").
  { subst headers1. destruct (sendDoNotTrack c).
    - split; [now apply names_unique_setHeader |].
      split; [apply header_value_setHeader_same | now apply header_value_setHeader].
    - split; [now apply names_unique_removeHeader |].
      split; [now apply header_value_removeHeader_same | now apply header_value_removeHeader]. }
  destruct H1 as (Hu1 & Hd1 & Hc1). subst headers2.
  destruct (sendGlobalPrivacyControl c).
  - split; [now apply names_unique_setHeader |].
    split; [now rewrite header_value_setHeader |].
    split; [apply header_value_setHeader_same | now rewrite header_value_setHeader].
  - split; [now apply names_unique_removeHeader |].
    split; [now rewrite header_value_removeHeader |].
    split; [now apply header_value_removeHeader_same | now rewrite header_value_removeHeader].
Qed.

(** X5. For a request whose header names are distinct when case is
    ignored, the outgoing headers carry [DNT: 1] exactly when
    [sendDoNotTrack] is on and [Sec-GPC: 1] exactly when
    [sendGlobalPrivacyControl] is on, under whatever capitalisation the
    request used, and the names stay distinct: an existing header is
    overwritten in place, never doubled. *)
Theorem onBeforeSendHeaders_signals (h : Host) (c : PrivacyConfig) (details : RequestDetails)
    (stats : PrivacyStats) :
  names_unique (requestHeaders details) ->
  header_value (snd (onBeforeSendHeaders h c details stats)) "DNT"
  = (if sendDoNotTrack c then Some "1" else None)
  /\ header_value (snd (onBeforeSendHeaders h c details stats)) "Sec-GPC"
     = (if sendGlobalPrivacyControl c then Some "1" else None)
  /\ names_unique (snd (onBeforeSendHeaders h c details stats)).
Proof.
  intros Hunique.
  destruct (headers_after_flags c _ Hunique) as (Hu & Hd & Hg & _).
  assert (Hcd : toLowerCase "Cookie" <> toLowerCase "DNT") by (vm_compute; discriminate).
  assert (Hcg : toLowerCase "Cookie" <> toLowerCase "Sec-GPC") by (vm_compute; discriminate).
  unfold onBeforeSendHeaders. cbv zeta in Hu, Hd, Hg.
  destruct (_ && _ && _); cbn [snd].
  - rewrite !header_value_removeHeader by assumption.
    split; [exact Hd |]. split; [exact Hg | now apply names_unique_removeHeader].
  - split; [exact Hd |]. split; [exact Hg | exact Hu].
Qed.

Lemma onBeforeSendHeaders_signals_witness :
  names_unique (requestHeaders mixed_case_request)
  /\ snd (onBeforeSendHeaders demo_host DEFAULT_PRIVACY_CONFIG mixed_case_request
            (createEmptyPrivacyStats demo_host))
     = [("dnt", "1"); ("User-Agent", "Bastion"); ("Sec-GPC", "1")]
  /\ header_value
       (snd (onBeforeSendHeaders demo_host all_off mixed_case_request
               (createEmptyPrivacyStats demo_host))) "DNT" = None.
Proof.
  assert (Hunique : names_unique (requestHeaders mixed_case_request)).
  { unfold names_unique. apply (bool_decide_unpack _). vm_compute. exact I. }
  split; [exact Hunique |]. split; [vm_compute; reflexivity |].
  destruct (onBeforeSendHeaders_signals demo_host all_off mixed_case_request
              (createEmptyPrivacyStats demo_host) Hunique) as [Hdnt _].
  exact Hdnt.
Defined.

(** X6. For a request whose header names are distinct when case is
    ignored, the Cookie header is removed, and [strippedCookieHeaders]
    grows by one, exactly when [blockThirdPartyCookies] is on, the
    request has a Cookie header and it is third-party to its initiator;
    otherwise the Cookie header and the statistics stay as they are. *)
Theorem onBeforeSendHeaders_cookie (h : Host) (c : PrivacyConfig) (details : RequestDetails)
    (stats : PrivacyStats) :
  names_unique (requestHeaders details) ->
  let strip :=
    blockThirdPartyCookies c
    && present (header_value (requestHeaders details) "Cookie")
    && isThirdPartyRequest h (url details) (default "" (initiator details)) in
  header_value (snd (onBeforeSendHeaders h c details stats)) "Cookie"
  = (if strip then None else header_value (requestHeaders details) "Cookie")
  /\ fst (onBeforeSendHeaders h c details stats)
     = (if strip then incrementPrivacyStat "strippedCookieHeaders" stats else stats)
  /\ strippedCookieHeaders (fst (onBeforeSendHeaders h c details stats))
     = strippedCookieHeaders stats + (if strip then 1 else 0).
Proof.
  intros Hunique strip. subst strip.
  destruct (headers_after_flags c _ Hunique) as (Hu & _ & _ & Hcookie).
  cbv zeta in Hu, Hcookie.
  unfold onBeforeSendHeaders.
  rewrite hasHeader_present by discriminate. rewrite Hcookie.
  destruct (_ && _ && _); cbn [fst snd].
  - split; [apply header_value_removeHeader_same; [exact Hu | discriminate] |].
    split; reflexivity.
  - split; [exact Hcookie |]. split; [reflexivity | lia].
Qed.

Lemma onBeforeSendHeaders_cookie_witness :
  names_unique (requestHeaders mixed_case_request)
  /\ header_value
       (snd (onBeforeSendHeaders demo_host DEFAULT_PRIVACY_CONFIG mixed_case_request
               (createEmptyPrivacyStats demo_host))) "Cookie" = None
  /\ strippedCookieHeaders
       (fst (onBeforeSendHeaders demo_host DEFAULT_PRIVACY_CONFIG mixed_case_request
               (createEmptyPrivacyStats demo_host))) = 1.
Proof.
  assert (Hunique : names_unique (requestHeaders mixed_case_request)).
  { unfold names_unique. apply (bool_decide_unpack _). vm_compute. exact I. }
  split; [exact Hunique |].
  destruct (onBeforeSendHeaders_cookie demo_host DEFAULT_PRIVACY_CONFIG mixed_case_request
              (createEmptyPrivacyStats demo_host) Hunique) as (Hvalue & _ & Hcount).
  split; [exact Hvalue | exact Hcount].
Defined.

Lemma trackable_not_navigation resourceType_ :
  set_has TRACKER_RESOURCE_TYPES resourceType_ = true ->
  String.eqb resourceType_ "mainFrame" = false.
Proof.
  intros Hin. destruct (String.eqb resourceType_ "mainFrame") eqn:Hmain; [| reflexivity].
  apply String.eqb_eq in Hmain. subst. vm_compute in Hin. discriminate Hin.
Qed.

Lemma matchesTrackerHost_empty : matchesTrackerHost "" = false.
Proof. reflexivity. Qed.

(** X7. A request without a known initiator is treated in two ways.  The
    blocking stage takes it for third-party: it is cancelled as soon as
    blocking is on, its type is trackable and its host matches a tracker
    rule.  The header stage takes it for first-party: its Cookie header
    and the statistics stay as they are. *)
Theorem unknown_initiator_two_ways (h : Host) (c : PrivacyConfig) (details : RequestDetails)
    (stats : PrivacyStats) :
  initiator details = None ->
  URL_parse h "" = None ->
  shouldBlockTrackerRequest h c details
  = blockTrackers c
    && set_has TRACKER_RESOURCE_TYPES (resourceType details)
    && matchesTrackerHost (getHostnameFromUrl h (url details))
  /\ fst (onBeforeSendHeaders h c details stats) = stats
  /\ header_value (snd (onBeforeSendHeaders h c details stats)) "Cookie"
     = header_value (requestHeaders details) "Cookie".
Proof.
  intros Hinitiator Hparse. split.
  - unfold shouldBlockTrackerRequest. rewrite Hinitiator. cbn [default from_option is_empty].
    destruct (blockTrackers c); [| reflexivity].
    destruct (set_has TRACKER_RESOURCE_TYPES (resourceType details)) eqn:Htype; [| reflexivity].
    cbn [negb andb].
    destruct (is_empty (getHostnameFromUrl h (url details))) eqn:Hhost.
    + destruct (getHostnameFromUrl h (url details)); [reflexivity | discriminate Hhost].
    + cbn [orb]. destruct (matchesTrackerHost _); [| reflexivity].
      cbn [negb]. now rewrite (trackable_not_navigation _ Htype).
  - assert (Hfirst : isThirdPartyRequest h (url details) (default "" (initiator details)) = false).
    { rewrite Hinitiator. cbn [default from_option]. unfold isThirdPartyRequest.
      rewrite (getHostnameFromUrl_unparseable h "" Hparse). cbn [is_empty].
      now rewrite orb_true_r. }
    unfold onBeforeSendHeaders. rewrite Hfirst, andb_false_r. cbn [fst snd].
    split; [reflexivity |].
    assert (Hdc : toLowerCase "DNT" <> toLowerCase "Cookie") by (vm_compute; discriminate).
    assert (Hgc : toLowerCase "Sec-GPC" <> toLowerCase "Cookie") by (vm_compute; discriminate).
    destruct (sendGlobalPrivacyControl c), (sendDoNotTrack c);
      repeat first [rewrite header_value_setHeader by assumption
                   | rewrite header_value_removeHeader by assumption];
      reflexivity.
Qed.

Lemma unknown_initiator_two_ways_witness :
  snd (onBeforeRequest demo_host DEFAULT_PRIVACY_CONFIG beacon_without_initiator
         (createEmptyPrivacyStats demo_host)) = Cancel
  /\ header_value
       (snd (onBeforeSendHeaders demo_host DEFAULT_PRIVACY_CONFIG beacon_without_initiator
               (createEmptyPrivacyStats demo_host))) "Cookie" = Some "sid=1".
Proof.
  destruct (unknown_initiator_two_ways demo_host DEFAULT_PRIVACY_CONFIG beacon_without_initiator
              (createEmptyPrivacyStats demo_host) eq_refl eq_refl) as (Hblock & _ & Hcookie).
  split.
  - unfold onBeforeRequest. rewrite Hblock. vm_compute. reflexivity.
  - rewrite Hcookie. reflexivity.
Defined.

(** ** Configuration patches *)

Lemma sanitizeBoolean_union (patch object : gmap string jsval) (key : string)
    (current fallback : bool) :
  object !! key = Some (VBool current) ->
  sanitizeBoolean ((patch ∪ object) !! key) fallback
  = patched_flag (patch !! key) current fallback.
Proof.
  intros Hobject. rewrite lookup_union, Hobject.
  destruct (patch !! key) as [[] |]; reflexivity.
Qed.

Lemma patchPrivacyConfig_fields (patch : gmap string jsval) (c : PrivacyConfig) :
  patchPrivacyConfig patch c
  = {| blockTrackers := patched_flag (patch !! "blockTrackers") (blockTrackers c) true;
       upgradeHttps := patched_flag (patch !! "upgradeHttps") (upgradeHttps c) true;
       sendDoNotTrack := patched_flag (patch !! "sendDoNotTrack") (sendDoNotTrack c) true;
       sendGlobalPrivacyControl :=
         patched_flag (patch !! "sendGlobalPrivacyControl") (sendGlobalPrivacyControl c) true;
       blockThirdPartyCookies :=
         patched_flag (patch !! "blockThirdPartyCookies") (blockThirdPartyCookies c) true;
       blockFingerprintingPermissions :=
         patched_flag (patch !! "blockFingerprintingPermissions")
           (blockFingerprintingPermissions c) true;
       clearDataOnExit := patched_flag (patch !! "clearDataOnExit") (clearDataOnExit c) false |}.
Proof.
  unfold patchPrivacyConfig, sanitizePrivacyConfig.
  f_equal; apply sanitizeBoolean_union; reflexivity.
Qed.

Lemma patched_flag_twice value current fallback :
  patched_flag value (patched_flag value current fallback) fallback
  = patched_flag value current fallback.
Proof. destruct value as [[] |]; reflexivity. Qed.

(** X8. A privacy patch sets each flag for which it carries a boolean,
    keeps each flag it does not mention, and puts back to its default
    (not to its current value) each flag for which it carries something
    that is no boolean.  Keys that name no flag are ignored, the empty
    patch changes nothing, a patch applied twice gives what it gives
    applied once, and the configuration survives the round trip through
    the object that is persisted. *)
Theorem patchPrivacyConfig_semantics (patch : gmap string jsval) (c : PrivacyConfig) :
  patchPrivacyConfig patch c
  = {| blockTrackers := patched_flag (patch !! "blockTrackers") (blockTrackers c) true;
       upgradeHttps := patched_flag (patch !! "upgradeHttps") (upgradeHttps c) true;
       sendDoNotTrack := patched_flag (patch !! "sendDoNotTrack") (sendDoNotTrack c) true;
       sendGlobalPrivacyControl :=
         patched_flag (patch !! "sendGlobalPrivacyControl") (sendGlobalPrivacyControl c) true;
       blockThirdPartyCookies :=
         patched_flag (patch !! "blockThirdPartyCookies") (blockThirdPartyCookies c) true;
       blockFingerprintingPermissions :=
         patched_flag (patch !! "blockFingerprintingPermissions")
           (blockFingerprintingPermissions c) true;
       clearDataOnExit := patched_flag (patch !! "clearDataOnExit") (clearDataOnExit c) false |}
  /\ patchPrivacyConfig ∅ c = c
  /\ patchPrivacyConfig patch (patchPrivacyConfig patch c) = patchPrivacyConfig patch c
  /\ sanitizePrivacyConfig (privacyConfig_object c) = c
  /\ upgradeHttps
       (patchPrivacyConfig (<["upgradeHttps" := VString "off"]> ∅)
          {| blockTrackers := false; upgradeHttps := false; sendDoNotTrack := false;
             sendGlobalPrivacyControl := false; blockThirdPartyCookies := false;
             blockFingerprintingPermissions := false; clearDataOnExit := false |}) = true.
Proof.
  split; [apply patchPrivacyConfig_fields |]. split; [| split; [| split]].
  - rewrite patchPrivacyConfig_fields. destruct c; reflexivity.
  - rewrite !patchPrivacyConfig_fields. cbn [blockTrackers upgradeHttps sendDoNotTrack
      sendGlobalPrivacyControl blockThirdPartyCookies blockFingerprintingPermissions
      clearDataOnExit].
    now rewrite !patched_flag_twice.
  - destruct c; reflexivity.
  - reflexivity.
Qed.

(** X9. Without the electron-updater module, a patch to the update
    configuration turns the status to [disabled] (source none, with an
    error text) exactly when it leaves the release-archive backend
    switched off.  Otherwise the status is left entirely as it was: a
    patch that switches the backend on again does not clear an earlier
    [disabled].  The patch writes one file, the update store: every other
    file is as before, and the store holds the new configuration when the
    write succeeds (a failed write is not reported).  Metadata, request
    log and launched programs are not touched. *)
Theorem patchUpdateConfig_without_updater (h : Host) (w : World) (patch : gmap string jsval)
    (st : AppState) :
  autoUpdater_available h = false ->
  let st' := patchUpdateConfig h w patch st in
  let store := path_string (getUpdateStorePath h) in
  updateConfig st' = sanitizeUpdateConfig (patch ∪ updateConfig_object (updateConfig st))
  /\ useGithubReleaseZip (updateConfig st')
     = patched_flag (patch !! "useGithubReleaseZip") (useGithubReleaseZip (updateConfig st)) true
  /\ (if useGithubReleaseZip (updateConfig st') then updateStatus st' = updateStatus st
      else status (updateStatus st') = disabled
           /\ source (updateStatus st') = source_none
           /\ message (updateStatus st') = "No updater backend is enabled."
           /\ error (updateStatus st')
              = Some "Enable GitHub release ZIP updater or install electron-updater backend.")
  /\ (forall p, p <> store -> files st' !! p = files st !! p)
  /\ (store_write (faults w) store = store_written ->
      files st' !! store = Some (JSON_stringify h (updateConfig_json (updateConfig st'))))
  /\ (store_write (faults w) store = store_untouched -> files st' = files st)
  /\ githubUpdateMetadata st' = githubUpdateMetadata st
  /\ requests_sent st' = requests_sent st
  /\ launched st' = launched st.
Proof.
  intros Hupdater st' store. subst st' store.
  unfold patchUpdateConfig, applyUpdaterConfig. rewrite Hupdater. cbn [negb andb].
  cbn [updateConfig with_updateConfig persistUpdateConfig with_files].
  assert (Hflag : useGithubReleaseZip
                    (sanitizeUpdateConfig (patch ∪ updateConfig_object (updateConfig st)))
                  = patched_flag (patch !! "useGithubReleaseZip")
                      (useGithubReleaseZip (updateConfig st)) true).
  { unfold sanitizeUpdateConfig. cbn [useGithubReleaseZip].
    apply sanitizeBoolean_union. reflexivity. }
  rewrite <- Hflag.
  set (config := sanitizeUpdateConfig _) in *.
  destruct (useGithubReleaseZip config) eqn:Huse;
    cbn [negb updateConfig with_updateConfig setUpdateStatus with_updateStatus updateStatus
         files githubUpdateMetadata requests_sent launched persistUpdateConfig with_files];
    rewrite Huse;
    (split; [reflexivity |]); (split; [reflexivity |]); (split; [repeat split |]);
    (split; [intros p Hp; now apply writeJsonFile_other |]);
    (split; [intros Hwritten; now apply writeJsonFile_written |]);
    (split; [intros Huntouched; unfold writeJsonFile; now rewrite Huntouched |]);
    repeat split.
Qed.

Lemma patchUpdateConfig_without_updater_witness :
  let st1 := patchUpdateConfig demo_host demo_world backend_off_patch (initial_state demo_host) in
  let st2 := patchUpdateConfig demo_host demo_world (<["useGithubReleaseZip" := VBool true]> ∅)
               st1 in
  status (updateStatus st1) = disabled
  /\ status (updateStatus st2) = disabled
  /\ files st1 !! "/Users/me/AppData/Roaming/bastion-browser/updates.json"
     = Some (JSON_stringify demo_host (updateConfig_json (updateConfig st1))).
Proof.
  cbv zeta. split; [| split].
  - destruct (patchUpdateConfig_without_updater demo_host demo_world backend_off_patch
                (initial_state demo_host) eq_refl) as (_ & _ & Hstatus & _).
    cbv zeta in Hstatus. vm_compute useGithubReleaseZip in Hstatus.
    destruct Hstatus as [Hstatus _]. exact Hstatus.
  - destruct (patchUpdateConfig_without_updater demo_host demo_world
                (<["useGithubReleaseZip" := VBool true]> ∅)
                (patchUpdateConfig demo_host demo_world backend_off_patch
                   (initial_state demo_host))
                eq_refl) as (_ & _ & Hstatus & _).
    cbv zeta in Hstatus. vm_compute useGithubReleaseZip in Hstatus.
    rewrite Hstatus. vm_compute. reflexivity.
  - destruct (patchUpdateConfig_without_updater demo_host demo_world backend_off_patch
                (initial_state demo_host) eq_refl) as (_ & _ & _ & _ & Hstore & _).
    cbv zeta in Hstore. exact (Hstore eq_refl).
Defined.

(** ** Update checks *)

(** X10. A check that is not asked to download is read-only on disk: it
    sends at most the request to the release index, never an asset
    request, and leaves files, metadata, launched programs and the
    configuration as they were. *)
Theorem check_without_download_reads_only (h : Host) (w : World) (opts : CheckOptions)
    (st : AppState) :
  download opts = false ->
  let st' := fst (checkGitHubReleaseZipUpdate h w opts st) in
  requests_sent st'
  = requests_sent st ++ (if fetch_available h then [resolveGitHubReleasesApiURL h] else [])
  /\ files st' = files st
  /\ githubUpdateMetadata st' = githubUpdateMetadata st
  /\ launched st' = launched st
  /\ quit_scheduled st' = quit_scheduled st
  /\ updateConfig st' = updateConfig st.
Proof.
  intros Hdownload st'. subst st'.
  unfold checkGitHubReleaseZipUpdate.
  rewrite fetchLatestGitHubRelease_answer, Hdownload.
  cbn [updateConfig setUpdateStatus with_updateStatus negb].
  destruct (fetch_available h);
    repeat case_match;
    cbn [fst requests_sent files githubUpdateMetadata launched quit_scheduled updateConfig
         setUpdateStatus with_updateStatus with_requests_sent];
    rewrite ?app_nil_r; repeat split.
Qed.

Lemma check_without_download_reads_only_witness :
  let st' := fst (checkGitHubReleaseZipUpdate demo_host demo_world check_only
                    (initial_state demo_host)) in
  status (updateStatus st') = available
  /\ requests_sent st' = [GITHUB_RELEASES_API_URL]
  /\ files st' = ∅.
Proof.
  destruct (check_without_download_reads_only demo_host demo_world check_only
              (initial_state demo_host) eq_refl) as (Hrequests & Hfiles & _).
  cbv zeta. split; [vm_compute; reflexivity |].
  split; [exact Hrequests | exact Hfiles].
Defined.

Lemma downloadGitHubAssetToPath_frame h w assetURL targetPath st :
  let st' := fst (downloadGitHubAssetToPath h w assetURL targetPath st) in
  githubUpdateMetadata st' = githubUpdateMetadata st
  /\ launched st' = launched st
  /\ quit_scheduled st' = quit_scheduled st
  /\ updateConfig st' = updateConfig st
  /\ updateStatus st' = updateStatus st.
Proof.
  unfold downloadGitHubAssetToPath. cbv zeta.
  repeat case_match; simplify_eq; repeat split.
Qed.

(** X11. A check rewrites the download metadata only when it returns
    [downloaded]; then the metadata names the tag, the file (which is on
    disk), its size, the asset and the release page, stamped with the
    current time, and keeps what it recorded about the last apply.  With
    any other result the metadata is as before.  No check launches a
    program or schedules a quit. *)
Theorem check_metadata (h : Host) (w : World) (opts : CheckOptions) (st : AppState) :
  let st' := fst (checkGitHubReleaseZipUpdate h w opts st) in
  launched st' = launched st
  /\ quit_scheduled st' = quit_scheduled st
  /\ match snd (checkGitHubReleaseZipUpdate h w opts st) with
     | Downloaded tag fp size page =>
         githubUpdateMetadata st'
         = {| lastTag := tag; filePath := fp; downloadedAt := now h; sizeBytes := size;
              assetName := resolveGitHubUpdateAssetName h; releasePage := page;
              lastAppliedTag := lastAppliedTag (githubUpdateMetadata st);
              appliedAt := appliedAt (githubUpdateMetadata st) |}
         /\ is_Some (files st' !! fp)
         /\ downloadedVersion (updateStatus st') = Some (str_or (normalizeVersionFromTag tag) tag)
     | _ => githubUpdateMetadata st' = githubUpdateMetadata st
     end.
Proof.
  cbv zeta. unfold checkGitHubReleaseZipUpdate.
  rewrite fetchLatestGitHubRelease_answer.
  cbn [updateConfig setUpdateStatus with_updateStatus].
  destruct (release_answer h w (updateConfig st)) as [reason | [release |]];
    [destruct (fetch_available h); repeat split | |
     destruct (fetch_available h); repeat split].
  destruct (is_empty (tag_name release)); [destruct (fetch_available h); repeat split |].
  destruct (_ && _ && _); [destruct (fetch_available h); repeat split |].
  destruct (findReleaseAsset release _) as [asset_ |];
    [| destruct (fetch_available h); repeat split].
  destruct (is_empty (browser_download_url asset_));
    [destruct (fetch_available h); repeat split |].
  destruct (_ && negb (forceDownload opts)); [destruct (fetch_available h); repeat split |].
  destruct (negb (download opts)); [destruct (fetch_available h); repeat split |].
  match goal with
  | |- context [downloadGitHubAssetToPath ?a ?b ?c ?d ?e] =>
      pose proof (downloadGitHubAssetToPath_frame a b c d e) as Hframe;
      destruct (downloadGitHubAssetToPath a b c d e) as [st4 outcome] eqn:Hdl
  end.
  cbv zeta in Hframe. cbn [fst] in Hframe.
  destruct Hframe as (Hmeta & Hlaunched & Hquit & _ & _).
  destruct outcome as [reason | result].
  - cbn [fst snd launched quit_scheduled githubUpdateMetadata setUpdateStatus
         with_updateStatus].
    rewrite Hlaunched, Hquit, Hmeta.
    destruct (fetch_available h); repeat split.
  - apply downloadGitHubAssetToPath_success in Hdl as (Hpath & Hfile & _ & _ & _).
    cbn [fst snd launched quit_scheduled githubUpdateMetadata files updateStatus
         setUpdateStatus with_updateStatus with_githubUpdateMetadata
         persistGitHubUpdateMetadata with_files].
    rewrite Hlaunched, Hquit, Hmeta, Hpath.
    destruct (fetch_available h);
      cbn [githubUpdateMetadata with_requests_sent with_updateStatus lastAppliedTag appliedAt
           launched quit_scheduled];
      (split; [reflexivity |]); (split; [reflexivity |]); (split; [reflexivity |]);
      (split; [now apply writeJsonFile_is_Some | reflexivity]).
Qed.

(** X12. Every check ends settled: its status is [idle], [available],
    [downloaded] or [error], never a transient one, so the status never
    stays at [checking] or [downloading].  The status belongs to the
    archive backend, is stamped with the time of the check, and carries
    an error text exactly when it is [error].  The result tells the
    status, except that a failed result comes with [idle] when the index
    lists no usable release. *)
Theorem check_settles (h : Host) (w : World) (opts : CheckOptions) (st : AppState) :
  let u := updateStatus (fst (checkGitHubReleaseZipUpdate h w opts st)) in
  settled (status u) = true
  /\ source u = github_release_zip
  /\ checkedAt u = Some (now h)
  /\ updatedAt u = now h
  /\ currentVersion u = appVersion h
  /\ present (error u) = match status u with status_error => true | _ => false end
  /\ match snd (checkGitHubReleaseZipUpdate h w opts st) with
     | CheckFailed _ => status u = status_error \/ status u = idle
     | UpToDate _ _ => status u = idle
     | AlreadyDownloaded applied _ fp _ =>
         status u = (if applied then idle else downloaded) /\ updateFilePath u = Some fp
     | UpdateAvailable _ _ _ => status u = available /\ updateFilePath u = None
     | Downloaded _ fp _ _ => status u = downloaded /\ updateFilePath u = Some fp
     end.
Proof.
  cbv zeta. unfold checkGitHubReleaseZipUpdate.
  destruct (fetchLatestGitHubRelease _ _ _) as [st2 fetched].
  destruct fetched as [reason | [release |]];
    [cbn; repeat split; auto | | cbn; repeat split; auto].
  destruct (is_empty (tag_name release)); [cbn; repeat split; auto |].
  destruct (_ && _ && _); [cbn; repeat split; auto |].
  destruct (findReleaseAsset release _) as [asset_ |]; [| cbn; repeat split; auto].
  destruct (is_empty (browser_download_url asset_)); [cbn; repeat split; auto |].
  destruct (_ && negb (forceDownload opts)).
  { destruct (negb (is_empty (trim (tag_name release))) && _); cbn; repeat split; auto. }
  destruct (negb (download opts)); [cbn; repeat split; auto |].
  destruct (downloadGitHubAssetToPath _ _ _ _ _) as [st4 [reason | result]];
    cbn; repeat split; auto.
Qed.

(** ** Trimming *)



Lemma drop_while_id {A} (p : A -> bool) (l : list A) :
  (forall x, head l = Some x -> p x = false) -> drop_while p l = l.
Proof.
  destruct l as [| y l]; [reflexivity |]. intros Hhead. cbn.
  now rewrite (Hhead y eq_refl).
Qed.

Lemma trim_chars_id l :
  (forall x, head l = Some x -> is_space x = false) ->
  (forall x, head (rev l) = Some x -> is_space x = false) ->
  trim_chars l = l.
Proof.
  intros Hfirst Hlast. unfold trim_chars.
  rewrite (drop_while_id _ l Hfirst), (drop_while_id _ (rev l) Hlast).
  apply rev_involutive.
Qed.



Lemma chars_app a b : chars (a +:+ b) = chars a ++ chars b.
Proof.
  unfold chars. induction a as [| c a IH]; [reflexivity |].
  change (String c a +:+ b) with (String c (a +:+ b)). cbn. now rewrite IH.
Qed.

(** An error text that starts with a letter and ends with a full stop
    is reported as it is. *)
Lemma getErrorMessage_sentence (c : ascii) (prefix body : string) :
  is_space c = false ->
  getErrorMessage (String c prefix +:+ body +:+ ").") = String c prefix +:+ body +:+ ").".
Proof.
  intros Hc. unfold getErrorMessage.
  assert (Htrim : trim (String c prefix +:+ body +:+ ").") = String c prefix +:+ body +:+ ").").
  { unfold trim. rewrite trim_chars_id; [apply unchars_chars | |].
    - intros x Hx. cbn in Hx. injection Hx as <-. exact Hc.
    - intros x. rewrite !chars_app, !rev_app_distr. cbn. now intros [= <-]. }
  rewrite Htrim. reflexivity.
Qed.

Lemma check_index_unavailable_aux h w opts st reason :
  release_answer h w (updateConfig st) = inl reason ->
  fetch_available h = true ->
  let result := checkGitHubReleaseZipUpdate h w opts st in
  snd result = CheckFailed (getErrorMessage reason)
  /\ status (updateStatus (fst result)) = status_error
  /\ message (updateStatus (fst result)) = "Failed to fetch GitHub release tags."
  /\ error (updateStatus (fst result)) = Some (getErrorMessage reason)
  /\ requests_sent (fst result) = requests_sent st ++ [resolveGitHubReleasesApiURL h]
  /\ files (fst result) = files st
  /\ githubUpdateMetadata (fst result) = githubUpdateMetadata st.
Proof.
  intros Hanswer Hfetch result. subst result.
  unfold checkGitHubReleaseZipUpdate.
  rewrite fetchLatestGitHubRelease_answer, Hfetch.
  cbn [updateConfig setUpdateStatus with_updateStatus]. rewrite Hanswer.
  repeat split.
Qed.

(** X13. When the release index answers with a status that is not 2xx,
    the check fails with an error that names the HTTP status, the status
    becomes [error] with that text, and apart from the one request
    nothing changes: no file, no metadata. *)
Theorem check_index_unavailable (h : Host) (w : World) (opts : CheckOptions) (st : AppState)
    (status_code : Z) (payload : JsonPayload) :
  fetch_available h = true ->
  releases_fetch w = ReleasesResponse false status_code payload ->
  let result := checkGitHubReleaseZipUpdate h w opts st in
  let reason := "GitHub releases request failed (" +:+ pretty status_code +:+ ")." in
  snd result = CheckFailed reason
  /\ status (updateStatus (fst result)) = status_error
  /\ message (updateStatus (fst result)) = "Failed to fetch GitHub release tags."
  /\ error (updateStatus (fst result)) = Some reason
  /\ requests_sent (fst result) = requests_sent st ++ [resolveGitHubReleasesApiURL h]
  /\ files (fst result) = files st
  /\ githubUpdateMetadata (fst result) = githubUpdateMetadata st.
Proof.
  intros Hfetch Hresponse. cbv zeta.
  rewrite <- (getErrorMessage_sentence "G" "itHub releases request failed ("
                (pretty status_code) eq_refl).
  apply check_index_unavailable_aux; [| exact Hfetch].
  unfold release_answer, fetchLatestGitHubRelease. now rewrite Hfetch, Hresponse.
Qed.

Lemma check_index_unavailable_witness :
  let result := checkGitHubReleaseZipUpdate demo_host world_index_down check_and_download
                  (initial_state demo_host) in
  snd result = CheckFailed "GitHub releases request failed (503)."
  /\ status (updateStatus (fst result)) = status_error
  /\ files (fst result) = ∅.
Proof.
  destruct (check_index_unavailable demo_host world_index_down check_and_download
              (initial_state demo_host) 503 NotAnArray eq_refl eq_refl)
    as (Hresult & Hstatus & _ & _ & _ & Hfiles & _).
  cbv zeta. split; [exact Hresult |].
  split; [exact Hstatus | exact Hfiles].
Defined.

(** X14. When the latest release is newer than the running version but
    carries no asset with the expected name (case ignored), or one
    without a download URL, the check stops there: it fails with "Latest
    tag ... has no ... asset.", the status becomes [error] and still
    shows the version found, and no download is attempted. *)
Theorem check_without_asset (h : Host) (w : World) (opts : CheckOptions) (st : AppState)
    (release : Release) :
  release_answer h w (updateConfig st) = inr (Some release) ->
  tag_name release <> "" ->
  already_current h release = false ->
  match findReleaseAsset release (resolveGitHubUpdateAssetName h) with
  | None => True
  | Some asset_ => browser_download_url asset_ = ""
  end ->
  let result := checkGitHubReleaseZipUpdate h w opts st in
  let text := "Latest tag " +:+ trim (tag_name release) +:+ " has no "
              +:+ resolveGitHubUpdateAssetName h +:+ " asset." in
  snd result = CheckFailed text
  /\ status (updateStatus (fst result)) = status_error
  /\ error (updateStatus (fst result)) = Some text
  /\ availableVersion (updateStatus (fst result))
     = Some (str_or (remote_version release) (trim (tag_name release)))
  /\ requests_sent (fst result) = requests_sent st ++ [resolveGitHubReleasesApiURL h]
  /\ files (fst result) = files st
  /\ githubUpdateMetadata (fst result) = githubUpdateMetadata st.
Proof.
  intros Hanswer Htag Hcurrent Hasset result text. subst result text.
  pose proof (release_answer_fetch_available _ _ _ _ Hanswer) as Hfetch.
  unfold checkGitHubReleaseZipUpdate.
  rewrite fetchLatestGitHubRelease_answer, Hfetch.
  cbn [updateConfig setUpdateStatus with_updateStatus]. rewrite Hanswer.
  rewrite (is_empty_false _ Htag).
  match goal with
  | |- context [if ?b then _ else _] => change b with (already_current h release)
  end.
  rewrite Hcurrent.
  destruct (findReleaseAsset release _) as [asset_ |]; [rewrite Hasset |]; repeat split.
Qed.

Lemma check_without_asset_witness :
  let result := checkGitHubReleaseZipUpdate demo_host world_without_asset check_and_download
                  (initial_state demo_host) in
  snd result = CheckFailed "Latest tag v1.3.0 has no update.zip asset."
  /\ status (updateStatus (fst result)) = status_error
  /\ requests_sent (fst result) = [GITHUB_RELEASES_API_URL].
Proof.
  destruct (check_without_asset demo_host world_without_asset check_and_download
              (initial_state demo_host)
              {| tag_name := "v1.3.0"; draft := false; prerelease := false;
                 published_at := "2024-02-03T00:00:00Z"; created_at := ""; createdAt := "";
                 html_url := "";
                 assets := [{| name := "notes.txt";
                               browser_download_url := "https://example.invalid/notes.txt" |}] |})
    as (Hresult & Hstatus & _ & _ & Hrequests & _);
    [vm_compute; reflexivity | discriminate | vm_compute; reflexivity | vm_compute; exact I |].
  cbv zeta. split; [exact Hresult |]. split; [exact Hstatus | exact Hrequests].
Defined.

(** ** Archive installer *)

(** X15. An apply launches a program only when it returns the launcher
    it chose: then exactly that one file is launched, it is one of the
    extracted files and can be launched, the tag is recorded as applied
    at the current time, the quit is scheduled and the status is
    [installing].  With any other result nothing is launched, no quit is
    scheduled and the metadata is as before.  No apply sends a request. *)
Theorem apply_outcomes (h : Host) (w : World) (options : ApplyOptions) (st : AppState) :
  let st' := fst (applyGitHubReleaseZipUpdate h w options st) in
  requests_sent st' = requests_sent st
  /\ match snd (applyGitHubReleaseZipUpdate h w options st) with
     | Applied tag launcherPath stagedPath =>
         launched st' = launched st ++ [launcherPath]
         /\ (exists extracted, extracted_files w = Some extracted /\ In launcherPath extracted)
         /\ is_launcher launcherPath = true
         /\ lastAppliedTag (githubUpdateMetadata st') = tag
         /\ appliedAt (githubUpdateMetadata st') = now h
         /\ lastTag (githubUpdateMetadata st') = lastTag (githubUpdateMetadata st)
         /\ filePath (githubUpdateMetadata st') = filePath (githubUpdateMetadata st)
         /\ quit_scheduled st' = true
         /\ status (updateStatus st') = installing
         /\ platform h = "win32"
     | _ =>
         launched st' = launched st
         /\ quit_scheduled st' = quit_scheduled st
         /\ githubUpdateMetadata st' = githubUpdateMetadata st
     end.
Proof.
  cbv zeta. unfold applyGitHubReleaseZipUpdate.
  destruct (negb (String.eqb (platform h) "win32")) eqn:Hplatform; [repeat split |].
  destruct (_ || _); [repeat split |].
  destruct (_ && _ && _); [repeat split |].
  destruct (extracted_files w) as [extracted |]; [| repeat split].
  destruct (pickUpdateLauncherFromExtractedFiles extracted) as [launcherPath |] eqn:Hpick;
    [| repeat split].
  destruct (is_empty launcherPath); [repeat split |].
  cbn [fst snd files requests_sent launched quit_scheduled githubUpdateMetadata updateStatus
       setUpdateStatus with_updateStatus with_githubUpdateMetadata with_launch
       with_quit_scheduled lastAppliedTag appliedAt lastTag filePath
       persistGitHubUpdateMetadata with_files].
  apply negb_false_iff, String.eqb_eq in Hplatform.
  assert (Hin : launcherPath ∈ filter (fun f => is_launcher f = true) extracted).
  { unfold pickUpdateLauncherFromExtractedFiles in Hpick.
    apply head_Some_elem_of in Hpick.
    eapply elem_of_Permutation_proper; [apply array_sort_perm | exact Hpick]. }
  apply list_elem_of_filter in Hin as [Hlauncher Hin].
  split; [reflexivity |]. split; [reflexivity |].
  split; [exists extracted; split; [reflexivity | now apply list_elem_of_In] |].
  split; [exact Hlauncher |]. repeat split. exact Hplatform.
Qed.

Lemma launcher_order_better a b : launcher_order a b <= 0 <-> better a b.
Proof.
  unfold launcher_order, better. cbv zeta.
  destruct (scoreLauncherCandidate b - scoreLauncherCandidate a =? 0) eqn:Hdiff;
    cbn [negb]; lia.
Qed.

Lemma better_total a b : better a b \/ better b a.
Proof. unfold better. lia. Qed.

Lemma better_trans a b c : better a b -> better b c -> better a c.
Proof. unfold better. lia. Qed.

Lemma head_array_sort_least {A} (cmp : A -> A -> Z) (l : list A) (m : A) :
  (forall a b, cmp a b <= 0 \/ cmp b a <= 0) ->
  (forall a b c, cmp a b <= 0 -> cmp b c <= 0 -> cmp a c <= 0) ->
  head (array_sort cmp l) = Some m ->
  forall x, In x l -> cmp m x <= 0.
Proof.
  intros Htotal Htrans. revert m.
  induction l as [| x xs IH]; intros m Hhead z Hin; [destruct Hin |].
  cbn [array_sort] in Hhead.
  destruct (array_sort cmp xs) as [| y ys] eqn:Hsorted.
  - assert (xs = []) as ->.
    { apply Permutation_nil, Permutation_sym. rewrite <- Hsorted. apply array_sort_perm. }
    cbn in Hhead. injection Hhead as <-.
    destruct Hin as [<- | []]. destruct (Htotal x x); assumption.
  - rewrite head_sort_insert in Hhead. injection Hhead as <-.
    specialize (IH y eq_refl).
    destruct (cmp x y <=? 0) eqn:Hcmp.
    + apply Z.leb_le in Hcmp.
      destruct Hin as [<- | Hin]; [destruct (Htotal x x); assumption |].
      eapply Htrans; [exact Hcmp | now apply IH].
    + apply Z.leb_gt in Hcmp.
      destruct Hin as [<- | Hin]; [| now apply IH].
      destruct (Htotal x y); lia.
Qed.

Lemma scoreLauncherCandidate_not_uninstaller f :
  is_uninstaller f = false -> -10 <= scoreLauncherCandidate f.
Proof.
  unfold is_uninstaller, scoreLauncherCandidate. intros ->. cbv zeta.
  repeat match goal with
         | |- context [if ?b then _ else _] => destruct b
         end; lia.
Qed.

Lemma scoreLauncherCandidate_uninstaller f :
  is_uninstaller f = true -> scoreLauncherCandidate f = -100.
Proof. unfold is_uninstaller, scoreLauncherCandidate. now intros ->. Qed.

(** X16. The launcher picked from the extracted files: nothing is picked
    exactly when no file has the extension .exe, .cmd or .bat (case
    ignored); otherwise the pick is one of those files and no other
    candidate has a higher score, nor the same score and a shorter path.
    An uninstaller is therefore picked only when every candidate is an
    uninstaller. *)
Theorem pickUpdateLauncher_best (extracted : list string) :
  match pickUpdateLauncherFromExtractedFiles extracted with
  | None => forall f, In f extracted -> is_launcher f = false
  | Some pick =>
      In pick extracted
      /\ is_launcher pick = true
      /\ (forall f, In f extracted -> is_launcher f = true -> better pick f)
      /\ (is_uninstaller pick = true ->
          forall f, In f extracted -> is_launcher f = true -> is_uninstaller f = true)
  end.
Proof.
  unfold pickUpdateLauncherFromExtractedFiles. cbv zeta.
  change (fun filePath_ : string =>
            (String.eqb (toLowerCase (extname filePath_)) ".exe"
             || String.eqb (toLowerCase (extname filePath_)) ".cmd"
             || String.eqb (toLowerCase (extname filePath_)) ".bat") = true)
    with (fun f => is_launcher f = true).
  change (fun left right : string => _) with launcher_order.
  set (candidates := filter (fun f => is_launcher f = true) extracted).
  assert (Hcandidates : forall f, In f candidates <-> In f extracted /\ is_launcher f = true).
  { intros f. subst candidates. rewrite <- !list_elem_of_In, list_elem_of_filter. tauto. }
  destruct (head (array_sort launcher_order candidates)) as [pick |] eqn:Hhead.
  - assert (Hleast : forall f, In f candidates -> better pick f).
    { intros f Hin. apply launcher_order_better.
      apply (head_array_sort_least launcher_order candidates); try assumption.
      - intros a b. rewrite !launcher_order_better. apply better_total.
      - intros a b c. rewrite !launcher_order_better. apply better_trans. }
    assert (Hpick : In pick candidates).
    { apply list_elem_of_In.
      eapply elem_of_Permutation_proper; [apply (array_sort_perm launcher_order) |].
      now apply head_Some_elem_of. }
    apply Hcandidates in Hpick as [Hin Hlauncher].
    split; [exact Hin |]. split; [exact Hlauncher |].
    split; [intros f Hf Hl; apply Hleast, Hcandidates; now split |].
    intros Huninstaller f Hf Hl.
    destruct (is_uninstaller f) eqn:Hf'; [reflexivity |].
    assert (Hbetter : better pick f) by (apply Hleast, Hcandidates; now split).
    pose proof (scoreLauncherCandidate_not_uninstaller f Hf').
    pose proof (scoreLauncherCandidate_uninstaller pick Huninstaller).
    unfold better in Hbetter. lia.
  - intros f Hin. destruct (is_launcher f) eqn:Hl; [| reflexivity].
    assert (Hf : In f candidates) by (apply Hcandidates; now split).
    assert (Hnil : array_sort launcher_order candidates = [])
      by (destruct (array_sort launcher_order candidates); [reflexivity | discriminate]).
    assert (candidates = []) as Hempty.
    { apply Permutation_nil, Permutation_sym. rewrite <- Hnil. apply array_sort_perm. }
    rewrite Hempty in Hf. destruct Hf.
Qed.

(** ** Clearing data *)

Lemma lower_char_idempotent c : lower_char (lower_char c) = lower_char c.
Proof. destruct c as [[] [] [] [] [] [] [] []]; reflexivity. Qed.


Lemma toLowerCase_idempotent s : toLowerCase (toLowerCase s) = toLowerCase s.
Proof.
  unfold toLowerCase. rewrite chars_unchars, map_map. f_equal.
  apply map_ext. intros c. apply lower_char_idempotent.
Qed.











(** ** Artifact fetcher *)

(** X18. A download touches two paths only, the target and the target
    with [.download] appended: every other file is as before.  It sends
    one request, for the asset, when the runtime has fetch and none
    otherwise.  When it succeeds, the server answered 2xx with a body that
    streamed to its end, the target holds the whole body, the size
    reported is the length of that file, and the temp file is gone. *)
Theorem downloadGitHubAssetToPath_touches (h : Host) (w : World) (assetURL targetPath : string)
    (st : AppState) :
  let st' := fst (downloadGitHubAssetToPath h w assetURL targetPath st) in
  (forall p, p <> targetPath -> p <> targetPath +:+ ".download" ->
             files st' !! p = files st !! p)
  /\ requests_sent st' = requests_sent st ++ (if fetch_available h then [assetURL] else [])
  /\ match snd (downloadGitHubAssetToPath h w assetURL targetPath st) with
     | inl _ => True
     | inr result =>
         exists status_code stream,
           asset_fetch w assetURL = AssetResponse true status_code (Some stream)
           /\ stream_error stream = None
           /\ files st' !! targetPath = Some (String.concat "" (chunks stream))
           /\ files st' !! (targetPath +:+ ".download") = None
           /\ result_filePath result = targetPath
           /\ result_sizeBytes result
              = Z.of_nat (String.length (String.concat "" (chunks stream)))
     end.
Proof.
  cbv zeta. unfold downloadGitHubAssetToPath.
  destruct (fetch_available h); cbn [negb]; [| rewrite app_nil_r; repeat split].
  destruct (asset_fetch w assetURL) as [reason | ok status_code body]; [repeat split |].
  destruct ok; cbn [negb]; [| repeat split].
  destruct body as [stream |]; [| repeat split].
  destruct (mkdir_fails (faults w)); [repeat split |].
  destruct (pipeline _ _ _ _) as [fs1 piped] eqn:Hpipe.
  apply pipeline_writes_temp in Hpipe as (data & -> & Hdata).
  cbn [files with_requests_sent].
  pose proof (temp_path_differs targetPath) as Htemp.
  destruct piped as [reason |].
  - destruct (existsSync _ _); [destruct (unlink_fails (faults w)) |];
      cbn [fst snd files requests_sent with_files with_requests_sent];
      (split; [| split; [reflexivity | exact I]]); intros p Hp Hq.
    + now rewrite lookup_insert_ne.
    + rewrite lookup_delete_ne by congruence. now rewrite lookup_insert_ne.
    + now rewrite lookup_insert_ne.
  - destruct (Hdata eq_refl) as [-> Hstream].
    destruct (rename_fails (faults w)).
    + destruct (existsSync _ _); [destruct (unlink_fails (faults w)) |];
        cbn [fst snd files requests_sent with_files with_requests_sent];
        (split; [| split; [reflexivity | exact I]]); intros p Hp Hq.
      * now rewrite lookup_insert_ne.
      * rewrite lookup_delete_ne by congruence. now rewrite lookup_insert_ne.
      * now rewrite lookup_insert_ne.
    + unfold renameSync. rewrite lookup_insert_eq.
      assert (Hframe : forall p, p <> targetPath -> p <> targetPath +:+ ".download" ->
                <[targetPath := String.concat "" (chunks stream)]>
                  (delete (targetPath +:+ ".download")
                     (<[targetPath +:+ ".download" := String.concat "" (chunks stream)]>
                        (files st))) !! p
                = files st !! p).
      { intros p Hp Hq. rewrite lookup_insert_ne by congruence.
        rewrite lookup_delete_ne by congruence. now rewrite lookup_insert_ne. }
      destruct (stat_fails (faults w)).
      { cbn [fst snd files requests_sent with_files with_requests_sent].
        split; [exact Hframe |]. split; [reflexivity | exact I]. }
      rewrite lookup_insert_eq.
      cbn [fst snd files requests_sent with_files with_requests_sent result_filePath
           result_sizeBytes].
      split; [exact Hframe |].
      split; [reflexivity |].
      exists status_code, stream.
      rewrite lookup_insert_eq, lookup_insert_ne by congruence.
      rewrite lookup_delete_eq. repeat split. exact Hstream.
Qed.

(** ** Version comparison *)

Lemma compare_component_sign x y rest :
  -1 <= rest <= 1 -> -1 <= compare_component x y rest <= 1.
Proof. unfold compare_component. destruct (x >? y), (x <? y); lia. Qed.

Lemma compare_missing_left_sign r : -1 <= compare_missing_left r <= 1.
Proof. induction r; cbn; [lia | now apply compare_component_sign]. Qed.

Lemma compare_padded_sign l : forall r, -1 <= compare_padded l r <= 1.
Proof.
  induction l as [| x l IH]; intros r; cbn; [apply compare_missing_left_sign |].
  destruct r; apply compare_component_sign; apply IH.
Qed.

Lemma compare_padded_unfold l r :
  compare_padded l r
  = compare_component (head0 l) (head0 r) (compare_padded (tail l) (tail r)).
Proof. destruct l, r; reflexivity. Qed.

Lemma compare_padded_trans (n : nat) : forall l m r,
  (length l <= n)%nat -> (length m <= n)%nat -> (length r <= n)%nat ->
  compare_padded l m <= 0 -> compare_padded m r <= 0 -> compare_padded l r <= 0.
Proof.
  induction n as [| n IH]; intros l m r Hl Hm Hr.
  - destruct l, m, r; cbn in Hl, Hm, Hr; lia.
  - rewrite (compare_padded_unfold l m), (compare_padded_unfold m r),
      (compare_padded_unfold l r).
    assert (Hl' : (length (tail l) <= n)%nat) by (destruct l; cbn in *; lia).
    assert (Hm' : (length (tail m) <= n)%nat) by (destruct m; cbn in *; lia).
    assert (Hr' : (length (tail r) <= n)%nat) by (destruct r; cbn in *; lia).
    specialize (IH (tail l) (tail m) (tail r) Hl' Hm' Hr').
    unfold compare_component.
    destruct (head0 l >? head0 m) eqn:H1, (head0 l <? head0 m) eqn:H2,
      (head0 m >? head0 r) eqn:H3, (head0 m <? head0 r) eqn:H4,
      (head0 l >? head0 r) eqn:H5, (head0 l <? head0 r) eqn:H6; try lia.
Qed.

Lemma compare_padded_refl l : compare_padded l l = 0.
Proof.
  induction l as [| x l IH]; [reflexivity |].
  cbn. unfold compare_component. rewrite IH.
  destruct (x >? x) eqn:H1, (x <? x) eqn:H2; lia.
Qed.

(** X19. [compareVersions] orders versions consistently: its result is
    -1, 0 or 1; swapping the arguments negates it; a version compares
    equal to itself; and "not newer than" is transitive through every
    version that contains a digit.  (Through a version without digits it
    is not: such a version compares equal to everything.) *)
Theorem compareVersions_order (a b c : string) :
  -1 <= compareVersions a b <= 1
  /\ compareVersions a b = - compareVersions b a
  /\ compareVersions a a = 0
  /\ (parseVersionParts b <> [] ->
      compareVersions a b <= 0 -> compareVersions b c <= 0 -> compareVersions a c <= 0)
  /\ (parseVersionParts b = [] -> compareVersions a b = 0).
Proof.
  split.
  { rewrite compareVersions_padded. destruct (_ && _); [apply compare_padded_sign | lia]. }
  split; [apply compareVersions_antisym |].
  split.
  { rewrite compareVersions_padded. destruct (_ && _); [apply compare_padded_refl | lia]. }
  split.
  - intros Hb. rewrite !compareVersions_padded.
    assert (nonempty (parseVersionParts b) = true) as ->
      by (destruct (parseVersionParts b); [congruence | reflexivity]).
    rewrite andb_true_r. cbn [andb].
    destruct (nonempty (parseVersionParts a)); [| cbn; lia].
    destruct (nonempty (parseVersionParts c)); [| cbn; lia].
    cbn [andb].
    apply (compare_padded_trans
             (length (parseVersionParts a) + length (parseVersionParts b)
              + length (parseVersionParts c))); lia.
  - intros Hb. rewrite compareVersions_padded, Hb. cbn. now rewrite andb_false_r.
Qed.

(** ** Start-up *)

Lemma check_keeps h w opts st :
  let st' := fst (checkGitHubReleaseZipUpdate h w opts st) in
  launched st' = launched st
  /\ quit_scheduled st' = quit_scheduled st
  /\ updateConfig st' = updateConfig st
  /\ lastAppliedTag (githubUpdateMetadata st') = lastAppliedTag (githubUpdateMetadata st).
Proof.
  cbv zeta. unfold checkGitHubReleaseZipUpdate.
  rewrite fetchLatestGitHubRelease_answer.
  cbn [updateConfig setUpdateStatus with_updateStatus].
  destruct (release_answer h w (updateConfig st)) as [reason | [release |]];
    [destruct (fetch_available h); repeat split | |
     destruct (fetch_available h); repeat split].
  destruct (is_empty (tag_name release)); [destruct (fetch_available h); repeat split |].
  destruct (_ && _ && _); [destruct (fetch_available h); repeat split |].
  destruct (findReleaseAsset release _) as [asset_ |];
    [| destruct (fetch_available h); repeat split].
  destruct (is_empty (browser_download_url asset_));
    [destruct (fetch_available h); repeat split |].
  destruct (_ && negb (forceDownload opts)); [destruct (fetch_available h); repeat split |].
  destruct (negb (download opts)); [destruct (fetch_available h); repeat split |].
  match goal with
  | |- context [downloadGitHubAssetToPath ?a ?b ?c ?d ?e] =>
      pose proof (downloadGitHubAssetToPath_frame a b c d e) as Hframe;
      destruct (downloadGitHubAssetToPath a b c d e) as [st4 outcome]
  end.
  cbv zeta in Hframe. cbn [fst] in Hframe.
  destruct Hframe as (Hmeta & Hlaunched & Hquit & Hconfig & _).
  destruct outcome as [reason | result];
    cbn [fst snd launched quit_scheduled githubUpdateMetadata updateConfig setUpdateStatus
         with_updateStatus with_githubUpdateMetadata lastAppliedTag
         persistGitHubUpdateMetadata with_files];
    rewrite Hlaunched, Hquit, Hconfig, ?Hmeta;
    destruct (fetch_available h); repeat split.
Qed.



Lemma apply_launch_inv h w options st :
  let st' := fst (applyGitHubReleaseZipUpdate h w options st) in
  let tag := trim (default (lastTag (githubUpdateMetadata st)) (apply_tag options)) in
  updateConfig st' = updateConfig st
  /\ (forall p, existsSync p (files st) = true -> existsSync p (files st') = true)
  /\ lastTag (githubUpdateMetadata st') = lastTag (githubUpdateMetadata st)
  /\ filePath (githubUpdateMetadata st') = filePath (githubUpdateMetadata st)
  /\ (launched st' = launched st
      \/ (platform h = "win32"
          /\ (exists launcher,
                launched st' = launched st ++ [launcher] /\ is_launcher launcher = true)
          /\ quit_scheduled st' = true
          /\ lastAppliedTag (githubUpdateMetadata st') = tag
          /\ (apply_manual options = false -> tag <> "" ->
              lastAppliedTag (githubUpdateMetadata st) <> tag))).
Proof.
  cbv zeta. unfold applyGitHubReleaseZipUpdate.
  destruct (negb (String.eqb (platform h) "win32")) eqn:Hplatform;
    [repeat split; auto |].
  destruct (_ || _); [repeat split; auto |].
  destruct (negb (apply_manual options) && _ && _) eqn:Hskip; [repeat split; auto |].
  destruct (extracted_files w) as [extracted |]; [| repeat split; auto].
  destruct (pickUpdateLauncherFromExtractedFiles extracted) as [launcherPath |] eqn:Hpick;
    [| repeat split; auto].
  destruct (is_empty launcherPath); [repeat split; auto |].
  cbn [fst snd files requests_sent launched quit_scheduled githubUpdateMetadata updateStatus
       updateConfig setUpdateStatus with_updateStatus with_githubUpdateMetadata with_launch
       with_quit_scheduled lastAppliedTag appliedAt lastTag filePath
       persistGitHubUpdateMetadata with_files].
  apply negb_false_iff, String.eqb_eq in Hplatform.
  assert (Hin : launcherPath ∈ filter (fun f => is_launcher f = true) extracted).
  { unfold pickUpdateLauncherFromExtractedFiles in Hpick.
    apply head_Some_elem_of in Hpick.
    eapply elem_of_Permutation_proper; [apply array_sort_perm | exact Hpick]. }
  apply list_elem_of_filter in Hin as [Hlauncher _].
  split; [reflexivity |].
  split; [intros p Hp; now apply existsSync_writeJsonFile |].
  split; [reflexivity |].
  split; [reflexivity |]. right.
  split; [exact Hplatform |].
  split; [exists launcherPath; now split |].
  split; [reflexivity |]. split; [reflexivity |].
  intros Hmanual Htag Hsame.
  rewrite Hmanual, (is_empty_false _ Htag), Hsame, String.eqb_refl in Hskip.
  discriminate Hskip.
Qed.

(** X20. At start-up with the archive backend, an updater is launched
    only when [autoCheck] and [autoApplyGithubZip] are both on, the
    application is packaged and the platform is Windows; then exactly one
    file is launched, it has a launcher extension, the quit is scheduled,
    and the tag recorded as applied, unless blank, differs from the tag
    that was recorded before: a tag already applied is not applied again
    by itself. *)
Theorem startup_launch_guarded (checkForUpdates : AppState -> AppState) (h : Host) (w : World)
    (st : AppState) :
  useGithubReleaseZip (updateConfig st) = true ->
  let st' := startup_update checkForUpdates h w st in
  launched st' = launched st
  \/ (autoCheck (updateConfig st) = true
      /\ autoApplyGithubZip (updateConfig st) = true
      /\ appIsPackaged h = true
      /\ platform h = "win32"
      /\ (exists launcher,
            launched st' = launched st ++ [launcher] /\ is_launcher launcher = true)
      /\ quit_scheduled st' = true
      /\ (lastAppliedTag (githubUpdateMetadata st') <> "" ->
          lastAppliedTag (githubUpdateMetadata st')
          <> lastAppliedTag (githubUpdateMetadata st))).
Proof.
  intros Hzip st'. subst st'. unfold startup_update. rewrite Hzip. cbn [negb].
  destruct (autoCheck (updateConfig st)) eqn:Hauto; cbn [negb]; [| now left].
  pose proof (check_keeps h w {| manual := false; download := true; forceDownload := false |}
                st) as Hkeeps.
  destruct (checkGitHubReleaseZipUpdate _ _ _ st) as [st1 result].
  cbv zeta in Hkeeps. cbn [fst] in Hkeeps.
  destruct Hkeeps as (Hlaunched & _ & Hconfig & Hlast).
  rewrite Hconfig.
  destruct (autoApplyGithubZip (updateConfig st)) eqn:Happly; cbn [negb orb]; [| now left].
  destruct (appIsPackaged h) eqn:Hpackaged; cbn [negb]; [| now left].
  assert (Hcase : forall tag_ filePath_ releasePage_,
            let st2 :=
              if is_empty (trim filePath_) then st1
              else
                fst (applyGitHubReleaseZipUpdate h w
                       {| apply_manual := false;
                          apply_tag := Some (trim tag_);
                          apply_zipPath := Some (trim filePath_);
                          apply_releasePage :=
                            Some (str_or releasePage_
                                    (default "" (status_releasePage (updateStatus st1)))) |}
                       st1) in
            launched st2 = launched st
            \/ (true = true /\ true = true /\ true = true /\ platform h = "win32"
                /\ (exists launcher,
                      launched st2 = launched st ++ [launcher] /\ is_launcher launcher = true)
                /\ quit_scheduled st2 = true
                /\ (lastAppliedTag (githubUpdateMetadata st2) <> "" ->
                    lastAppliedTag (githubUpdateMetadata st2)
                    <> lastAppliedTag (githubUpdateMetadata st)))).
  { intros tag_ filePath_ releasePage_. cbv zeta.
    destruct (is_empty (trim filePath_)); [now left |].
    match goal with
    | |- context [applyGitHubReleaseZipUpdate h w ?o st1] =>
        pose proof (apply_launch_inv h w o st1) as Hinv
    end.
    cbv zeta in Hinv. cbn [apply_tag apply_manual default] in Hinv.
    destruct Hinv as (_ & _ & _ & _ & [Hsame | (Hplatform & Hlaunch & Hquit & Htag & Hfresh)]).
    - left. now rewrite Hsame.
    - right.
      split; [reflexivity |]. split; [reflexivity |]. split; [reflexivity |].
      split; [exact Hplatform |].
      split; [now rewrite <- Hlaunched |].
      split; [exact Hquit |].
      rewrite Htag, <- Hlast. intros Hblank Heq.
      now apply (Hfresh eq_refl Hblank). }
  destruct result as [reason | tag_ fp | [] tag_ fp page | tag_ url_ page | tag_ fp size page];
    first [left; exact Hlaunched | apply Hcase].
Qed.

Lemma startup_launch_guarded_witness :
  let st' := startup_update (fun st => st) demo_host demo_world (initial_state demo_host) in
  launched st' = ["stage/Bastion-Setup.exe"]
  /\ quit_scheduled st' = true
  /\ lastAppliedTag (githubUpdateMetadata st') = "v1.3.0".
Proof.
  destruct (startup_launch_guarded (fun st => st) demo_host demo_world
              (initial_state demo_host) eq_refl)
    as [Hnone | (_ & _ & _ & _ & _ & Hquit & _)].
  - vm_compute in Hnone. discriminate Hnone.
  - cbv zeta. split; [vm_compute; reflexivity |].
    split; [exact Hquit | vm_compute; reflexivity].
Defined.



(** ** Permission gate *)

Lemma fingerprinting_not_allowed permission :
  set_has FINGERPRINTING_PERMISSIONS permission = true ->
  set_has ALLOWED_PERMISSIONS permission = false.
Proof.
  unfold set_has. intros Hin. apply existsb_exists in Hin as (p & Hp & Heq).
  apply String.eqb_eq in Heq. subst p.
  pose proof permission_lists_disjoint as Hdisjoint.
  rewrite forallb_forall in Hdisjoint.
  apply Hdisjoint, negb_true_iff in Hp. exact Hp.
Qed.

(** X22. The switch [blockFingerprintingPermissions] changes no answer
    and no counter: whatever the configuration, a permission is granted
    exactly when it is on the allow-list, by the request handler and by
    the check handler alike, and a refusal adds one to
    [blockedPermissions] on or off.  (No fingerprinting capability is on
    the allow-list, so the switch only refuses what is refused anyway.) *)
Theorem permissions_ignore_configuration (c c' : PrivacyConfig) (permission : string)
    (stats : PrivacyStats) :
  permissionRequestHandler c permission stats = permissionRequestHandler c' permission stats
  /\ permissionCheckHandler c permission = permissionCheckHandler c' permission
  /\ snd (permissionRequestHandler c permission stats) = set_has ALLOWED_PERMISSIONS permission
  /\ permissionCheckHandler c permission = set_has ALLOWED_PERMISSIONS permission
  /\ fst (permissionRequestHandler c permission stats)
     = (if set_has ALLOWED_PERMISSIONS permission then stats
        else incrementPrivacyStat "blockedPermissions" stats).
Proof.
  assert (Hrequest : forall x,
            permissionRequestHandler x permission stats
            = (if set_has ALLOWED_PERMISSIONS permission then stats
               else incrementPrivacyStat "blockedPermissions" stats,
               set_has ALLOWED_PERMISSIONS permission)).
  { intros x. unfold permissionRequestHandler. cbv zeta.
    destruct (blockFingerprintingPermissions x); cbn [andb];
      [| now destruct (set_has ALLOWED_PERMISSIONS permission)].
    destruct (set_has FINGERPRINTING_PERMISSIONS permission) eqn:Hfp;
      [| now destruct (set_has ALLOWED_PERMISSIONS permission)].
    now rewrite (fingerprinting_not_allowed _ Hfp). }
  assert (Hcheck : forall x,
            permissionCheckHandler x permission = set_has ALLOWED_PERMISSIONS permission).
  { intros x. unfold permissionCheckHandler. cbv zeta.
    destruct (blockFingerprintingPermissions x); cbn [andb]; [| reflexivity].
    destruct (set_has FINGERPRINTING_PERMISSIONS permission) eqn:Hfp; [| reflexivity].
    now rewrite (fingerprinting_not_allowed _ Hfp). }
  rewrite (Hrequest c), (Hrequest c'), (Hcheck c), (Hcheck c'). repeat split.
Qed.

(** ** Host matcher *)

Lemma toLowerCase_app a b : toLowerCase (a +:+ b) = toLowerCase a +:+ toLowerCase b.
Proof.
  unfold toLowerCase, unchars, chars.
  induction a as [| c a IH]; [reflexivity |].
  change (String c a +:+ b) with (String c (a +:+ b)).
  cbn [list_ascii_of_string map string_of_list_ascii]. rewrite IH. reflexivity.
Qed.

Lemma substring_all b : substring 0 (String.length b) b = b.
Proof. induction b as [| d b IH]; cbn; [reflexivity | now rewrite IH]. Qed.

Lemma substring_skip a b :
  substring (String.length a) (String.length b) (a +:+ b) = b.
Proof. induction a as [| c a IH]; cbn; [apply substring_all | exact IH]. Qed.

Lemma string_app_assoc a b c : (a +:+ b) +:+ c = a +:+ (b +:+ c).
Proof.
  induction a as [| x a IH]; [reflexivity |].
  change (String x ((a +:+ b) +:+ c) = String x (a +:+ (b +:+ c))). now rewrite IH.
Qed.

Lemma endsWith_app a b : endsWith (a +:+ b) b = true.
Proof.
  unfold endsWith. cbv zeta. rewrite string_length_append.
  replace (String.length a + String.length b - String.length b)%nat
    with (String.length a) by lia.
  rewrite substring_skip, String.eqb_refl, andb_true_r.
  apply Nat.leb_le. lia.
Qed.

Lemma substring_split s : forall n k,
  (n + k = String.length s)%nat -> s = substring 0 n s +:+ substring n k s.
Proof.
  induction s as [| c s IH]; intros n k Hlen; cbn in Hlen.
  - destruct n, k; try discriminate Hlen. reflexivity.
  - destruct n as [| n].
    + cbn in Hlen. subst k. symmetry. exact (substring_all (String c s)).
    + change (String c s = String c (substring 0 n s +:+ substring n k s)).
      f_equal. apply IH. lia.
Qed.

Lemma endsWith_inv s suffix : endsWith s suffix = true -> exists a, s = a +:+ suffix.
Proof.
  unfold endsWith. cbv zeta. intros Hends.
  apply andb_true_iff in Hends as [Hlen Heq].
  apply Nat.leb_le in Hlen. apply String.eqb_eq in Heq.
  exists (substring 0 (String.length s - String.length suffix) s).
  rewrite <- Heq at 2. apply substring_split. lia.
Qed.

(** X23. Tracker rules cover whole subtrees of the name space and ignore
    case: when a host matches a tracker rule, so does every host below it
    ([sub.host] for any [sub]), and a host matches exactly when its
    lower-case form does. *)
Theorem matchesTrackerHost_subdomains (sub host : string) :
  (matchesTrackerHost host = true -> matchesTrackerHost (subdomain sub host) = true)
  /\ matchesTrackerHost (toLowerCase host) = matchesTrackerHost host.
Proof.
  split; [| unfold matchesTrackerHost; now rewrite toLowerCase_idempotent].
  unfold matchesTrackerHost, subdomain. cbv zeta.
  destruct (is_empty (toLowerCase host)) eqn:Hhost; [discriminate |].
  intros Hmatch. apply existsb_exists in Hmatch as (rule & Hrule & Hcase).
  rewrite !toLowerCase_app.
  change (toLowerCase ".") with ".".
  assert (Hends : endsWith (toLowerCase sub +:+ "." +:+ toLowerCase host) ("." +:+ rule) = true).
  { apply orb_true_iff in Hcase as [Heq | Hends].
    - apply String.eqb_eq in Heq. rewrite Heq. apply endsWith_app.
    - apply endsWith_inv in Hends as [pre ->].
      rewrite <- (string_app_assoc "." pre), <- (string_app_assoc (toLowerCase sub)).
      apply endsWith_app. }
  destruct (is_empty (toLowerCase sub +:+ "." +:+ toLowerCase host)) eqn:Hempty.
  { destruct (toLowerCase sub); discriminate Hempty. }
  apply existsb_exists. exists rule. split; [exact Hrule |].
  rewrite Hends. apply orb_true_r.
Qed.

(** ** Staging directory *)

Lemma tag_char_not_space c : is_tag_char c = true -> is_space c = false.
Proof. destruct c as [[] [] [] [] [] [] [] []]; vm_compute; congruence. Qed.

Lemma replace_unsafe_runs_id s :
  Forall (fun c => is_tag_char c = true) s -> replace_unsafe_runs s false = s.
Proof.
  induction 1 as [| c s Hc _ IH]; cbn; [reflexivity |]. now rewrite Hc, IH.
Qed.

Lemma sanitizeTagForPath_idempotent tag :
  sanitizeTagForPath (sanitizeTagForPath tag) = sanitizeTagForPath tag.
Proof.
  destruct (sanitizeTagForPath_safe tag) as [Hsafe Hne].
  set (safe := sanitizeTagForPath tag) in *.
  unfold sanitizeTagForPath at 1.
  assert (Htrim : trim safe = safe).
  { unfold trim. rewrite trim_chars_id; [apply unchars_chars | |].
    - intros x Hx. apply tag_char_not_space.
      destruct (chars safe) as [| y l]; [discriminate Hx |].
      injection Hx as <-. now inversion Hsafe.
    - intros x Hx. apply tag_char_not_space.
      apply Forall_rev in Hsafe.
      destruct (rev (chars safe)) as [| y l]; [discriminate Hx |].
      injection Hx as <-. now inversion Hsafe. }
  rewrite Htrim, (replace_unsafe_runs_id _ Hsafe), unchars_chars.
  unfold str_or. now rewrite (is_empty_false _ Hne).
Qed.

(** X24. The directory that an apply empties and extracts into: for
    every tag that does not sanitize to [.] or [..], it is the folder
    named after the sanitized tag under [updates/staged] of the user-data
    directory, so emptying it leaves the rest of the updates directory
    alone; and it depends on the tag through the sanitized tag only. *)
Theorem resolveGitHubUpdateStagingDir_inside (h : Host) (tag : string) :
  normalized (userData h) ->
  sanitizeTagForPath tag <> "." ->
  sanitizeTagForPath tag <> ".." ->
  resolveGitHubUpdateStagingDir h tag
  = userData h ++ ["updates"; "staged"; sanitizeTagForPath tag]
  /\ inside_dir (getGitHubUpdateDownloadDir h ++ ["staged"]) (resolveGitHubUpdateStagingDir h tag)
  /\ resolveGitHubUpdateStagingDir h (sanitizeTagForPath tag)
     = resolveGitHubUpdateStagingDir h tag.
Proof.
  intros Hdata Hdot Hdots.
  assert (Hdir : getGitHubUpdateDownloadDir h = userData h ++ ["updates"]).
  { unfold getGitHubUpdateDownloadDir. rewrite path_join_plain; [reflexivity |].
    apply Forall_app; split; [exact Hdata |].
    repeat constructor; discriminate. }
  assert (Hstage : resolveGitHubUpdateStagingDir h tag
                   = userData h ++ ["updates"; "staged"; sanitizeTagForPath tag]).
  { unfold resolveGitHubUpdateStagingDir. cbv zeta.
    assert (Hsegs : flat_map segments ["staged"; sanitizeTagForPath tag]
                    = ["staged"; sanitizeTagForPath tag]).
    { cbn [flat_map]. rewrite segments_sanitized. reflexivity. }
    rewrite path_join_plain; rewrite Hsegs, Hdir; [now rewrite <- app_assoc |].
    repeat (apply Forall_app; split); [exact Hdata | |].
    - repeat constructor; discriminate.
    - destruct (sanitizeTagForPath_safe tag) as [_ Hne].
      repeat constructor; try assumption; discriminate. }
  split; [exact Hstage |].
  split.
  - exists [sanitizeTagForPath tag]. split; [discriminate |].
    rewrite Hstage, Hdir, <- !app_assoc. reflexivity.
  - unfold resolveGitHubUpdateStagingDir. now rewrite sanitizeTagForPath_idempotent.
Qed.

Lemma resolveGitHubUpdateStagingDir_inside_witness :
  resolveGitHubUpdateStagingDir demo_host "release/1.3"
  = ["Users"; "me"; "AppData"; "Roaming"; "bastion-browser"; "updates"; "staged";
     "release_1.3"].
Proof.
  destruct (resolveGitHubUpdateStagingDir_inside demo_host "release/1.3") as (Hstage & _).
  - repeat constructor; discriminate.
  - vm_compute. discriminate.
  - vm_compute. discriminate.
  - rewrite Hstage. vm_compute. reflexivity.
Defined.

(** ** History *)

Lemma no_repeat_take n l : no_repeat l -> no_repeat (take n l).
Proof.
  intros Hl i a b Ha Hb.
  apply lookup_take_Some in Ha as [Ha _]. apply lookup_take_Some in Hb as [Hb _].
  exact (Hl i a b Ha Hb).
Qed.

Lemma no_repeat_cons x l :
  match l with [] => True | y :: _ => entry_url x <> entry_url y end ->
  no_repeat l -> no_repeat (x :: l).
Proof.
  intros Hhead Hl i a b Ha Hb. destruct i as [| i].
  - cbn in Ha, Hb. injection Ha as <-. destruct l as [| y l]; [discriminate Hb |].
    cbn in Hb. injection Hb as <-. exact Hhead.
  - cbn in Ha, Hb. exact (Hl i a b Ha Hb).
Qed.

(** X25. Appending to the history keeps it in shape: it never grows
    beyond 2000 entries once it is within, neighbours with the same URL
    stay excluded once they are (visiting the URL of the newest entry
    again records nothing), no entry with an empty URL or [about:blank]
    is ever added, a recorded visit is the newest entry, and a refused
    entry changes nothing.  Nothing but the history and its store on disk
    is touched: the call that changes the history writes the store, which
    then holds the whole new history when the write succeeds, and a call
    that leaves the history as it is writes nothing. *)
Theorem history_append_keeps_shape (h : Host) (w : World) (entry : option RawHistoryEntry)
    (st : AppState) :
  let st' := fst (history_append h w entry st) in
  let store := path_string (getHistoryStorePath h) in
  ((length (browsingHistory st) <= HISTORY_LIMIT)%nat ->
   (length (browsingHistory st') <= HISTORY_LIMIT)%nat)
  /\ (no_repeat (browsingHistory st) -> no_repeat (browsingHistory st'))
  /\ (Forall recordable (browsingHistory st) -> Forall recordable (browsingHistory st'))
  /\ (snd (history_append h w entry st) = None ->
      exists raw newest rest,
        entry = Some raw
        /\ browsingHistory st' = newest :: rest
        /\ raw_url raw = Some (entry_url newest)
        /\ recordable newest)
  /\ (forall reason, snd (history_append h w entry st) = Some reason -> st' = st)
  /\ st' = with_files (files st') (with_browsingHistory (browsingHistory st') st)
  /\ (forall p, p <> store -> files st' !! p = files st !! p)
  /\ (browsingHistory st' = browsingHistory st -> st' = st)
  /\ (browsingHistory st' <> browsingHistory st ->
      store_write (faults w) store = store_written ->
      files st' !! store = Some (JSON_stringify h (history_json h (browsingHistory st')))).
Proof.
  cbv zeta.
  pose (post := fun result : AppState * option string =>
    ((length (browsingHistory st) <= HISTORY_LIMIT)%nat ->
     (length (browsingHistory (fst result)) <= HISTORY_LIMIT)%nat)
    /\ (no_repeat (browsingHistory st) -> no_repeat (browsingHistory (fst result)))
    /\ (Forall recordable (browsingHistory st) ->
        Forall recordable (browsingHistory (fst result)))
    /\ (snd result = None ->
        exists raw newest rest,
          entry = Some raw
          /\ browsingHistory (fst result) = newest :: rest
          /\ raw_url raw = Some (entry_url newest)
          /\ recordable newest)
    /\ (forall reason, snd result = Some reason -> fst result = st)
    /\ fst result
       = with_files (files (fst result))
           (with_browsingHistory (browsingHistory (fst result)) st)
    /\ (forall p, p <> path_string (getHistoryStorePath h) ->
                  files (fst result) !! p = files st !! p)
    /\ (browsingHistory (fst result) = browsingHistory st -> fst result = st)
    /\ (browsingHistory (fst result) <> browsingHistory st ->
        store_write (faults w) (path_string (getHistoryStorePath h)) = store_written ->
        files (fst result) !! path_string (getHistoryStorePath h)
        = Some (JSON_stringify h (history_json h (browsingHistory (fst result)))))).
  change (post (history_append h w entry st)).
  assert (Hsame : st = with_files (files st) (with_browsingHistory (browsingHistory st) st))
    by now destruct st.
  assert (Hrefused : forall reason : string, post (st, Some reason)).
  { intros reason. unfold post. cbn [fst snd].
    split; [auto |]. split; [auto |]. split; [auto |].
    split; [intros Hnone; discriminate Hnone |].
    split; [intros; reflexivity |]. split; [exact Hsame |].
    split; [intros; reflexivity |]. split; [intros; reflexivity |].
    intros Hchanged. now destruct Hchanged. }
  unfold history_append.
  destruct entry as [raw |]; [| apply Hrefused].
  destruct (raw_url raw) as [u |] eqn:Hraw; [| apply Hrefused].
  assert (Hurl : entry_url (sanitizeHistoryEntry h raw) = u).
  { unfold sanitizeHistoryEntry. cbn [entry_url]. now rewrite Hraw. }
  cbv zeta. rewrite !Hurl.
  destruct (is_empty u || String.eqb u "about:blank") eqn:Hbad; [apply Hrefused |].
  apply orb_false_iff in Hbad as [Hempty Hblank].
  assert (Hrec : recordable (sanitizeHistoryEntry h raw)).
  { unfold recordable. rewrite Hurl.
    split; [intros -> ; discriminate Hempty | now apply String.eqb_neq]. }
  assert (Hpush : forall old : list HistoryEntry,
            browsingHistory st = old ->
            match old with
            | [] => True
            | last :: _ => entry_url last <> u
            end ->
            post (persistHistory h w
                    (with_browsingHistory
                       (take HISTORY_LIMIT (sanitizeHistoryEntry h raw :: old)) st),
                  None)).
  { intros old Hold Hfresh. unfold post.
    cbn [fst snd persistHistory with_files with_browsingHistory browsingHistory files].
    rewrite Hold.
    change (take HISTORY_LIMIT (sanitizeHistoryEntry h raw :: old))
      with (sanitizeHistoryEntry h raw :: take (HISTORY_LIMIT - 1) old).
    split.
    { intros _. cbn [length]. rewrite length_take. unfold HISTORY_LIMIT. lia. }
    split.
    { intros Hshape.
      change (no_repeat (take HISTORY_LIMIT (sanitizeHistoryEntry h raw :: old))).
      apply no_repeat_take, no_repeat_cons; [| exact Hshape].
      destruct old as [| last rest]; [exact I |]. rewrite Hurl. congruence. }
    split.
    { intros Hall. constructor; [exact Hrec |]. now apply Forall_take. }
    split.
    { intros _. exists raw, (sanitizeHistoryEntry h raw), (take (HISTORY_LIMIT - 1) old).
      rewrite Hurl.
      split; [reflexivity |]. split; [reflexivity |]. split; [exact Hraw | exact Hrec]. }
    split; [intros reason Hreason; discriminate Hreason |].
    split; [reflexivity |].
    split; [intros p Hp; now apply writeJsonFile_other |].
    split.
    { intros Hunchanged. exfalso.
      destruct old as [| last rest]; [discriminate Hunchanged |].
      injection Hunchanged as Hhead _. apply Hfresh. now rewrite <- Hhead. }
    intros _ Hwritten. now apply writeJsonFile_written. }
  destruct (browsingHistory st) as [| last rest] eqn:Hhistory.
  - apply (Hpush [] eq_refl I).
  - destruct (negb (String.eqb (entry_url last) u)) eqn:Hfresh.
    + apply negb_true_iff, String.eqb_neq in Hfresh.
      apply (Hpush (last :: rest) eq_refl Hfresh).
    + apply negb_false_iff, String.eqb_eq in Hfresh.
      unfold post. cbn [fst snd]. rewrite Hhistory.
      split; [auto |]. split; [auto |]. split; [auto |].
      split.
      { intros _. exists raw, last, rest. rewrite Hfresh.
        split; [reflexivity |]. split; [reflexivity |]. split; [exact Hraw |].
        unfold recordable. rewrite Hfresh.
        split; [intros Hu; rewrite Hu in Hempty; discriminate Hempty
               | now apply String.eqb_neq]. }
      split; [intros reason Hreason; discriminate Hreason |].
      split; [now destruct st |].
      split; [intros; reflexivity |]. split; [intros; reflexivity |].
      intros Hchanged. now destruct Hchanged.
Qed.

(** A first visit is recorded and written to the history store; the
    same visit again changes nothing. *)
Lemma history_append_keeps_shape_witness :
  let st1 := fst (history_append demo_host demo_world (Some demo_visit)
                    (initial_state demo_host)) in
  let st2 := fst (history_append demo_host demo_world (Some demo_visit) st1) in
  browsingHistory st1
  = [{| entry_url := "https://example.org/"; title := "Example";
        visitedAt := 1700000000000 |}]
  /\ files st1 !! "/Users/me/AppData/Roaming/bastion-browser/history.json"
     = Some (JSON_stringify demo_host
               (J_object
                  [("items",
                    J_array [J_object [("url", J_string "https://example.org/");
                                       ("title", J_string "Example");
                                       ("visitedAt", J_number 1700000000000)]])]))
  /\ st2 = st1.
Proof.
  cbv zeta.
  pose proof (history_append_keeps_shape demo_host demo_world (Some demo_visit)
                (initial_state demo_host)) as Hfirst.
  pose proof (history_append_keeps_shape demo_host demo_world (Some demo_visit)
                (fst (history_append demo_host demo_world (Some demo_visit)
                        (initial_state demo_host)))) as Hsecond.
  cbv zeta in Hfirst, Hsecond.
  destruct Hfirst as (_ & _ & _ & _ & _ & _ & _ & _ & Hstore).
  destruct Hsecond as (_ & _ & _ & _ & _ & _ & _ & Hsame & _).
  split; [vm_compute; reflexivity |].
  split; [exact (Hstore ltac:(vm_compute; discriminate) eq_refl) |].
  apply Hsame. vm_compute. reflexivity.
Defined.

(** ** Installing *)

Lemma is_launcher_nonempty f : is_launcher f = true -> is_empty f = false.
Proof. destruct f; [discriminate | reflexivity]. Qed.

Lemma pickUpdateLauncher_is_launcher extracted launcherPath :
  pickUpdateLauncherFromExtractedFiles extracted = Some launcherPath ->
  is_launcher launcherPath = true.
Proof.
  intros Hpick.
  assert (Hin : launcherPath ∈ filter (fun f => is_launcher f = true) extracted).
  { unfold pickUpdateLauncherFromExtractedFiles in Hpick.
    apply head_Some_elem_of in Hpick.
    eapply elem_of_Permutation_proper; [apply array_sort_perm | exact Hpick]. }
  now apply list_elem_of_filter in Hin as [Hlauncher _].
Qed.

(** X26. Installing through the archive backend does not look at the
    update status: whatever the status says, the recorded archive is
    applied again, by hand, so it is never skipped as already applied.  A
    launcher starts exactly when the platform is Windows, the archive
    named by the status (or else by the metadata) exists, the archive
    expands and holds a launcher; the launcher is the one picked from the
    extracted files. *)
Theorem installDownloadedUpdate_archive (h : Host) (w : World) (st : AppState) :
  source (updateStatus st) = github_release_zip ->
  let zipPath :=
    trim (str_or (default "" (updateFilePath (updateStatus st)))
            (filePath (githubUpdateMetadata st))) in
  let st' := fst (installDownloadedUpdate h w st) in
  launched st'
  = launched st
    ++ (if String.eqb (platform h) "win32" && negb (is_empty zipPath)
           && existsSync zipPath (files st)
        then match extracted_files w with
             | Some extracted =>
                 match pickUpdateLauncherFromExtractedFiles extracted with
                 | Some launcherPath => [launcherPath]
                 | None => []
                 end
             | None => []
             end
        else [])
  /\ (forall tag, snd (installDownloadedUpdate h w st) <> InstallByArchive (ApplySkipped tag))
  /\ (forall reason, snd (installDownloadedUpdate h w st) <> InstallFailed reason)
  /\ snd (installDownloadedUpdate h w st) <> InstallStarted.
Proof.
  intros Hsource zipPath st'. subst zipPath st'.
  unfold installDownloadedUpdate. cbv zeta. rewrite Hsource.
  destruct (applyGitHubReleaseZipUpdate h w _ st) as [st1 r] eqn:Happly.
  cbn [fst snd].
  split; [| split; [| split; [intros reason; discriminate | discriminate]]].
  - unfold applyGitHubReleaseZipUpdate in Happly.
    cbn [apply_manual apply_tag apply_zipPath apply_releasePage default negb andb] in Happly.
    destruct (String.eqb (platform h) "win32"); cbn [negb andb] in Happly |- *;
      [| injection Happly as <- _; now rewrite app_nil_r].
    destruct (is_empty _) eqn:Hzip; cbn [negb andb orb] in Happly |- *;
      [injection Happly as <- _; now rewrite app_nil_r |].
    destruct (existsSync _ (files st)); cbn [negb] in Happly |- *;
      [| injection Happly as <- _; now rewrite app_nil_r].
    destruct (extracted_files w) as [extracted |];
      [| injection Happly as <- _; cbn; now rewrite app_nil_r].
    destruct (pickUpdateLauncherFromExtractedFiles extracted) as [launcherPath |] eqn:Hpick;
      [| injection Happly as <- _; cbn; now rewrite app_nil_r].
    rewrite (is_launcher_nonempty _ (pickUpdateLauncher_is_launcher _ _ Hpick)) in Happly.
    injection Happly as <- _. reflexivity.
  - intros tag Hskipped. injection Hskipped as ->.
    unfold applyGitHubReleaseZipUpdate in Happly.
    cbn [apply_manual negb andb] in Happly.
    repeat case_match; simplify_eq.
Qed.

Lemma installDownloadedUpdate_archive_witness :
  launched (fst (installDownloadedUpdate demo_host demo_world state_after_install))
  = ["stage/Bastion-Setup.exe"; "stage/Bastion-Setup.exe"].
Proof.
  destruct (installDownloadedUpdate_archive demo_host demo_world state_after_install eq_refl)
    as (Hlaunched & _).
  rewrite Hlaunched. vm_compute. reflexivity.
Defined.

(** ** Sites *)

Lemma split_char_pieces (P : ascii -> Prop) sep s : forall cur,
  Forall P s -> Forall P cur -> Forall (Forall P) (split_char sep s cur).
Proof.
  induction s as [| c s IH]; intros cur Hs Hcur; cbn.
  - constructor; [now apply Forall_rev | constructor].
  - inversion Hs as [| ? ? Hc Hs']; subst.
    destruct (Ascii.eqb c sep).
    + constructor; [now apply Forall_rev | apply IH; [assumption | constructor]].
    + apply IH; [assumption | now constructor].
Qed.

Lemma split_char_no_sep sep s : forall cur,
  Forall (fun c => Ascii.eqb c sep = false) cur ->
  Forall (Forall (fun c => Ascii.eqb c sep = false)) (split_char sep s cur).
Proof.
  induction s as [| c s IH]; intros cur Hcur; cbn.
  - constructor; [now apply Forall_rev | constructor].
  - destruct (Ascii.eqb c sep) eqn:Hc.
    + constructor; [now apply Forall_rev | apply IH; constructor].
    + apply IH. now constructor.
Qed.

Lemma split_char_plain sep s : forall cur,
  Forall (fun c => Ascii.eqb c sep = false) s -> split_char sep s cur = [rev cur ++ s].
Proof.
  induction s as [| c s IH]; intros cur Hs; cbn.
  - now rewrite app_nil_r.
  - inversion Hs as [| ? ? Hc Hs']; subst. rewrite Hc, IH by assumption.
    cbn. now rewrite <- app_assoc.
Qed.

Lemma split_char_app sep p q : forall cur,
  Forall (fun c => Ascii.eqb c sep = false) p ->
  split_char sep (p ++ sep :: q) cur = (rev cur ++ p) :: split_char sep q [].
Proof.
  induction p as [| c p IH]; intros cur Hp; cbn.
  - now rewrite Ascii.eqb_refl, app_nil_r.
  - inversion Hp as [| ? ? Hc Hp']; subst. rewrite Hc, IH by assumption.
    cbn. now rewrite <- app_assoc.
Qed.

Lemma last_two_pair {A} (l : list A) :
  (2 <= length l)%nat -> exists a b, last_two l = [a; b] /\ In a l /\ In b l.
Proof.
  intros Hlen. unfold last_two.
  pose proof (firstn_skipn (length l - 2) l) as Hsplit.
  pose proof (length_skipn (length l - 2) l) as Hskip.
  destruct (skipn (length l - 2) l) as [| a [| b [| c rest]]]; cbn in Hskip; try lia.
  exists a, b. split; [reflexivity |].
  rewrite <- Hsplit. split; apply in_or_app; right; cbn; auto.
Qed.

Lemma toLowerCase_fixed s :
  Forall (fun c => lower_char c = c) (chars s) -> toLowerCase s = s.
Proof.
  intros Hfixed. unfold toLowerCase.
  rewrite <- (unchars_chars s) at 2. f_equal.
  induction Hfixed as [| c l Hc _ IH]; cbn; [reflexivity | now rewrite Hc, IH].
Qed.

Lemma getSiteKey_lower hostname_ : getSiteKey (toLowerCase hostname_) = getSiteKey hostname_.
Proof. unfold getSiteKey. now rewrite toLowerCase_idempotent. Qed.

Lemma getSiteKey_cases hostname_ :
  getSiteKey hostname_ = toLowerCase hostname_
  \/ (exists p q,
        getSiteKey hostname_ = unchars p +:+ "." +:+ unchars q
        /\ nonempty p = true /\ nonempty q = true
        /\ Forall (fun c => Ascii.eqb c "."%char = false) p
        /\ Forall (fun c => Ascii.eqb c "."%char = false) q
        /\ Forall (fun c => lower_char c = c) p
        /\ Forall (fun c => lower_char c = c) q).
Proof.
  unfold getSiteKey. cbv zeta.
  set (value := toLowerCase hostname_).
  destruct (is_empty value) eqn:Hempty; [left; now destruct value |].
  destruct (set_has LOOPBACK_HOSTS value || endsWith value ".localhost"); [now left |].
  destruct (is_dotted_quad value); [now left |].
  fold (labels value).
  destruct (Nat.leb (length (labels value)) 2) eqn:Hshort; [now left |].
  apply Nat.leb_gt in Hshort. right.
  destruct (last_two_pair (labels value)) as (p & q & -> & Hp & Hq); [lia |].
  assert (Hpiece : forall piece, In piece (labels value) ->
            nonempty piece = true
            /\ Forall (fun c => Ascii.eqb c "."%char = false) piece
            /\ Forall (fun c => lower_char c = c) piece).
  { intros piece Hin. unfold labels in Hin.
    apply list_elem_of_In, list_elem_of_filter in Hin as [Hne Hin].
    apply list_elem_of_In in Hin.
    split; [exact Hne |]. split.
    - pose proof (split_char_no_sep "."%char (chars value) [] (List.Forall_nil _)) as Hall.
      rewrite List.Forall_forall in Hall. now apply Hall.
    - assert (Hfixed : Forall (fun c => lower_char c = c) (chars value)).
      { subst value. unfold toLowerCase. rewrite chars_unchars.
        apply List.Forall_forall. intros c Hc. apply in_map_iff in Hc as (c' & <- & _).
        apply lower_char_idempotent. }
      pose proof (split_char_pieces (fun c => lower_char c = c) "."%char (chars value) []
                    Hfixed (List.Forall_nil _)) as Hall.
      rewrite List.Forall_forall in Hall. now apply Hall. }
  destruct (Hpiece p Hp) as (Hpne & Hpdot & Hplow).
  destruct (Hpiece q Hq) as (Hqne & Hqdot & Hqlow).
  exists p, q. repeat split; assumption.
Qed.

Lemma getSiteKey_idempotent hostname_ :
  getSiteKey (getSiteKey hostname_) = getSiteKey hostname_.
Proof.
  destruct (getSiteKey_cases hostname_)
    as [Hvalue | (p & q & Hkey' & Hpne & Hqne & Hpdot & Hqdot & Hplow & Hqlow)].
  { rewrite Hvalue at 1. apply getSiteKey_lower. }
  rewrite Hkey'.
  set (key := unchars p +:+ "." +:+ unchars q).
  assert (Hchars : chars key = p ++ "."%char :: q).
  { subst key. now rewrite !chars_app, !chars_unchars. }
  assert (Hkey : toLowerCase key = key).
  { apply toLowerCase_fixed. rewrite Hchars. apply Forall_app. split; [exact Hplow |].
    constructor; [reflexivity | exact Hqlow]. }
  assert (Hlabels : labels key = [p; q]).
  { unfold labels. rewrite Hchars, split_char_app, split_char_plain by assumption.
    cbn [rev app]. rewrite !filter_cons, Hpne, Hqne. reflexivity. }
  unfold getSiteKey. cbv zeta. rewrite Hkey.
  fold (labels key). rewrite Hlabels.
  destruct (is_empty key) eqn:Hempty; [| destruct (_ || _); [| destruct (is_dotted_quad key)]];
    try reflexivity.
  subst key. destruct p; [discriminate Hpne | discriminate Hempty].
Qed.

(** X27. Sites: the site key of a host is canonical (taking the key of a
    key changes nothing, and case is ignored), and "same site" is an
    equivalence on URLs with a host: no URL is third-party to itself, the
    test is symmetric, and it is transitive through every URL that has a
    host.  A request is third-party only when both URLs parse to a host
    and their site keys differ. *)
Theorem same_site_equivalence (h : Host) (host u v w : string) :
  getSiteKey (getSiteKey host) = getSiteKey host
  /\ getSiteKey (toLowerCase host) = getSiteKey host
  /\ isThirdPartyRequest h u u = false
  /\ isThirdPartyRequest h u v = isThirdPartyRequest h v u
  /\ (getHostnameFromUrl h v <> "" ->
      isThirdPartyRequest h u v = false ->
      isThirdPartyRequest h v w = false ->
      isThirdPartyRequest h u w = false)
  /\ (isThirdPartyRequest h u v = true ->
      getHostnameFromUrl h u <> "" /\ getHostnameFromUrl h v <> ""
      /\ getSiteKey (getHostnameFromUrl h u) <> getSiteKey (getHostnameFromUrl h v)).
Proof.
  split; [apply getSiteKey_idempotent |].
  split; [apply getSiteKey_lower |].
  unfold isThirdPartyRequest. cbv zeta.
  set (a := getHostnameFromUrl h u). set (b := getHostnameFromUrl h v).
  set (c := getHostnameFromUrl h w).
  split.
  { destruct (is_empty a); [reflexivity |]. cbn [orb]. now rewrite String.eqb_refl. }
  split.
  { rewrite (orb_comm (is_empty a)), (String.eqb_sym (getSiteKey a)). reflexivity. }
  split.
  - intros Hb. rewrite (is_empty_false _ Hb), !orb_false_r. cbn [orb].
    destruct (is_empty a); [reflexivity |].
    destruct (is_empty c); [reflexivity |]. cbn [orb].
    rewrite !negb_false_iff, !String.eqb_eq. congruence.
  - destruct (is_empty a) eqn:Ha; [discriminate |].
    destruct (is_empty b) eqn:Hb; [discriminate |]. cbn [orb].
    rewrite negb_true_iff, String.eqb_neq. intros Hdiff.
    split; [intros Heq; rewrite Heq in Ha; discriminate Ha |].
    split; [intros Heq; rewrite Heq in Hb; discriminate Hb | exact Hdiff].
Qed.
